(** * Obsidian Note Minimap: a shallow embedding of the plugin and its renderer

    The development follows the three source files of the plugin:
    - [types.ts]: the settings shape, [DEFAULT_SETTINGS], [IMAGE_EXTENSIONS];
    - [main.ts]: [loadSettings], [isMinimapEnabledForFile], the per-file
      toggle command, the settings-tab sliders;
    - [MinimapRenderer.ts]: [attach], [detach], [update], [syncVisibility],
      [scrollToMinimapPosition] and the context menu.

    Modelling conventions.
    - A JavaScript number is a [num]: an exact rational, or one of
      [+Infinity], [-Infinity], [NaN].  Rounding of binary64 arithmetic and
      the sign of zero are not modelled; every divisor in the program is a
      DOM length, which is never [-0].
    - A JavaScript string is a [string] of code units below 256.
    - The DOM and the 2D canvas are state: the canvas context keeps the log
      of the drawing calls issued since the bitmap was last reset. *)

From Stdlib Require Import QArith Qround Qminmax Lqa.
From Stdlib Require Import Ascii String List Bool Lia DecimalNat DecimalString.
From stdpp Require Import gmap strings list fin_maps.

Open Scope string_scope.
Open Scope list_scope.

(* ===================================================================== *)
(** * JavaScript numbers *)
(* ===================================================================== *)

Inductive num : Type :=
  | Fin (q : Q)
  | PInf
  | NInf
  | NaN.

Definition isFinite (x : num) : bool :=
  match x with Fin _ => true | _ => false end.

Definition Qlt_bool (x y : Q) : bool := negb (Qle_bool y x).

(** The infinity carrying the sign of a comparison with zero; [NaN] for a
    zero operand ([0 * Infinity], [0 / 0]). *)
Definition infOfSign (c : comparison) : num :=
  match c with Gt => PInf | Lt => NInf | Eq => NaN end.

Definition numNeg (x : num) : num :=
  match x with
  | Fin q => Fin (- q)%Q
  | PInf => NInf
  | NInf => PInf
  | NaN => NaN
  end.

Definition numAdd (x y : num) : num :=
  match x, y with
  | NaN, _ | _, NaN => NaN
  | Fin a, Fin b => Fin (a + b)%Q
  | PInf, NInf | NInf, PInf => NaN
  | PInf, _ | _, PInf => PInf
  | NInf, _ | _, NInf => NInf
  end.

Definition numSub (x y : num) : num := numAdd x (numNeg y).

Definition numMul (x y : num) : num :=
  match x, y with
  | NaN, _ | _, NaN => NaN
  | Fin a, Fin b => Fin (a * b)%Q
  | Fin a, PInf | PInf, Fin a => infOfSign (a ?= 0)%Q
  | Fin a, NInf | NInf, Fin a => infOfSign (0 ?= a)%Q
  | PInf, PInf | NInf, NInf => PInf
  | PInf, NInf | NInf, PInf => NInf
  end.

(** Division; a finite number over zero is an infinity of the sign of the
    numerator, [0 / 0] is [NaN]. *)
Definition numDiv (x y : num) : num :=
  match x, y with
  | NaN, _ | _, NaN => NaN
  | Fin a, Fin b => if Qeq_bool b 0 then infOfSign (a ?= 0)%Q else Fin (a / b)%Q
  | Fin _, PInf | Fin _, NInf => Fin 0
  | PInf, Fin b => if Qle_bool 0 b then PInf else NInf
  | NInf, Fin b => if Qle_bool 0 b then NInf else PInf
  | _, _ => NaN
  end.

(** [Math.floor] *)
Definition numFloor (x : num) : num :=
  match x with
  | Fin q => Fin (inject_Z (Qfloor q))
  | _ => x
  end.

(** [x < y]; any comparison with [NaN] is [false]. *)
Definition numLt (x y : num) : bool :=
  match x, y with
  | NaN, _ | _, NaN => false
  | Fin a, Fin b => Qlt_bool a b
  | NInf, NInf | PInf, _ | _, NInf => false
  | NInf, _ | _, PInf => true
  end.

Definition numGt (x y : num) : bool := numLt y x.

(** [Math.max] and [Math.min]: [NaN] if either argument is [NaN]. *)
Definition numMax (x y : num) : num :=
  match x, y with
  | NaN, _ | _, NaN => NaN
  | _, _ => if numLt x y then y else x
  end.

Definition numMin (x y : num) : num :=
  match x, y with
  | NaN, _ | _, NaN => NaN
  | _, _ => if numLt y x then y else x
  end.

Declare Scope num_scope.
Delimit Scope num_scope with num.
Bind Scope num_scope with num.
Infix "+" := numAdd : num_scope.
Infix "-" := numSub : num_scope.
Infix "*" := numMul : num_scope.
Infix "/" := numDiv : num_scope.
Infix "<?" := numLt : num_scope.
Infix ">?" := numGt : num_scope.
Notation "- x" := (numNeg x) : num_scope.

Coercion Fin : Q >-> num.

(* ===================================================================== *)
(** * JavaScript strings *)
(* ===================================================================== *)

(** White space of [String.prototype.trim] and of the regular expression
    class [\s], among the code units below 256: TAB, LF, VT, FF, CR, SPACE
    and NO-BREAK SPACE. *)
Definition isWhiteSpace (c : ascii) : bool :=
  let n := nat_of_ascii c in
  ((9 <=? n)%nat && (n <=? 13)%nat) || (n =? 32)%nat || (n =? 160)%nat.

(** Line terminators, which the regular expression [.] does not match. *)
Definition isLineTerminator (c : ascii) : bool :=
  let n := nat_of_ascii c in (n =? 10)%nat || (n =? 13)%nat.

(** [s.startsWith(p)] *)
Fixpoint startsWith (s p : string) : bool :=
  match p, s with
  | EmptyString, _ => true
  | String a p', String b s' => Ascii.eqb a b && startsWith s' p'
  | String _ _, EmptyString => false
  end.

(** [s.slice(n)] *)
Fixpoint sliceFrom (n : nat) (s : string) : string :=
  match n, s with
  | O, _ => s
  | S n', String _ r => sliceFrom n' r
  | S _, EmptyString => EmptyString
  end.

(** [s.endsWith(p)] *)
Definition endsWith (s p : string) : bool :=
  (String.length p <=? String.length s)%nat &&
  String.eqb (sliceFrom (String.length s - String.length p) s) p.

(** [s.includes(p)] *)
Fixpoint includes (s p : string) : bool :=
  startsWith s p ||
  match s with
  | EmptyString => false
  | String _ r => includes r p
  end.

Fixpoint trimStart (s : string) : string :=
  match s with
  | EmptyString => EmptyString
  | String c r => if isWhiteSpace c then trimStart r else s
  end.

Fixpoint trimEnd (s : string) : string :=
  match s with
  | EmptyString => EmptyString
  | String c r =>
      match trimEnd r with
      | EmptyString => if isWhiteSpace c then EmptyString else String c EmptyString
      | r' => String c r'
      end
  end.

(** [s.trim()] *)
Definition trim (s : string) : string := trimEnd (trimStart s).

(** [s.toLowerCase()] on code units below 256: A-Z, and the Latin-1
    capitals U+00C0..U+00DE except the multiplication sign U+00D7. *)
Definition lowerChar (c : ascii) : ascii :=
  let n := nat_of_ascii c in
  if ((65 <=? n)%nat && (n <=? 90)%nat) ||
     ((192 <=? n)%nat && (n <=? 222)%nat && negb (n =? 215)%nat)
  then ascii_of_nat (n + 32) else c.

Fixpoint toLowerCase (s : string) : string :=
  match s with
  | EmptyString => EmptyString
  | String c r => String (lowerChar c) (toLowerCase r)
  end.

(** [s.split(sep)] for a one-character separator. *)
Fixpoint split (sep : ascii) (s : string) : list string :=
  match s with
  | EmptyString => [EmptyString]
  | String c r =>
      if Ascii.eqb c sep then EmptyString :: split sep r
      else match split sep r with
           | [] => [String c EmptyString]
           | seg :: segs => String c seg :: segs
           end
  end.

(** Length of the match of [/^#+/]: the number of leading [#]. *)
Fixpoint leadingHashes (s : string) : nat :=
  match s with
  | String "#" r => S (leadingHashes r)
  | _ => O
  end.

(** [s.replace(/^#+\s*/, <empty string>)] *)
Definition stripHeaderPrefix (s : string) : string :=
  match leadingHashes s with
  | O => s
  | n => trimStart (sliceFrom n s)
  end.

(** [s.search(/\S/)]: index of the first non-white-space unit, or [-1]. *)
Fixpoint searchNonSpace (s : string) : Z :=
  match s with
  | EmptyString => (-1)%Z
  | String c r =>
      if isWhiteSpace c then
        (let i := searchNonSpace r in if (i <? 0)%Z then (-1)%Z else i + 1)%Z
      else 0%Z
  end.

(** The lazy group [(.*?)] followed by [\]\]]: the shortest run of units
    other than line terminators that is followed by two closing brackets. *)
Fixpoint lazyUntilClose (s : string) : option string :=
  if startsWith s "]]" then Some EmptyString
  else match s with
       | EmptyString => None
       | String c r =>
           if isLineTerminator c then None
           else option_map (String c) (lazyUntilClose r)
       end.

(** [s.match(/!\[\[(.*?)\]\]/)]: capture group 1 of the leftmost match. *)
Fixpoint wikiMatch (s : string) : option string :=
  match s with
  | EmptyString => None
  | String _ r =>
      match (if startsWith s "![[" then lazyUntilClose (sliceFrom 3 s) else None) with
      | Some embedPath => Some embedPath
      | None => wikiMatch r
      end
  end.

(* ===================================================================== *)
(** * types.ts: settings *)
(* ===================================================================== *)

Record MinimapSettings : Type := {
  disabledFiles : list string;
  width : Q;
  lineHeight : Q;
  minimapOpacity : Q;
  showMinimap : bool;
  showHeaders : bool;
  showLists : bool;
  showCodeBlocks : bool;
  headerColor : string;
  textColor : string;
  codeBlockColor : string;
  indicatorColor : string;
  indicatorOpacity : Q;
  header1Color : string;
  header2Color : string;
  header3Color : string;
  header4Color : string;
  header5Color : string;
  header6Color : string;
  imageColor : string;
  tableColor : string;
  minElementWidth : Q;
  minElementHeight : Q;
  embedColor : string;
  density : Q;
  minimapScaling : Q;
  lineSpacing : Q;
  textDensity : Q
}.

Definition DEFAULT_SETTINGS : MinimapSettings := {|
  disabledFiles := [];
  width := 150;
  lineHeight := 4;
  minimapOpacity := 0.5;
  showMinimap := true;
  showHeaders := true;
  showLists := true;
  showCodeBlocks := true;
  headerColor := "#00BADA";
  textColor := "#808080";
  codeBlockColor := "#0000FF";
  indicatorColor := "#4444FF";
  indicatorOpacity := 0.2;
  header1Color := "#FF0000";
  header2Color := "#00FF00";
  header3Color := "#0000FF";
  header4Color := "#FFFF00";
  header5Color := "#FF00FF";
  header6Color := "#00FFFF";
  imageColor := "#A0A0A0";
  tableColor := "#808080";
  minElementWidth := 4;
  minElementHeight := 1;
  embedColor := "#6A9955";
  density := 1;
  minimapScaling := 0.5;
  lineSpacing := 1.2;
  textDensity := 1.5
|}.

Definition IMAGE_EXTENSIONS : list string :=
  [".png"; ".jpg"; ".jpeg"; ".gif"; ".bmp"; ".svg"; ".webp"].

(* ===================================================================== *)
(** * MinimapRenderer.ts: line classification *)
(* ===================================================================== *)

(** [isImagePath]: the renderer's own list is the same as
    [IMAGE_EXTENSIONS]. *)
Definition isImagePath (path : string) : bool :=
  let lower := toLowerCase path in
  existsb (fun ext => endsWith lower ext) IMAGE_EXTENSIONS.

(** [content.split("|").filter((c) => c.trim())] *)
Definition tableCells (content : string) : list string :=
  List.filter (fun c => negb (String.eqb (trim c) EmptyString)) (split "|" content).

Inductive LineClass : Type :=
  | ImageEmbed
  | GenericEmbed
  | Header (level : nat)
  | CodeFence
  | TableRow (cellCount : nat)
  | PlainText
  | Blank.

(** The branch of the body of [processLines] that a line takes, in the
    order of the source: each test is tried only when the ones before it
    failed. *)
Definition classifyLine (st : MinimapSettings) (content : string) : LineClass :=
  match wikiMatch content with
  | Some embedPath =>
      if isImagePath embedPath then ImageEmbed else GenericEmbed
  | None =>
      if startsWith content "#" && showHeaders st then
        Header (leadingHashes content)
      else if startsWith (trim content) "```" && showCodeBlocks st then
        CodeFence
      else if includes content "|" then
        TableRow (List.length (tableCells content))
      else if (0 <? String.length (trim content))%nat then
        PlainText
      else Blank
  end.

(* ===================================================================== *)
(** * The browser: canvas, 2D context, listeners *)
(* ===================================================================== *)

(** A drawing call as the bitmap receives it: the rectangle, and the
    context state it is drawn under (style, alpha, line width, transform). *)
Inductive DrawCall : Type :=
  | FillRect (x y w h : num) (style : string) (alpha : Q) (sx sy : Q)
  | StrokeRect (x y w h : num) (style : string) (alpha lineW : Q) (sx sy : Q).

Definition rectY (d : DrawCall) : num :=
  match d with
  | FillRect _ y _ _ _ _ _ _ => y
  | StrokeRect _ y _ _ _ _ _ _ _ => y
  end.

(** The canvas ignores a rectangle call with a non-finite argument. *)
Definition effective (d : DrawCall) : bool :=
  match d with
  | FillRect x y w h _ _ _ _
  | StrokeRect x y w h _ _ _ _ _ =>
      isFinite x && isFinite y && isFinite w && isFinite h
  end.

Record Ctx2D : Type := {
  scaleX : Q;
  scaleY : Q;
  fillStyle : string;
  strokeStyle : string;
  globalAlpha : Q;
  lineWidth : Q;
  calls : list DrawCall
}.

(** The state of a context after its canvas was resized: identity
    transform, black styles, opaque, an empty bitmap. *)
Definition freshContext : Ctx2D := {|
  scaleX := 1; scaleY := 1;
  fillStyle := "#000000"; strokeStyle := "#000000";
  globalAlpha := 1; lineWidth := 1;
  calls := []
|}.

(** What reaches the bitmap. *)
Definition bitmap (ctx : Ctx2D) : list DrawCall := List.filter effective (calls ctx).

Record Browser : Type := {
  innerHeight : Q;                   (* window.innerHeight *)
  devicePixelRatio : Q;              (* window.devicePixelRatio *)
  backgroundPrimary : string;        (* computed --background-primary *)
  isColor : string -> bool;          (* does the string parse as a CSS colour *)
  context2dSupported : bool;         (* getContext("2d") on a new canvas is not null *)
  measureTextWidth : string -> Q     (* ctx.measureText(s).width, default font *)
}.

Definition ctxScale (x y : Q) (ctx : Ctx2D) : Ctx2D := {|
  scaleX := (scaleX ctx * x)%Q; scaleY := (scaleY ctx * y)%Q;
  fillStyle := fillStyle ctx; strokeStyle := strokeStyle ctx;
  globalAlpha := globalAlpha ctx; lineWidth := lineWidth ctx;
  calls := calls ctx
|}.

(** Assigning a string that is not a colour leaves the style as it was. *)
Definition setFillStyle (b : Browser) (color : string) (ctx : Ctx2D) : Ctx2D :=
  if isColor b color then {|
    scaleX := scaleX ctx; scaleY := scaleY ctx;
    fillStyle := color; strokeStyle := strokeStyle ctx;
    globalAlpha := globalAlpha ctx; lineWidth := lineWidth ctx;
    calls := calls ctx
  |} else ctx.

Definition setStrokeStyle (b : Browser) (color : string) (ctx : Ctx2D) : Ctx2D :=
  if isColor b color then {|
    scaleX := scaleX ctx; scaleY := scaleY ctx;
    fillStyle := fillStyle ctx; strokeStyle := color;
    globalAlpha := globalAlpha ctx; lineWidth := lineWidth ctx;
    calls := calls ctx
  |} else ctx.

(** An alpha outside [0, 1] is ignored. *)
Definition setGlobalAlpha (a : Q) (ctx : Ctx2D) : Ctx2D :=
  if Qle_bool 0 a && Qle_bool a 1 then {|
    scaleX := scaleX ctx; scaleY := scaleY ctx;
    fillStyle := fillStyle ctx; strokeStyle := strokeStyle ctx;
    globalAlpha := a; lineWidth := lineWidth ctx;
    calls := calls ctx
  |} else ctx.

(** A line width that is not positive is ignored. *)
Definition setLineWidth (lw : Q) (ctx : Ctx2D) : Ctx2D :=
  if Qlt_bool 0 lw then {|
    scaleX := scaleX ctx; scaleY := scaleY ctx;
    fillStyle := fillStyle ctx; strokeStyle := strokeStyle ctx;
    globalAlpha := globalAlpha ctx; lineWidth := lw;
    calls := calls ctx
  |} else ctx.

Definition issue (d : DrawCall) (ctx : Ctx2D) : Ctx2D := {|
  scaleX := scaleX ctx; scaleY := scaleY ctx;
  fillStyle := fillStyle ctx; strokeStyle := strokeStyle ctx;
  globalAlpha := globalAlpha ctx; lineWidth := lineWidth ctx;
  calls := calls ctx ++ [d]
|}.

Definition fillRect (x y w h : num) (ctx : Ctx2D) : Ctx2D :=
  issue (FillRect x y w h (fillStyle ctx) (globalAlpha ctx) (scaleX ctx) (scaleY ctx)) ctx.

Definition strokeRect (x y w h : num) (ctx : Ctx2D) : Ctx2D :=
  issue (StrokeRect x y w h (strokeStyle ctx) (globalAlpha ctx) (lineWidth ctx)
           (scaleX ctx) (scaleY ctx)) ctx.

(** Function objects registered as listeners.  [onEditorScroll] is one
    function per renderer; every arrow function written inline in [attach]
    is a new object each time [attach] runs. *)
Inductive ArrowBody : Type :=
  | StartDrag           (* mousedown: isDragging = true; scrollToMinimapPosition *)
  | DragMove            (* mousemove: if isDragging, scrollToMinimapPosition *)
  | StopDrag            (* mouseup, mouseleave: isDragging = false *)
  | OpenContextMenu.    (* contextmenu: createContextMenu *)

Inductive Callback : Type :=
  | OnEditorScroll
  | Arrow (id : nat) (body : ArrowBody).

Record Listener : Type := { eventType : string; callback : Callback }.

Definition ArrowBody_eqb (a b : ArrowBody) : bool :=
  match a, b with
  | StartDrag, StartDrag | DragMove, DragMove
  | StopDrag, StopDrag | OpenContextMenu, OpenContextMenu => true
  | _, _ => false
  end.

Definition Callback_eqb (a b : Callback) : bool :=
  match a, b with
  | OnEditorScroll, OnEditorScroll => true
  | Arrow i x, Arrow j y => (i =? j)%nat && ArrowBody_eqb x y
  | _, _ => false
  end.

Definition Listener_eqb (a b : Listener) : bool :=
  String.eqb (eventType a) (eventType b) && Callback_eqb (callback a) (callback b).

(** [target.addEventListener(type, cb)]: a listener already present is not
    added again. *)
Definition addEventListener (type : string) (cb : Callback) (ls : list Listener)
  : list Listener :=
  let l := {| eventType := type; callback := cb |} in
  if existsb (Listener_eqb l) ls then ls else ls ++ [l].

(** [target.removeEventListener(type, cb)] *)
Definition removeEventListener (type : string) (cb : Callback) (ls : list Listener)
  : list Listener :=
  List.filter (fun l => negb (Listener_eqb {| eventType := type; callback := cb |} l)) ls.

Inductive Display : Type := DisplayUnset | DisplayNone | DisplayBlock.

Inductive CssLength : Type :=
  | Px (n : num)
  | ViewportHeightMinus50.     (* calc(100vh - 50px) *)

Record Canvas : Type := {
  display : Display;               (* style.display *)
  opacityProperty : option Q;      (* style --minimap-opacity *)
  styleWidth : CssLength;
  styleHeight : CssLength;
  attrWidth : Z;                   (* canvas.width *)
  attrHeight : Z;                  (* canvas.height *)
  contextAvailable : bool;         (* getContext("2d") is not null *)
  ctx : Ctx2D;
  canvasListeners : list Listener
}.

(** Conversion of a number assigned to [canvas.width] or [canvas.height]
    (an [unsigned long] reflecting a content attribute): truncation, wrap
    modulo 2^32, and the default when the result exceeds 2^31 - 1. *)
Definition toCanvasSize (default : Z) (x : num) : Z :=
  match x with
  | Fin q =>
      let u := (Z.quot (Qnum q) (Zpos (Qden q)) mod 4294967296)%Z in
      if (u <=? 2147483647)%Z then u else default
  | _ => 0%Z
  end.

(* ===================================================================== *)
(** * The host application: document view and scroller *)
(* ===================================================================== *)

(** One line of the CodeMirror document: [doc.line(n).text] and the
    [top] and [height] of [lineBlockAt(line.from)]. *)
Record DocLine : Type := {
  lineText : string;
  blockTop : Q;
  blockHeight : Q
}.

(** The [.cm-scroller] element. *)
Record Scroller : Type := {
  scrollTop : Q;
  scrollHeight : Q;
  clientHeight : Q;
  scrollListeners : list Listener
}.

(** [leaf.view] when it is a [MarkdownView]. *)
Record MarkdownView : Type := {
  file : option string;              (* view.file?.path *)
  scroller : option Scroller;        (* containerEl.querySelector(".cm-scroller") *)
  cm : option (list DocLine)         (* (editor as any).cm *)
}.

(** The renderer together with what it reads and writes: the host's
    settings and dragging flag, the leaf's view, the browser. *)
Record World : Type := {
  settings : MinimapSettings;        (* host.settings *)
  isDragging : bool;                 (* host.isDragging *)
  view : option MarkdownView;        (* None: leaf.view is not a MarkdownView *)
  canvas : option Canvas;            (* this.canvas, appended to the container *)
  browser : Browser;
  documentListeners : list Listener; (* listeners on [document] *)
  arrows : nat                       (* arrow functions created so far *)
}.

Definition withCanvas (w : World) (c : option Canvas) : World := {|
  settings := settings w; isDragging := isDragging w; view := view w;
  canvas := c; browser := browser w;
  documentListeners := documentListeners w; arrows := arrows w
|}.

Definition withSettings (w : World) (st : MinimapSettings) : World := {|
  settings := st; isDragging := isDragging w; view := view w;
  canvas := canvas w; browser := browser w;
  documentListeners := documentListeners w; arrows := arrows w
|}.

Definition withView (w : World) (v : option MarkdownView) : World := {|
  settings := settings w; isDragging := isDragging w; view := v;
  canvas := canvas w; browser := browser w;
  documentListeners := documentListeners w; arrows := arrows w
|}.

Definition withDragging (w : World) (d : bool) : World := {|
  settings := settings w; isDragging := d; view := view w;
  canvas := canvas w; browser := browser w;
  documentListeners := documentListeners w; arrows := arrows w
|}.

Definition withScroller (v : MarkdownView) (e : option Scroller) : MarkdownView := {|
  file := file v; scroller := e; cm := cm v
|}.

Definition setDisplay (d : Display) (c : Canvas) : Canvas := {|
  display := d; opacityProperty := opacityProperty c;
  styleWidth := styleWidth c; styleHeight := styleHeight c;
  attrWidth := attrWidth c; attrHeight := attrHeight c;
  contextAvailable := contextAvailable c; ctx := ctx c;
  canvasListeners := canvasListeners c
|}.

(** [canvas.style.setProperty("--minimap-opacity", v)] *)
Definition setOpacityProperty (v : Q) (c : Canvas) : Canvas := {|
  display := display c; opacityProperty := Some v;
  styleWidth := styleWidth c; styleHeight := styleHeight c;
  attrWidth := attrWidth c; attrHeight := attrHeight c;
  contextAvailable := contextAvailable c; ctx := ctx c;
  canvasListeners := canvasListeners c
|}.

Definition setStyleSize (sw sh : CssLength) (c : Canvas) : Canvas := {|
  display := display c; opacityProperty := opacityProperty c;
  styleWidth := sw; styleHeight := sh;
  attrWidth := attrWidth c; attrHeight := attrHeight c;
  contextAvailable := contextAvailable c; ctx := ctx c;
  canvasListeners := canvasListeners c
|}.

(** [canvas.width = x]: setting a dimension, even to the value it has,
    clears the bitmap and resets the context to its default state. *)
Definition setCanvasWidth (x : num) (c : Canvas) : Canvas := {|
  display := display c; opacityProperty := opacityProperty c;
  styleWidth := styleWidth c; styleHeight := styleHeight c;
  attrWidth := toCanvasSize 300 x; attrHeight := attrHeight c;
  contextAvailable := contextAvailable c; ctx := freshContext;
  canvasListeners := canvasListeners c
|}.

Definition setCanvasHeight (x : num) (c : Canvas) : Canvas := {|
  display := display c; opacityProperty := opacityProperty c;
  styleWidth := styleWidth c; styleHeight := styleHeight c;
  attrWidth := attrWidth c; attrHeight := toCanvasSize 150 x;
  contextAvailable := contextAvailable c; ctx := freshContext;
  canvasListeners := canvasListeners c
|}.

Definition setCtx (x : Ctx2D) (c : Canvas) : Canvas := {|
  display := display c; opacityProperty := opacityProperty c;
  styleWidth := styleWidth c; styleHeight := styleHeight c;
  attrWidth := attrWidth c; attrHeight := attrHeight c;
  contextAvailable := contextAvailable c; ctx := x;
  canvasListeners := canvasListeners c
|}.

(** [element.scrollTop = y]: a non-finite value counts as 0, and the
    position is clamped to the scrollable range. *)
Definition setScrollTop (y : num) (e : Scroller) : Scroller :=
  let y0 := match y with Fin q => q | _ => 0%Q end in
  let maxTop := Qmax 0 (scrollHeight e - clientHeight e) in
  {| scrollTop := Qmax 0 (Qmin y0 maxTop);
     scrollHeight := scrollHeight e; clientHeight := clientHeight e;
     scrollListeners := scrollListeners e |}.

Definition withScrollListeners (e : Scroller) (ls : list Listener) : Scroller := {|
  scrollTop := scrollTop e; scrollHeight := scrollHeight e;
  clientHeight := clientHeight e; scrollListeners := ls
|}.

(* ===================================================================== *)
(** * main.ts: host API used by the renderer *)
(* ===================================================================== *)

(** [array.includes(p)] and [array.indexOf(p)] on an array of strings. *)
Definition arrayIncludes (p : string) (l : list string) : bool :=
  existsb (String.eqb p) l.

Fixpoint indexOf (p : string) (l : list string) : option nat :=
  match l with
  | [] => None
  | x :: r => if String.eqb x p then Some O else option_map S (indexOf p r)
  end.

(** [array.splice(idx, 1)] *)
Fixpoint splice1 (idx : nat) (l : list string) : list string :=
  match l, idx with
  | [], _ => []
  | _ :: r, O => r
  | x :: r, S i => x :: splice1 i r
  end.

Definition isMinimapEnabledForFile (st : MinimapSettings) (filePath : string) : bool :=
  showMinimap st && negb (arrayIncludes filePath (disabledFiles st)).

Definition withDisabledFiles (st : MinimapSettings) (l : list string) : MinimapSettings := {|
  disabledFiles := l;
  width := width st; lineHeight := lineHeight st;
  minimapOpacity := minimapOpacity st; showMinimap := showMinimap st;
  showHeaders := showHeaders st; showLists := showLists st;
  showCodeBlocks := showCodeBlocks st; headerColor := headerColor st;
  textColor := textColor st; codeBlockColor := codeBlockColor st;
  indicatorColor := indicatorColor st; indicatorOpacity := indicatorOpacity st;
  header1Color := header1Color st; header2Color := header2Color st;
  header3Color := header3Color st; header4Color := header4Color st;
  header5Color := header5Color st; header6Color := header6Color st;
  imageColor := imageColor st; tableColor := tableColor st;
  minElementWidth := minElementWidth st; minElementHeight := minElementHeight st;
  embedColor := embedColor st; density := density st;
  minimapScaling := minimapScaling st; lineSpacing := lineSpacing st;
  textDensity := textDensity st
|}.

(** The callback of the command [toggle-minimap-for-current-file], on the
    settings: [activeFile] is [workspace.getActiveFile()?.path]. *)
Definition toggleDisabled (p : string) (l : list string) : list string :=
  match indexOf p l with
  | None => l ++ [p]
  | Some idx => splice1 idx l
  end.

Definition toggleMinimapForCurrentFile (activeFile : option string)
    (st : MinimapSettings) : MinimapSettings :=
  match activeFile with
  | None => st
  | Some p => withDisabledFiles st (toggleDisabled p (disabledFiles st))
  end.

(* ===================================================================== *)
(** * MinimapRenderer.ts: painting *)
(* ===================================================================== *)

(** The quantities [update] computes once per repaint. *)
Record Frame : Type := {
  displayWidth : num;
  displayHeight : num;
  scale : num;
  effectiveLineHeight : num
}.

(** [settings[`header${level}Color`] || settings.headerColor] *)
Definition headerColorOf (st : MinimapSettings) (level : nat) : string :=
  let own :=
    match level with
    | 1 => header1Color st
    | 2 => header2Color st
    | 3 => header3Color st
    | 4 => header4Color st
    | 5 => header5Color st
    | 6 => header6Color st
    | _ => EmptyString          (* undefined *)
    end%nat in
  if String.eqb own EmptyString then headerColor st else own.

Definition ofNat (n : nat) : num := Fin (inject_Z (Z.of_nat n)).

(** [getContentWidth(content, indent)] *)
Definition getContentWidth (st : MinimapSettings) (f : Frame)
    (content : string) (indent : Z) : num :=
  let textLength := String.length (trim content) in
  numMin (ofNat textLength * Fin (textDensity st))
         (displayWidth f - Fin 8 - Fin (inject_Z indent) * Fin (textDensity st)).

(** The body of the loop of [processLines] for one line. *)
Definition paintLine (b : Browser) (st : MinimapSettings) (f : Frame)
    (line : DocLine) (g : Ctx2D) : Ctx2D :=
  let y := numFloor (Fin (blockTop line) * scale f) in
  let height :=
    numMax (effectiveLineHeight f) (numFloor (Fin (blockHeight line) * scale f)) in
  if (y <? - height)%num || (y >? displayHeight f + height)%num then g
  else
    let content := lineText line in
    match classifyLine st content with
    | ImageEmbed =>
        let g := setFillStyle b (imageColor st) g in
        let imageHeight := (height * Fin 1.5)%num in
        fillRect (Fin 8) y (displayWidth f - Fin 16) imageHeight g
    | GenericEmbed =>
        let g := setFillStyle b (embedColor st) g in
        let embedHeight := (height * Fin 2)%num in
        let g := fillRect (Fin 4) y (displayWidth f - Fin 8) embedHeight g in
        let g := setStrokeStyle b "#000000" g in
        strokeRect (Fin 4) y (displayWidth f - Fin 8) embedHeight g
    | Header headerLevel =>
        let g := setFillStyle b (headerColorOf st headerLevel) g in
        let headerText := stripHeaderPrefix content in
        let headerWidth :=
          numMin (Fin (measureTextWidth b headerText) + Fin 16) (displayWidth f - Fin 8) in
        let headerHeight := numMax (height * Fin 1.2) (Fin 3) in
        fillRect (Fin 4) y headerWidth headerHeight g
    | CodeFence =>
        let g := setFillStyle b (codeBlockColor st) g in
        fillRect (Fin 4) y (displayWidth f - Fin 8) (numMax (Fin 1.5) height) g
    | TableRow cellCount =>
        let g := setFillStyle b (tableColor st) g in
        let tableWidth := numMin (ofNat cellCount * Fin 20) (displayWidth f - Fin 16) in
        fillRect (Fin 8) y tableWidth (numMax (Fin 1) height) g
    | PlainText =>
        let g := setFillStyle b (textColor st) g in
        let indent := searchNonSpace content in
        let width := getContentWidth st f content indent in
        let x := numFloor (Fin 4 + Fin (inject_Z indent) * Fin (textDensity st)) in
        fillRect x y width (numMax (Fin 1) (height * Fin 0.8)) g
    | Blank => g
    end.

Definition batchSize : nat := 50.

(** [processLines(start, end)]: [count] is the number of iterations left
    of [for (lineNo = start; lineNo <= end; lineNo++)]; the loop breaks at
    the first [lineNo > totalLines].  [doc.line(lineNo)] is defined for
    every [lineNo] the loop reaches. *)
Fixpoint processLinesFrom (b : Browser) (st : MinimapSettings) (f : Frame)
    (doc : list DocLine) (lineNo count : nat) (g : Ctx2D) : Ctx2D :=
  match count with
  | O => g
  | S k =>
      if (List.length doc <? lineNo)%nat then g
      else
        match nth_error doc (lineNo - 1) with
        | Some line => processLinesFrom b st f doc (S lineNo) k (paintLine b st f line g)
        | None => g
        end
  end.

Definition processLines (b : Browser) (st : MinimapSettings) (f : Frame)
    (doc : list DocLine) (start stop : nat) (g : Ctx2D) : Ctx2D :=
  processLinesFrom b st f doc start (stop + 1 - start) g.

(** [for (let i = 1; i <= totalLines; i += batchSize) processLines(i, i + batchSize - 1)];
    [fuel] bounds the number of batches. *)
Fixpoint batchLoop (b : Browser) (st : MinimapSettings) (f : Frame)
    (doc : list DocLine) (fuel i : nat) (g : Ctx2D) : Ctx2D :=
  match fuel with
  | O => g
  | S k =>
      if (i <=? List.length doc)%nat then
        batchLoop b st f doc k (i + batchSize)
          (processLines b st f doc i (i + batchSize - 1) g)
      else g
  end.

Definition paintAllLines (b : Browser) (st : MinimapSettings) (f : Frame)
    (doc : list DocLine) (g : Ctx2D) : Ctx2D :=
  batchLoop b st f doc (List.length doc) 1 g.

(** The viewport indicator. *)
Definition paintViewportIndicator (b : Browser) (st : MinimapSettings) (f : Frame)
    (editorElement : Scroller) (g : Ctx2D) : Ctx2D :=
  let indicatorHeight := (Fin (clientHeight editorElement) * scale f)%num in
  let indicatorY := (Fin (scrollTop editorElement) * scale f)%num in
  if Qlt_bool 0 (indicatorOpacity st) then
    let g := setFillStyle b (indicatorColor st) g in
    let g := setGlobalAlpha (indicatorOpacity st) g in
    let g := fillRect (Fin 0) indicatorY (displayWidth f) indicatorHeight g in
    let g := setGlobalAlpha 0.8 g in
    let g := setStrokeStyle b (indicatorColor st) g in
    let g := setLineWidth 2 g in
    let g := strokeRect (Fin 0) indicatorY (displayWidth f) indicatorHeight g in
    setGlobalAlpha 1 g
  else g.

(** [scale = displayHeight / editorHeight] and the line heights derived
    from it. *)
Definition frameOf (st : MinimapSettings) (dw dh : num) (editorElement : Scroller)
  : Frame :=
  let editorHeight := Fin (scrollHeight editorElement) in
  let scale := (dh / editorHeight)%num in
  let baseLineHeight :=
    numMax (Fin 1) (numFloor (Fin (lineHeight st * lineSpacing st))) in
  let effectiveLineHeight := numMax (Fin 1) (baseLineHeight * scale) in
  {| displayWidth := dw; displayHeight := dh; scale := scale;
     effectiveLineHeight := effectiveLineHeight |}.

Definition displayWidthOf (st : MinimapSettings) : num :=
  numFloor (Fin (width st * minimapScaling st)).

Definition displayHeightOf (b : Browser) (st : MinimapSettings) : num :=
  numFloor (Fin ((innerHeight b - 32) * minimapScaling st)).

(** [update], from the sizing step on: resize, background, lines,
    viewport indicator. *)
Definition repaint (b : Browser) (st : MinimapSettings)
    (cmEditor : option (list DocLine)) (editorElement : Scroller) (c : Canvas)
  : Canvas :=
  let dpr := if Qeq_bool (devicePixelRatio b) 0 then 1%Q else devicePixelRatio b in
  let dw := displayWidthOf st in
  let dh := displayHeightOf b st in
  let c := setCanvasWidth (dw * Fin dpr) c in
  let c := setCanvasHeight (dh * Fin dpr) c in
  let c := setStyleSize (Px dw) (Px dh) c in
  let g := ctxScale dpr dpr (ctx c) in
  let g := setFillStyle b (backgroundPrimary b) g in
  let g := fillRect (Fin 0) (Fin 0) dw dh g in
  match cmEditor with
  | None => setCtx g c
  | Some doc =>
      let f := frameOf st dw dh editorElement in
      let g := paintAllLines b st f doc g in
      let g := paintViewportIndicator b st f editorElement g in
      setCtx g c
  end.

(** [update()] *)
Definition update (w : World) : World :=
  match canvas w with
  | None => w
  | Some c =>
      let st := settings w in
      let c := setOpacityProperty (minimapOpacity st) c in
      match view w with
      | None => withCanvas w (Some c)
      | Some v =>
          match scroller v with
          | None => withCanvas w (Some c)
          | Some editorElement =>
              if negb (contextAvailable c) then withCanvas w (Some c)
              else if negb (showMinimap st) then
                withCanvas w (Some (setDisplay DisplayNone c))
              else
                withCanvas w
                  (Some (repaint (browser w) st (cm v) editorElement
                           (setDisplay DisplayBlock c)))
          end
      end
  end.

(** [syncVisibility()] *)
Definition syncVisibility (w : World) : World :=
  match canvas w with
  | None => w
  | Some c =>
      let file := match view w with Some v => file v | None => None end in
      match file with
      | Some path =>
          if isMinimapEnabledForFile (settings w) path then
            update (withCanvas w (Some (setDisplay DisplayBlock c)))
          else withCanvas w (Some (setDisplay DisplayNone c))
      | None => withCanvas w (Some (setDisplay DisplayNone c))
      end
  end.

(** [host.refreshMinimaps()], for the one renderer of the world. *)
Definition refreshMinimaps (w : World) : World := syncVisibility w.

(** [onEditorScroll] *)
Definition onEditorScroll (w : World) : World :=
  if negb (isDragging w) then update w else w.

(* ===================================================================== *)
(** * MinimapRenderer.ts: lifecycle and interaction *)
(* ===================================================================== *)

(** The canvas element [attach] creates.  Assigning [style.cssText]
    replaces the inline style, so the opacity property set just before it
    is gone until [update] sets it again. *)
Definition createCanvas (b : Browser) (st : MinimapSettings) (ls : list Listener)
  : Canvas := {|
  display := DisplayUnset;
  opacityProperty := None;
  styleWidth := Px (Fin (width st));
  styleHeight := ViewportHeightMinus50;
  attrWidth := 300;
  attrHeight := 150;
  contextAvailable := context2dSupported b;
  ctx := freshContext;
  canvasListeners := ls
|}.

(** [attach()] *)
Definition attach (w : World) : World :=
  match view w with
  | None => w
  | Some v =>
      match canvas w with
      | Some _ => w
      | None =>
          let n := arrows w in
          let v :=
            match scroller v with
            | Some editorElement =>
                withScroller v
                  (Some (withScrollListeners editorElement
                           (addEventListener "scroll" OnEditorScroll
                              (scrollListeners editorElement))))
            | None => v
            end in
          let ls := addEventListener "mousedown" (Arrow n StartDrag) [] in
          let ls := addEventListener "mousemove" (Arrow (n + 1) DragMove) ls in
          let docLs :=
            addEventListener "mouseup" (Arrow (n + 2) StopDrag) (documentListeners w) in
          let docLs := addEventListener "mouseleave" (Arrow (n + 3) StopDrag) docLs in
          let ls := addEventListener "contextmenu" (Arrow (n + 4) OpenContextMenu) ls in
          update {|
            settings := settings w; isDragging := isDragging w;
            view := Some v;
            canvas := Some (createCanvas (browser w) (settings w) ls);
            browser := browser w;
            documentListeners := docLs;
            arrows := n + 5
          |}
      end
  end.

(** [detach()] *)
Definition detach (w : World) : World :=
  let w := match canvas w with
           | Some _ => withCanvas w None
           | None => w
           end in
  let editorElement :=
    match view w with
    | Some v => scroller v
    | None => None
    end in
  match view w, editorElement with
  | Some v, Some e =>
      withView w
        (Some (withScroller v
                 (Some (withScrollListeners e
                          (removeEventListener "scroll" OnEditorScroll
                             (scrollListeners e))))))
  | _, _ => w
  end.

Record MouseEvent : Type := { clientX : Q; clientY : Q }.

(** What [canvas.getBoundingClientRect()] returns at the time of an event. *)
Record DOMRect : Type := { rectTop : Q; rectHeight : Q }.

(** The scroll offset [scrollToMinimapPosition] computes. *)
Definition newScrollTop (clickY canvasHeight totalHeight viewportHeight : num) : num :=
  let scrollRatio := (clickY / canvasHeight)%num in
  numMax (Fin 0)
    (numMin (scrollRatio * totalHeight - viewportHeight / Fin 2)
            (totalHeight - viewportHeight)).

(** [scrollToMinimapPosition(e)] *)
Definition scrollToMinimapPosition (e : MouseEvent) (rect : DOMRect) (w : World)
  : World :=
  match canvas w with
  | None => w
  | Some _ =>
      match view w with
      | None => w
      | Some v =>
          match scroller v with
          | None => w
          | Some editorElement =>
              let clickY := Fin (clientY e - rectTop rect) in
              let canvasHeight := Fin (rectHeight rect) in
              let totalHeight := Fin (scrollHeight editorElement) in
              let viewportHeight := Fin (clientHeight editorElement) in
              let top := newScrollTop clickY canvasHeight totalHeight viewportHeight in
              update (withView w
                        (Some (withScroller v (Some (setScrollTop top editorElement)))))
          end
      end
  end.

(** Numeric settings that a slider or the context menu writes. *)
Inductive NumberField : Type :=
  | FMinimapScaling
  | FTextDensity
  | FWidth
  | FLineHeight
  | FMinimapOpacity
  | FIndicatorOpacity
  | FDensity.

Definition NumberField_eqb (a b : NumberField) : bool :=
  match a, b with
  | FMinimapScaling, FMinimapScaling | FTextDensity, FTextDensity
  | FWidth, FWidth | FLineHeight, FLineHeight
  | FMinimapOpacity, FMinimapOpacity | FIndicatorOpacity, FIndicatorOpacity
  | FDensity, FDensity => true
  | _, _ => false
  end.

(** [settings.<field> = value] *)
Definition setNumber (k : NumberField) (value : Q) (st : MinimapSettings)
  : MinimapSettings :=
  let pick k' old := if NumberField_eqb k k' then value else old in {|
  disabledFiles := disabledFiles st;
  width := pick FWidth (width st);
  lineHeight := pick FLineHeight (lineHeight st);
  minimapOpacity := pick FMinimapOpacity (minimapOpacity st);
  showMinimap := showMinimap st;
  showHeaders := showHeaders st; showLists := showLists st;
  showCodeBlocks := showCodeBlocks st; headerColor := headerColor st;
  textColor := textColor st; codeBlockColor := codeBlockColor st;
  indicatorColor := indicatorColor st;
  indicatorOpacity := pick FIndicatorOpacity (indicatorOpacity st);
  header1Color := header1Color st; header2Color := header2Color st;
  header3Color := header3Color st; header4Color := header4Color st;
  header5Color := header5Color st; header6Color := header6Color st;
  imageColor := imageColor st; tableColor := tableColor st;
  minElementWidth := minElementWidth st; minElementHeight := minElementHeight st;
  embedColor := embedColor st;
  density := pick FDensity (density st);
  minimapScaling := pick FMinimapScaling (minimapScaling st);
  lineSpacing := lineSpacing st;
  textDensity := pick FTextDensity (textDensity st)
|}.

(** The value of option [i] of either group of the context menu:
    [(i + 1) * 0.1]. *)
Definition menuOptionValue (i : nat) : Q := ((inject_Z (Z.of_nat i) + 1) * 0.1)%Q.

(** [Array.from({ length: 10 }, ...)] *)
Definition scaleOptions : list Q := List.map menuOptionValue (seq 0 10).
Definition opacityOptions : list Q := List.map menuOptionValue (seq 0 10).

(** The click handlers of the menu items: write the setting, save, refresh. *)
Definition selectScale (value : Q) (w : World) : World :=
  refreshMinimaps (withSettings w (setNumber FMinimapScaling value (settings w))).

Definition selectOpacity (value : Q) (w : World) : World :=
  refreshMinimaps (withSettings w (setNumber FMinimapOpacity value (settings w))).

(* ===================================================================== *)
(** * main.ts: the settings tab *)
(* ===================================================================== *)

(** [slider.setLimits(min, max, step)] *)
Record Slider : Type := { sliderMin : Q; sliderMax : Q; sliderStep : Q }.

Definition sliderOf (k : NumberField) : Slider :=
  match k with
  | FMinimapScaling => {| sliderMin := 0.1; sliderMax := 1.0; sliderStep := 0.1 |}
  | FTextDensity => {| sliderMin := 0.5; sliderMax := 3.0; sliderStep := 0.1 |}
  | FWidth => {| sliderMin := 50; sliderMax := 300; sliderStep := 10 |}
  | FLineHeight => {| sliderMin := 1; sliderMax := 10; sliderStep := 0.5 |}
  | FMinimapOpacity => {| sliderMin := 0.1; sliderMax := 1; sliderStep := 0.1 |}
  | FIndicatorOpacity => {| sliderMin := 0.1; sliderMax := 1; sliderStep := 0.1 |}
  | FDensity => {| sliderMin := 0.5; sliderMax := 2.5; sliderStep := 0.1 |}
  end.

(** The [onChange] handler of a slider: the value is stored as given. *)
Definition sliderChange (k : NumberField) (value : Q) (w : World) : World :=
  refreshMinimaps (withSettings w (setNumber k value (settings w))).

(* ===================================================================== *)
(** * main.ts: persisted settings *)
(* ===================================================================== *)

(** What [loadData()] can resolve to: any JSON value. *)
#[warnings="-register-all"]
Inductive JValue : Type :=
  | JNull
  | JBool (b : bool)
  | JNum (q : Q)
  | JStr (s : string)
  | JArr (l : list JValue)
  | JObj (m : gmap string JValue).

(** The plugin's [settings] object at run time: a JavaScript object, which
    the dynamic assignment of [loadSettings] can give any key and any
    value. *)
Abbreviation SettingsObject := (gmap string JValue).

(** A [MinimapSettings] value as a JavaScript object. *)
Definition settingsObject (st : MinimapSettings) : SettingsObject :=
  list_to_map [
    ("disabledFiles", JArr (List.map JStr (disabledFiles st)));
    ("width", JNum (width st));
    ("lineHeight", JNum (lineHeight st));
    ("minimapOpacity", JNum (minimapOpacity st));
    ("showMinimap", JBool (showMinimap st));
    ("showHeaders", JBool (showHeaders st));
    ("showLists", JBool (showLists st));
    ("showCodeBlocks", JBool (showCodeBlocks st));
    ("headerColor", JStr (headerColor st));
    ("textColor", JStr (textColor st));
    ("codeBlockColor", JStr (codeBlockColor st));
    ("indicatorColor", JStr (indicatorColor st));
    ("indicatorOpacity", JNum (indicatorOpacity st));
    ("header1Color", JStr (header1Color st));
    ("header2Color", JStr (header2Color st));
    ("header3Color", JStr (header3Color st));
    ("header4Color", JStr (header4Color st));
    ("header5Color", JStr (header5Color st));
    ("header6Color", JStr (header6Color st));
    ("imageColor", JStr (imageColor st));
    ("tableColor", JStr (tableColor st));
    ("minElementWidth", JNum (minElementWidth st));
    ("minElementHeight", JNum (minElementHeight st));
    ("embedColor", JStr (embedColor st));
    ("density", JNum (density st));
    ("minimapScaling", JNum (minimapScaling st));
    ("lineSpacing", JNum (lineSpacing st));
    ("textDensity", JNum (textDensity st))
  ].

Definition getNumber (o : SettingsObject) (k : string) : option Q :=
  match o !! k with Some (JNum q) => Some q | _ => None end.

Definition getBoolean (o : SettingsObject) (k : string) : option bool :=
  match o !! k with Some (JBool b) => Some b | _ => None end.

Definition getString (o : SettingsObject) (k : string) : option string :=
  match o !! k with Some (JStr s) => Some s | _ => None end.

Definition asString (v : JValue) : option string :=
  match v with JStr s => Some s | _ => None end.

Definition getStrings (o : SettingsObject) (k : string) : option (list string) :=
  match o !! k with
  | Some (JArr l) => mapM asString l
  | _ => None
  end.

(** The typed reading of a settings object: defined when every field of
    the [MinimapSettings] interface is there with a value of its type. *)
Definition readSettings (o : SettingsObject) : option MinimapSettings :=
  disabledFiles ← getStrings o "disabledFiles";
  width ← getNumber o "width";
  lineHeight ← getNumber o "lineHeight";
  minimapOpacity ← getNumber o "minimapOpacity";
  showMinimap ← getBoolean o "showMinimap";
  showHeaders ← getBoolean o "showHeaders";
  showLists ← getBoolean o "showLists";
  showCodeBlocks ← getBoolean o "showCodeBlocks";
  headerColor ← getString o "headerColor";
  textColor ← getString o "textColor";
  codeBlockColor ← getString o "codeBlockColor";
  indicatorColor ← getString o "indicatorColor";
  indicatorOpacity ← getNumber o "indicatorOpacity";
  header1Color ← getString o "header1Color";
  header2Color ← getString o "header2Color";
  header3Color ← getString o "header3Color";
  header4Color ← getString o "header4Color";
  header5Color ← getString o "header5Color";
  header6Color ← getString o "header6Color";
  imageColor ← getString o "imageColor";
  tableColor ← getString o "tableColor";
  minElementWidth ← getNumber o "minElementWidth";
  minElementHeight ← getNumber o "minElementHeight";
  embedColor ← getString o "embedColor";
  density ← getNumber o "density";
  minimapScaling ← getNumber o "minimapScaling";
  lineSpacing ← getNumber o "lineSpacing";
  textDensity ← getNumber o "textDensity";
  Some {|
    disabledFiles := disabledFiles; width := width; lineHeight := lineHeight;
    minimapOpacity := minimapOpacity; showMinimap := showMinimap;
    showHeaders := showHeaders; showLists := showLists;
    showCodeBlocks := showCodeBlocks; headerColor := headerColor;
    textColor := textColor; codeBlockColor := codeBlockColor;
    indicatorColor := indicatorColor; indicatorOpacity := indicatorOpacity;
    header1Color := header1Color; header2Color := header2Color;
    header3Color := header3Color; header4Color := header4Color;
    header5Color := header5Color; header6Color := header6Color;
    imageColor := imageColor; tableColor := tableColor;
    minElementWidth := minElementWidth; minElementHeight := minElementHeight;
    embedColor := embedColor; density := density;
    minimapScaling := minimapScaling; lineSpacing := lineSpacing;
    textDensity := textDensity
  |}.

(** The outcome of [await this.loadData()]. *)
Inductive LoadData : Type :=
  | LoadThrows
  | LoadReturns (data : JValue).

(** Truthiness, for [if (data)]. *)
Definition truthy (v : JValue) : bool :=
  match v with
  | JNull => false
  | JBool b => b
  | JNum q => negb (Qeq_bool q 0)
  | JStr s => negb (String.eqb s EmptyString)
  | JArr _ | JObj _ => true
  end.

(** [Array.isArray(v)], [v] being [undefined] when the property is absent. *)
Definition isArray (v : option JValue) : bool :=
  match v with Some (JArr _) => true | _ => false end.

(** [data.disabledFiles]: only an object can have the property. *)
Definition disabledFilesOf (data : JValue) : option JValue :=
  match data with
  | JObj m => m !! "disabledFiles"
  | _ => None
  end.

Definition indexKey (i : nat) : string := NilEmpty.string_of_uint (Nat.to_uint i).

(** [Object.keys(data)] paired with [data[key]]: the entries of an object,
    the indices of an array or of a string, nothing for other values. *)
Definition ownEntries (data : JValue) : list (string * JValue) :=
  match data with
  | JObj m => map_to_list m
  | JArr l => imap (fun i x => (indexKey i, x)) l
  | JStr s =>
      imap (fun i c => (indexKey i, JStr (String c EmptyString))) (list_ascii_of_string s)
  | JNull | JBool _ | JNum _ => []
  end.

(** One iteration of [for (const key of Object.keys(data))]. *)
Definition assignKey (o : SettingsObject) (entry : string * JValue) : SettingsObject :=
  if String.eqb (fst entry) "disabledFiles" then o
  else <[fst entry := snd entry]> o.

(** [loadSettings()]: the value of [this.settings] afterwards.  It runs
    once, from [onload], so [DEFAULT_SETTINGS] is as declared when it is
    copied. *)
Definition loadSettings (r : LoadData) : SettingsObject :=
  match r with
  | LoadThrows => settingsObject DEFAULT_SETTINGS
  | LoadReturns data =>
      let settings := settingsObject DEFAULT_SETTINGS in
      if truthy data then
        let files :=
          if isArray (disabledFilesOf data)
          then default (JArr []) (disabledFilesOf data)
          else JArr [] in
        let settings := <["disabledFiles" := files]> settings in
        fold_left assignKey (ownEntries data) settings
      else settings
  end.

(** [saveSettings()]: what [saveData(this.settings)] writes. *)
Definition saveSettings (st : MinimapSettings) : JValue := JObj (settingsObject st).

(* ===================================================================== *)
(** * Vocabulary of the specification *)
(* ===================================================================== *)

(** [clamp(x, lo, hi)]: [x] limited to [hi] from above, then to [lo] from
    below.  For [lo <= hi] this is the usual three-way case split
    ([clamp_cases] below); the lower bound wins when [hi < lo], as in the
    CSS function of the same name. *)
Definition clamp (x lo hi : Q) : Q :=
  let y := if Qle_bool x hi then x else hi in
  if Qle_bool lo y then y else lo.

(** The invariant the specification states for the configuration. *)
Definition settingsInvariant (st : MinimapSettings) : Prop :=
  (0 <= minimapOpacity st <= 1)%Q /\
  (0 <= indicatorOpacity st <= 1)%Q /\
  (0 <= minimapScaling st <= 1)%Q /\
  (0 < width st)%Q /\
  (0 < lineHeight st)%Q.

(** The classes as the specification tabulates them, each with the tests
    that come before it in the source failing: first match wins. *)
Inductive classifiedAs (st : MinimapSettings) (content : string) : LineClass -> Prop :=
  | IsImageEmbed path :
      wikiMatch content = Some path -> isImagePath path = true ->
      classifiedAs st content ImageEmbed
  | IsGenericEmbed path :
      wikiMatch content = Some path -> isImagePath path = false ->
      classifiedAs st content GenericEmbed
  | IsHeader :
      wikiMatch content = None ->
      startsWith content "#" = true -> showHeaders st = true ->
      classifiedAs st content (Header (leadingHashes content))
  | IsCodeFence :
      wikiMatch content = None ->
      startsWith content "#" && showHeaders st = false ->
      startsWith (trim content) "```" = true -> showCodeBlocks st = true ->
      classifiedAs st content CodeFence
  | IsTableRow :
      wikiMatch content = None ->
      startsWith content "#" && showHeaders st = false ->
      startsWith (trim content) "```" && showCodeBlocks st = false ->
      includes content "|" = true ->
      classifiedAs st content (TableRow (List.length (tableCells content)))
  | IsPlainText :
      wikiMatch content = None ->
      startsWith content "#" && showHeaders st = false ->
      startsWith (trim content) "```" && showCodeBlocks st = false ->
      includes content "|" = false ->
      trim content <> EmptyString ->
      classifiedAs st content PlainText
  | IsBlank :
      wikiMatch content = None ->
      startsWith content "#" && showHeaders st = false ->
      startsWith (trim content) "```" && showCodeBlocks st = false ->
      includes content "|" = false ->
      trim content = EmptyString ->
      classifiedAs st content Blank.

(** The vertical position [paintLine] computes for a line. *)
Definition lineY (f : Frame) (line : DocLine) : num :=
  numFloor (Fin (blockTop line) * scale f).

(** The bound the invariant puts on a value written to a numeric field,
    and on a number persisted under a key. *)
Definition fieldBound (k : NumberField) (value : Q) : Prop :=
  match k with
  | FMinimapOpacity | FIndicatorOpacity | FMinimapScaling => (0 <= value <= 1)%Q
  | FWidth | FLineHeight => (0 < value)%Q
  | FTextDensity | FDensity => True
  end.

Definition boundedKeys : list (string * NumberField) :=
  [("minimapOpacity", FMinimapOpacity); ("indicatorOpacity", FIndicatorOpacity);
   ("minimapScaling", FMinimapScaling); ("width", FWidth);
   ("lineHeight", FLineHeight)].

(** The invariant read on the settings object, where a key can hold a
    value of any type: each of the five bounded keys holds a number, and
    the number is within the bound of the key. *)
Definition objectInvariant (o : SettingsObject) : Prop :=
  forall key k,
    In (key, k) boundedKeys ->
    exists q, o !! key = Some (JNum q) /\ fieldBound k q.

(** Every value the persisted data holds under one of the five bounded
    keys is a number within the bound of that key. *)
Definition persistedWithinBounds (r : LoadData) : Prop :=
  match r with
  | LoadThrows => True
  | LoadReturns data =>
      forall key k value,
        In (key, k) boundedKeys -> In (key, value) (ownEntries data) ->
        exists q, value = JNum q /\ fieldBound k q
  end.

(** The calls a painting step [paint] adds to the log of a context. *)
Definition issuedBy (paint : Ctx2D -> Ctx2D) (g : Ctx2D) : list DrawCall :=
  List.skipn (List.length (calls g)) (calls (paint g)).

(* ===================================================================== *)
(** * Concrete worlds *)
(* ===================================================================== *)

Definition exampleBrowser : Browser := {|
  innerHeight := 832;
  devicePixelRatio := 2;
  backgroundPrimary := "#ffffff";
  isColor := fun s => startsWith s "#";
  context2dSupported := true;
  measureTextWidth := fun s => (6 * inject_Z (Z.of_nat (String.length s)))%Q
|}.

Definition exampleDocument : list DocLine := [
  {| lineText := "# Title"; blockTop := 0; blockHeight := 30 |};
  {| lineText := EmptyString; blockTop := 30; blockHeight := 20 |};
  {| lineText := "plain text line"; blockTop := 50; blockHeight := 20 |};
  {| lineText := "```"; blockTop := 70; blockHeight := 20 |};
  {| lineText := "code"; blockTop := 90; blockHeight := 20 |};
  {| lineText := "```"; blockTop := 110; blockHeight := 20 |}
].

Definition exampleScroller : Scroller := {|
  scrollTop := 0; scrollHeight := 1600; clientHeight := 800;
  scrollListeners := []
|}.

(** A Markdown leaf on which no minimap was attached yet. *)
Definition worldOf (st : MinimapSettings) (v : option MarkdownView) : World := {|
  settings := st; isDragging := false; view := v; canvas := None;
  browser := exampleBrowser; documentListeners := []; arrows := 0
|}.

Definition exampleView : MarkdownView := {|
  file := Some "notes/a.md";
  scroller := Some exampleScroller;
  cm := Some exampleDocument
|}.

(** A Markdown view in which no [.cm-scroller] element is found. *)
Definition viewWithoutScroller : MarkdownView := {|
  file := Some "notes/a.md"; scroller := None; cm := None
|}.

(** A scroller that is laid out with no height, as under a hidden pane. *)
Definition collapsedScroller : Scroller := {|
  scrollTop := 0; scrollHeight := 0; clientHeight := 0;
  scrollListeners := []
|}.

Definition hiddenSettings : MinimapSettings :=
  {| disabledFiles := []; width := 150; lineHeight := 4; minimapOpacity := 0.5;
     showMinimap := false; showHeaders := true; showLists := true;
     showCodeBlocks := true; headerColor := "#00BADA"; textColor := "#808080";
     codeBlockColor := "#0000FF"; indicatorColor := "#4444FF";
     indicatorOpacity := 0.2;
     header1Color := "#FF0000"; header2Color := "#00FF00";
     header3Color := "#0000FF"; header4Color := "#FFFF00";
     header5Color := "#FF00FF"; header6Color := "#00FFFF";
     imageColor := "#A0A0A0"; tableColor := "#808080"; minElementWidth := 4;
     minElementHeight := 1; embedColor := "#6A9955"; density := 1;
     minimapScaling := 0.5; lineSpacing := 1.2; textDensity := 1.5 |}.

(** The minimap attached to the example view. *)
Definition attachedWorld : World := attach (worldOf DEFAULT_SETTINGS (Some exampleView)).

(** The same after "Show Minimap" was switched off in the settings tab,
    before the refresh. *)
Definition switchedOffWorld : World := withSettings attachedWorld hiddenSettings.

(** The minimap attached, with "Show Minimap" off, to a view in which no
    scroller is found. *)
Definition unscrollableWorld : World :=
  attach (worldOf hiddenSettings (Some viewWithoutScroller)).

(** The minimap attached to a view whose scroller has no height. *)
Definition collapsedWorld : World :=
  attach (worldOf DEFAULT_SETTINGS
            (Some {| file := Some "notes/a.md"; scroller := Some collapsedScroller;
                     cm := Some exampleDocument |})).

(* ===================================================================== *)
(** * MinimapRenderer.ts: the pointer handlers of attach *)
(* ===================================================================== *)

(** The [mousedown] listener of the canvas. *)
Definition canvasMouseDown (e : MouseEvent) (rect : DOMRect) (w : World) : World :=
  scrollToMinimapPosition e rect (withDragging w true).

(** The [mousemove] listener of the canvas. *)
Definition canvasMouseMove (e : MouseEvent) (rect : DOMRect) (w : World) : World :=
  if isDragging w then scrollToMinimapPosition e rect w else w.

(** The [mouseup] and [mouseleave] listeners of the document. *)
Definition documentMouseUp (w : World) : World := withDragging w false.

(** The horizontal and vertical extent of a rectangle call. *)
Definition rectX (d : DrawCall) : num :=
  match d with
  | FillRect x _ _ _ _ _ _ _ => x
  | StrokeRect x _ _ _ _ _ _ _ _ => x
  end.

Definition rectW (d : DrawCall) : num :=
  match d with
  | FillRect _ _ w _ _ _ _ _ => w
  | StrokeRect _ _ w _ _ _ _ _ _ => w
  end.

Definition rectH (d : DrawCall) : num :=
  match d with
  | FillRect _ _ _ h _ _ _ _ => h
  | StrokeRect _ _ _ h _ _ _ _ _ => h
  end.

(** The number of registrations of [onEditorScroll] on the scroller of
    the view. *)
Definition scrollRegistrations (w : World) : nat :=
  match view w with
  | Some v =>
      match scroller v with
      | Some e =>
          List.length
            (List.filter
               (Listener_eqb {| eventType := "scroll"; callback := OnEditorScroll |})
               (scrollListeners e))
      | None => O
      end
  | None => O
  end.

(** The path of the file of the view, if any: [view.file?.path]. *)
Definition boundFile (w : World) : option string :=
  match view w with
  | Some v => file v
  | None => None
  end.

(** The calls a host or the browser can make on a renderer, and the
    world after a sequence of them. *)
Inductive RendererCall : Type :=
  | CallAttach
  | CallDetach
  | CallUpdate
  | CallSyncVisibility
  | EventEditorScroll
  | EventMouseDown (e : MouseEvent) (rect : DOMRect)
  | EventMouseMove (e : MouseEvent) (rect : DOMRect)
  | EventMouseUp
  | MenuSelectScale (value : Q)
  | MenuSelectOpacity (value : Q).

Definition runCall (call : RendererCall) (w : World) : World :=
  match call with
  | CallAttach => attach w
  | CallDetach => detach w
  | CallUpdate => update w
  | CallSyncVisibility => syncVisibility w
  | EventEditorScroll => onEditorScroll w
  | EventMouseDown e rect => canvasMouseDown e rect w
  | EventMouseMove e rect => canvasMouseMove e rect w
  | EventMouseUp => documentMouseUp w
  | MenuSelectScale value => selectScale value w
  | MenuSelectOpacity value => selectOpacity value w
  end.

Definition runCalls (calls : list RendererCall) (w : World) : World :=
  fold_left (fun w call => runCall call w) calls w.

(** The listeners of the canvas, if there is one. *)
Definition surfaceListeners (w : World) : option (list Listener) :=
  option_map canvasListeners (canvas w).

(** The three listeners [attach] puts on a canvas. *)
Definition canvasEventTypes : list string := ["mousedown"; "mousemove"; "contextmenu"].

(** The listeners a renderer owns are well formed: [onEditorScroll] is on
    the scroller at most once, and a canvas has its three listeners. *)
Definition listenersWellFormed (w : World) : Prop :=
  (scrollRegistrations w <= 1)%nat /\
  (forall ls, surfaceListeners w = Some ls ->
              List.map eventType ls = canvasEventTypes).

Definition isMouseUp (call : RendererCall) : bool :=
  match call with EventMouseUp => true | _ => false end.

(** The [height] constant of the loop body of [processLines]. *)
Definition scaledLineHeight (f : Frame) (line : DocLine) : num :=
  numMax (effectiveLineHeight f) (numFloor (Fin (blockHeight line) * scale f)).

(** A rectangle that keeps the inset of 4 on both sides of a surface of
    width [dw]: it extends from [x] to the right, by a width that is not
    negative, and lies between 4 and [dw - 4]. *)
Definition withinInsets (dw : Q) (d : DrawCall) : Prop :=
  exists x w : Q,
    rectX d = Fin x /\ rectW d = Fin w /\
    (4 <= x)%Q /\ (0 <= w)%Q /\ (x + w <= dw - 4)%Q.

(** The indentation of a line of plain text leaves room for its mark:
    [indent * textDensity <= displayWidth - 8]. *)
Definition indentFits (st : MinimapSettings) (dw : Q) (content : string) : Prop :=
  classifyLine st content = PlainText ->
  (inject_Z (searchNonSpace content) * textDensity st <= dw - 8)%Q.

(** The keys of the [MinimapSettings] interface. *)
Definition fieldNames : list string :=
  ["disabledFiles"; "width"; "lineHeight"; "minimapOpacity"; "showMinimap";
   "showHeaders"; "showLists"; "showCodeBlocks"; "headerColor"; "textColor";
   "codeBlockColor"; "indicatorColor"; "indicatorOpacity"; "header1Color";
   "header2Color"; "header3Color"; "header4Color"; "header5Color";
   "header6Color"; "imageColor"; "tableColor"; "minElementWidth";
   "minElementHeight"; "embedColor"; "density"; "minimapScaling";
   "lineSpacing"; "textDensity"].

Definition isObject (data : JValue) : bool :=
  match data with JObj _ => true | _ => false end.

(* ===================================================================== *)
(** * main.ts: the image references of a document *)
(* ===================================================================== *)

(** [[^\]]*]] at the start of [s]: everything up to the first closing
    bracket, and the bracket.  The result is what follows, with the number
    of units consumed.  The class cannot step over a bracket, so there is
    one way to match. *)
Fixpoint skipAltText (s : string) : option (string * nat) :=
  match s with
  | EmptyString => None
  | String c r =>
      if Ascii.eqb c "]" then Some (r, 1%nat)
      else option_map (fun '(rest, n) => (rest, S n)) (skipAltText r)
  end.

(** The lazy group [(.*?)] followed by [\)]. *)
Fixpoint lazyUntilParen (s : string) : option string :=
  match s with
  | EmptyString => None
  | String c r =>
      if Ascii.eqb c ")" then Some EmptyString
      else if isLineTerminator c then None
      else option_map (String c) (lazyUntilParen r)
  end.

(** One attempt of [/!\[[^\]]*]\((.*?)\)/] at the start of [s]: capture
    group 1 and the length of the match. *)
Definition mdImageAt (s : string) : option (string * nat) :=
  if startsWith s "![" then
    match skipAltText (sliceFrom 2 s) with
    | Some (String "(" rest, n) =>
        option_map (fun src => (src, 2 + n + 1 + String.length src + 1)%nat)
                   (lazyUntilParen rest)
    | _ => None
    end
  else None.

(** One attempt of [/!\[\[(.*?)\]\]/] at the start of [s]. *)
Definition wikiImageAt (s : string) : option (string * nat) :=
  if startsWith s "![[" then
    option_map (fun p => (p, 3 + String.length p + 2)%nat)
               (lazyUntilClose (sliceFrom 3 s))
  else None.

(** [while ((m = re.exec(content)) !== null)] for a global expression:
    the captures of the successive matches, each search starting where the
    match before it ended.  [skip] is the number of units still covered by
    the last match. *)
Fixpoint execAll (matchAt : string -> option (string * nat)) (skip : nat)
    (s : string) : list string :=
  match s with
  | EmptyString => []
  | String _ r =>
      match skip with
      | S k => execAll matchAt k r
      | O =>
          match matchAt s with
          | Some (capture, len) => capture :: execAll matchAt (len - 1) r
          | None => execAll matchAt 0 r
          end
      end
  end.

(** [if (src && this.isImagePath(src))] *)
Definition keepImage (src : string) : bool :=
  negb (String.eqb src EmptyString) && isImagePath src.

(** [parseContentForImages(content)] *)
Definition parseContentForImages (content : string) : list string :=
  List.filter keepImage (List.map trim (execAll mdImageAt 0 content)) ++
  List.filter keepImage (List.map trim (execAll wikiImageAt 0 content)).

Definition noLineTerminator (s : string) : Prop :=
  Forall (fun c => isLineTerminator c = false) (list_ascii_of_string s).

Definition noWhiteSpace (s : string) : bool :=
  forallb (fun c => negb (isWhiteSpace c)) (list_ascii_of_string s).

(** [r] occurs in [s]. *)
Definition occursIn (r s : string) : Prop :=
  exists pre post, s = (pre ++ r ++ post)%string.

(* ===================================================================== *)
(** * main.ts: the plugin and its renderers *)
(* ===================================================================== *)

Module MinimapPlugin.

(** The plugin object with the part of the workspace it reads.  A leaf is
    a number.  The state of a renderer is its [canvas] field; its [host]
    is the plugin and its [leaf] is the key it is stored under. *)
Record Plugin : Type := {
  hostSettings : MinimapSettings;          (* this.settings *)
  hostDragging : bool;                     (* this.isDragging *)
  hostBrowser : Browser;
  hostDocumentListeners : list Listener;   (* listeners on [document] *)
  hostArrows : nat;                        (* arrow functions created so far *)
  leafViews : gmap nat MarkdownView;       (* [leaf.view], where it is a MarkdownView *)
  minimaps : list (nat * option Canvas);   (* this.minimaps, in insertion order *)
  domEvents : list nat;                    (* registerDomEvent(scroller, "scroll", ...), by leaf *)
  savedData : option JValue                (* what saveData wrote last *)
}.

Definition withMinimaps (p : Plugin) (m : list (nat * option Canvas)) : Plugin := {|
  hostSettings := hostSettings p; hostDragging := hostDragging p;
  hostBrowser := hostBrowser p;
  hostDocumentListeners := hostDocumentListeners p; hostArrows := hostArrows p;
  leafViews := leafViews p; minimaps := m; domEvents := domEvents p;
  savedData := savedData p
|}.

Definition withHostSettings (p : Plugin) (st : MinimapSettings) : Plugin := {|
  hostSettings := st; hostDragging := hostDragging p;
  hostBrowser := hostBrowser p;
  hostDocumentListeners := hostDocumentListeners p; hostArrows := hostArrows p;
  leafViews := leafViews p; minimaps := minimaps p; domEvents := domEvents p;
  savedData := savedData p
|}.

Definition withSavedData (p : Plugin) (d : option JValue) : Plugin := {|
  hostSettings := hostSettings p; hostDragging := hostDragging p;
  hostBrowser := hostBrowser p;
  hostDocumentListeners := hostDocumentListeners p; hostArrows := hostArrows p;
  leafViews := leafViews p; minimaps := minimaps p; domEvents := domEvents p;
  savedData := d
|}.

Definition withDomEvents (p : Plugin) (l : list nat) : Plugin := {|
  hostSettings := hostSettings p; hostDragging := hostDragging p;
  hostBrowser := hostBrowser p;
  hostDocumentListeners := hostDocumentListeners p; hostArrows := hostArrows p;
  leafViews := leafViews p; minimaps := minimaps p; domEvents := l;
  savedData := savedData p
|}.

Definition withLeafViews (p : Plugin) (views : gmap nat MarkdownView) : Plugin := {|
  hostSettings := hostSettings p; hostDragging := hostDragging p;
  hostBrowser := hostBrowser p;
  hostDocumentListeners := hostDocumentListeners p; hostArrows := hostArrows p;
  leafViews := views; minimaps := minimaps p; domEvents := domEvents p;
  savedData := savedData p
|}.

Definition withHostDragging (p : Plugin) (d : bool) : Plugin := {|
  hostSettings := hostSettings p; hostDragging := d;
  hostBrowser := hostBrowser p;
  hostDocumentListeners := hostDocumentListeners p; hostArrows := hostArrows p;
  leafViews := leafViews p; minimaps := minimaps p; domEvents := domEvents p;
  savedData := savedData p
|}.

Definition withShowMinimap (st : MinimapSettings) (value : bool) : MinimapSettings := {|
  disabledFiles := disabledFiles st;
  width := width st; lineHeight := lineHeight st;
  minimapOpacity := minimapOpacity st; showMinimap := value;
  showHeaders := showHeaders st; showLists := showLists st;
  showCodeBlocks := showCodeBlocks st; headerColor := headerColor st;
  textColor := textColor st; codeBlockColor := codeBlockColor st;
  indicatorColor := indicatorColor st; indicatorOpacity := indicatorOpacity st;
  header1Color := header1Color st; header2Color := header2Color st;
  header3Color := header3Color st; header4Color := header4Color st;
  header5Color := header5Color st; header6Color := header6Color st;
  imageColor := imageColor st; tableColor := tableColor st;
  minElementWidth := minElementWidth st; minElementHeight := minElementHeight st;
  embedColor := embedColor st; density := density st;
  minimapScaling := minimapScaling st; lineSpacing := lineSpacing st;
  textDensity := textDensity st
|}.

(** What the renderer of [leaf] with canvas [c] reads and writes. *)
Definition rendererWorld (p : Plugin) (leaf : nat) (c : option Canvas) : World := {|
  settings := hostSettings p; isDragging := hostDragging p;
  view := leafViews p !! leaf; canvas := c; browser := hostBrowser p;
  documentListeners := hostDocumentListeners p; arrows := hostArrows p
|}.

(** A method of the renderer of [leaf]: the plugin after the call, and the
    renderer's canvas. *)
Definition runRenderer (method : World -> World) (leaf : nat) (c : option Canvas)
    (p : Plugin) : Plugin * option Canvas :=
  let w := method (rendererWorld p leaf c) in
  ({| hostSettings := settings w; hostDragging := isDragging w;
      hostBrowser := browser w;
      hostDocumentListeners := documentListeners w; hostArrows := arrows w;
      leafViews := match view w with
                   | Some v => <[leaf := v]> (leafViews p)
                   | None => leafViews p
                   end;
      minimaps := minimaps p; domEvents := domEvents p;
      savedData := savedData p |},
   canvas w).

(** [Map.prototype.has], [get], [set] and [delete] on [minimaps]. *)
Definition mapHas (leaf : nat) (m : list (nat * option Canvas)) : bool :=
  existsb (fun e => (fst e =? leaf)%nat) m.

Fixpoint mapGet (leaf : nat) (m : list (nat * option Canvas)) : option (option Canvas) :=
  match m with
  | [] => None
  | (k, r) :: rest => if (k =? leaf)%nat then Some r else mapGet leaf rest
  end.

Fixpoint mapSet (leaf : nat) (r : option Canvas) (m : list (nat * option Canvas))
  : list (nat * option Canvas) :=
  match m with
  | [] => [(leaf, r)]
  | (k, r0) :: rest =>
      if (k =? leaf)%nat then (k, r) :: rest else (k, r0) :: mapSet leaf r rest
  end.

Definition mapDelete (leaf : nat) (m : list (nat * option Canvas))
  : list (nat * option Canvas) :=
  List.filter (fun e => negb (fst e =? leaf)%nat) m.

(** A method called on the renderer stored under [leaf]: the renderer is
    an object, so what the method writes to it is seen through the map. *)
Definition onMinimap (method : World -> World) (leaf : nat) (p : Plugin) : Plugin :=
  match mapGet leaf (minimaps p) with
  | None => p
  | Some c =>
      let '(p, c) := runRenderer method leaf c p in
      withMinimaps p (mapSet leaf c (minimaps p))
  end.

(** [this.minimaps.forEach((r) => r.method())] *)
Definition forEachMinimap (method : World -> World) (p : Plugin) : Plugin :=
  fold_left (fun p leaf => onMinimap method leaf p) (List.map fst (minimaps p)) p.

(** [isMinimapEnabledForFile(filePath)] *)
Definition isMinimapEnabledForFile (p : Plugin) (filePath : string) : bool :=
  isMinimapEnabledForFile (hostSettings p) filePath.

(** [refreshMinimaps()] *)
Definition refreshMinimaps (p : Plugin) : Plugin := forEachMinimap syncVisibility p.

(** [updateMinimap(leaf)] *)
Definition updateMinimap (leaf : nat) (p : Plugin) : Plugin := onMinimap update leaf p.

(** [createMinimap(leaf)] *)
Definition createMinimap (leaf : option nat) (p : Plugin) : Plugin :=
  match leaf with
  | None => p
  | Some l =>
      match leafViews p !! l with
      | None => p
      | Some _ =>
          if mapHas l (minimaps p) then p
          else
            let '(p, renderer) := runRenderer attach l None p in
            let scroller :=
              match leafViews p !! l with
              | Some v => scroller v
              | None => None
              end in
            let p := match scroller with
                     | Some _ => withDomEvents p (domEvents p ++ [l])
                     | None => p
                     end in
            let p := withMinimaps p (mapSet l renderer (minimaps p)) in
            onMinimap syncVisibility l p
      end
  end.

(** [handleLayoutChange()]; [leaves] is what
    [workspace.getLeavesOfType("markdown")] returns. *)
Definition handleLayoutChange (leaves : list nat) (p : Plugin) : Plugin :=
  let p :=
    fold_left
      (fun p leaf =>
         if existsb (Nat.eqb leaf) leaves then p
         else
           let p := onMinimap detach leaf p in
           withMinimaps p (mapDelete leaf (minimaps p)))
      (List.map fst (minimaps p)) p in
  fold_left
    (fun p leaf =>
       if mapHas leaf (minimaps p) then p else createMinimap (Some leaf) p)
    leaves p.

(** [onunload()] *)
Definition onunload (p : Plugin) : Plugin :=
  withMinimaps (forEachMinimap detach p) [].

(** [saveSettings()] *)
Definition saveSettings (p : Plugin) : Plugin :=
  withSavedData p (Some (saveSettings (hostSettings p))).

(** The callback of the command [toggle-minimap-for-current-file]. *)
Definition toggleCommand (activeFile : option string) (p : Plugin) : Plugin :=
  match activeFile with
  | None => p
  | Some _ =>
      let p := withHostSettings p
                 (toggleMinimapForCurrentFile activeFile (hostSettings p)) in
      refreshMinimaps (saveSettings p)
  end.

(** A listener of [document] runs: [attach] puts only the arrows that
    clear the dragging flag there. *)
Definition runDocumentListener (p : Plugin) (l : Listener) : Plugin :=
  match callback l with
  | Arrow _ StopDrag => withHostDragging p false
  | _ => p
  end.

(** What happens to a loaded plugin: the events [onload] subscribes to,
    the command, the scroll listeners of [createMinimap], the listeners of
    the renderers, the controls that write a setting, unloading, and the
    workspace giving a leaf another view. *)
Inductive PluginEvent : Type :=
  | DocumentScroll (activeLeaf : option nat)
  | LayoutChange (leaves : list nat)
  | ActiveLeafChange (leaf : option nat)
  | EditorChange (activeLeaf : option nat)
  | ScrollerScroll (leaf : nat)
  | ToggleCommand (activeFile : option string)
  | NumberWritten (k : NumberField) (value : Q)   (* slider or menu item, up to its await *)
  | ShowMinimapWritten (value : bool)             (* the toggle, up to its await *)
  | Refreshed                                     (* refreshMinimaps() after an await *)
  | EditorScroll (leaf : nat)                     (* onEditorScroll of a renderer *)
  | CanvasMouseDown (leaf : nat) (e : MouseEvent) (rect : DOMRect)
  | CanvasMouseMove (leaf : nat) (e : MouseEvent) (rect : DOMRect)
  | DocumentEvent (type : string)                 (* mouseup, mouseleave, ... *)
  | Unload
  | ViewChange (leaf : nat) (view : option MarkdownView).

(** [leaf && leaf.view instanceof MarkdownView] *)
Definition markdownLeaf (leaf : option nat) (p : Plugin) : option nat :=
  match leaf with
  | Some l => if decide (is_Some (leafViews p !! l)) then Some l else None
  | None => None
  end.

Definition handleEvent (ev : PluginEvent) (p : Plugin) : Plugin :=
  match ev with
  | DocumentScroll activeLeaf =>
      match markdownLeaf activeLeaf p with
      | Some l => if negb (hostDragging p) then updateMinimap l p else p
      | None => p
      end
  | LayoutChange leaves => handleLayoutChange leaves p
  | ActiveLeafChange leaf =>
      match markdownLeaf leaf p with
      | Some l => updateMinimap l (createMinimap (Some l) p)
      | None => p
      end
  | EditorChange activeLeaf =>
      match markdownLeaf activeLeaf p with
      | Some l => updateMinimap l p
      | None => p
      end
  | ScrollerScroll leaf =>
      if existsb (Nat.eqb leaf) (domEvents p) && negb (hostDragging p)
      then updateMinimap leaf p else p
  | ToggleCommand activeFile => toggleCommand activeFile p
  | NumberWritten k value =>
      saveSettings (withHostSettings p (setNumber k value (hostSettings p)))
  | ShowMinimapWritten value =>
      saveSettings (withHostSettings p (withShowMinimap (hostSettings p) value))
  | Refreshed => refreshMinimaps p
  | EditorScroll leaf => onMinimap onEditorScroll leaf p
  | CanvasMouseDown leaf e rect => onMinimap (canvasMouseDown e rect) leaf p
  | CanvasMouseMove leaf e rect => onMinimap (canvasMouseMove e rect) leaf p
  | DocumentEvent type =>
      fold_left runDocumentListener
        (List.filter (fun l => String.eqb (eventType l) type)
                     (hostDocumentListeners p)) p
  | Unload => onunload p
  | ViewChange leaf view =>
      withLeafViews p
        match view with
        | Some v => <[leaf := v]> (leafViews p)
        | None => delete leaf (leafViews p)
        end
  end.

Definition handleEvents (evs : list PluginEvent) (p : Plugin) : Plugin :=
  fold_left (fun p ev => handleEvent ev p) evs p.

(** The plugin when [onload] has read the settings and before it creates
    the first minimap. *)
Definition loaded (st : MinimapSettings) (b : Browser)
    (views : gmap nat MarkdownView) : Plugin := {|
  hostSettings := st; hostDragging := false; hostBrowser := b;
  hostDocumentListeners := []; hostArrows := 0;
  leafViews := views; minimaps := []; domEvents := []; savedData := None
|}.

(** The display of the canvas of each registered renderer, by leaf. *)
Definition displays (p : Plugin) : list (nat * option Display) :=
  List.map (fun e => (fst e, option_map display (snd e))) (minimaps p).

(** Whether the minimap of a leaf is to be shown: its view has a file for
    which the minimap is enabled. *)
Definition leafEnabled (p : Plugin) (leaf : nat) : bool :=
  match leafViews p !! leaf with
  | Some v =>
      match file v with
      | Some path => isMinimapEnabledForFile p path
      | None => false
      end
  | None => false
  end.

(** A method of a renderer that keeps the view a view. *)
Definition keepsView (method : World -> World) : Prop :=
  forall w, is_Some (view (method w)) <-> is_Some (view w).

(** A method of a renderer that does not unbind the canvas. *)
Definition keepsCanvas (method : World -> World) : Prop :=
  forall w, is_Some (canvas w) -> is_Some (canvas (method w)).

(** The map holds one renderer per leaf, and each has its canvas. *)
Definition registryOk (m : list (nat * option Canvas)) : Prop :=
  List.NoDup (List.map fst m) /\ List.Forall (fun e => is_Some (snd e)) m.

End MinimapPlugin.

(* ===================================================================== *)
(** * Properties: the host API (main.ts) *)
(* ===================================================================== *)

Lemma arrayIncludes_In (p : string) (l : list string) :
  arrayIncludes p l = true <-> In p l.
Proof.
  unfold arrayIncludes. rewrite existsb_exists. split.
  - intros (x & Hx & Heq). apply String.eqb_eq in Heq. now subst.
  - intros H. exists p. split; [assumption | apply String.eqb_refl].
Qed.

(** C9.  [isMinimapEnabledForFile(filePath)] is true exactly when
    [showMinimap] is true and [filePath] is not in [disabledFiles]; when
    [showMinimap] is false it is false for every path, also for one that
    was never disabled. *)
Theorem isMinimapEnabledForFile_iff (st : MinimapSettings) (filePath : string) :
  (isMinimapEnabledForFile st filePath = true <->
     showMinimap st = true /\ ~ In filePath (disabledFiles st)) /\
  (showMinimap st = false -> isMinimapEnabledForFile st filePath = false).
Proof.
  unfold isMinimapEnabledForFile. split.
  - rewrite andb_true_iff, negb_true_iff.
    rewrite <- (arrayIncludes_In filePath).
    destruct (arrayIncludes filePath (disabledFiles st)); intuition congruence.
  - intros ->. reflexivity.
Qed.

Lemma isMinimapEnabledForFile_iff_witness :
  isMinimapEnabledForFile hiddenSettings "notes/never-disabled.md" = false.
Proof.
  apply (proj2 (isMinimapEnabledForFile_iff _ "notes/never-disabled.md")).
  reflexivity.
Defined.

(** ** The toggle command *)

Lemma indexOf_None (p : string) (l : list string) :
  indexOf p l = None <-> ~ In p l.
Proof.
  induction l as [|x r IH]; simpl.
  - intuition.
  - destruct (String.eqb_spec x p) as [->|Hne]; [split; [discriminate | tauto]|].
    destruct (indexOf p r); simpl.
    + split; [discriminate|]. intros H. destruct IH as [_ IH].
      assert (Hr : ~ In p r) by tauto. apply IH in Hr. discriminate.
    + split; [|reflexivity]. intros _. destruct IH as [IH _].
      specialize (IH eq_refl). intros [?|?]; [congruence | tauto].
Qed.

(** [indexOf] finds the first occurrence, and [splice] takes it out. *)
Lemma indexOf_Some_split (p : string) (l : list string) (idx : nat) :
  indexOf p l = Some idx ->
  exists l1 l2, l = l1 ++ p :: l2 /\ ~ In p l1 /\
                List.length l1 = idx /\ splice1 idx l = l1 ++ l2.
Proof.
  revert idx. induction l as [|x r IH]; simpl; intros idx H; [discriminate|].
  destruct (String.eqb_spec x p) as [->|Hne].
  - injection H as <-. exists [], r. simpl. intuition.
  - destruct (indexOf p r) as [i|]; simpl in H; [|discriminate].
    injection H as <-.
    destruct (IH i eq_refl) as (l1 & l2 & -> & Hnot & Hlen & Hsp).
    exists (x :: l1), l2. simpl. rewrite Hsp, Hlen.
    repeat split; try reflexivity. intros [?|?]; [congruence | contradiction].
Qed.

Lemma toggleDisabled_absent (p : string) (l : list string) :
  ~ In p l -> toggleDisabled p l = l ++ [p].
Proof.
  intros H. unfold toggleDisabled. apply indexOf_None in H. now rewrite H.
Qed.

Lemma toggleDisabled_present (p : string) (l : list string) :
  In p l ->
  exists l1 l2, l = l1 ++ p :: l2 /\ ~ In p l1 /\ toggleDisabled p l = l1 ++ l2.
Proof.
  intros H. unfold toggleDisabled.
  destruct (indexOf p l) as [idx|] eqn:E.
  - destruct (indexOf_Some_split _ _ _ E) as (l1 & l2 & ? & ? & ? & ?). eauto.
  - apply indexOf_None in E. contradiction.
Qed.

Lemma NoDup_app_cons_inv (p : string) (l1 l2 : list string) :
  List.NoDup (l1 ++ p :: l2) -> List.NoDup (l1 ++ l2) /\ ~ In p (l1 ++ l2).
Proof.
  intros H. split.
  - eapply List.NoDup_remove_1; eauto.
  - eapply List.NoDup_remove_2; eauto.
Qed.

Lemma toggleDisabled_flip (p : string) (l : list string) :
  List.NoDup l -> (In p (toggleDisabled p l) <-> ~ In p l).
Proof.
  intros Hnd. destruct (in_dec string_dec p l) as [Hin|Hout].
  - destruct (toggleDisabled_present _ _ Hin) as (l1 & l2 & -> & _ & ->).
    apply NoDup_app_cons_inv in Hnd. intuition.
  - rewrite (toggleDisabled_absent _ _ Hout). rewrite in_app_iff. simpl. intuition.
Qed.

Lemma toggleDisabled_others (p q : string) (l : list string) :
  q <> p -> (In q (toggleDisabled p l) <-> In q l).
Proof.
  intros Hne. destruct (in_dec string_dec p l) as [Hin|Hout].
  - destruct (toggleDisabled_present _ _ Hin) as (l1 & l2 & -> & _ & ->).
    rewrite !in_app_iff. simpl. intuition congruence.
  - rewrite (toggleDisabled_absent _ _ Hout). rewrite in_app_iff. simpl.
    intuition congruence.
Qed.

Lemma toggleDisabled_NoDup (p : string) (l : list string) :
  List.NoDup l -> List.NoDup (toggleDisabled p l).
Proof.
  intros Hnd. destruct (in_dec string_dec p l) as [Hin|Hout].
  - destruct (toggleDisabled_present _ _ Hin) as (l1 & l2 & -> & _ & ->).
    now apply NoDup_app_cons_inv in Hnd.
  - rewrite (toggleDisabled_absent _ _ Hout).
    apply List.NoDup_app; [assumption | repeat constructor; simpl; tauto |].
    intros x Hx [<-|[]]. contradiction.
Qed.

(** The entries other than [p] keep their order. *)
Lemma toggleDisabled_others_order (p : string) (l : list string) :
  List.filter (fun q => negb (String.eqb q p)) (toggleDisabled p l) =
  List.filter (fun q => negb (String.eqb q p)) l.
Proof.
  destruct (in_dec string_dec p l) as [Hin|Hout].
  - destruct (toggleDisabled_present _ _ Hin) as (l1 & l2 & -> & _ & ->).
    rewrite !List.filter_app. simpl. now rewrite String.eqb_refl.
  - rewrite (toggleDisabled_absent _ _ Hout), List.filter_app. simpl.
    rewrite String.eqb_refl. simpl. apply app_nil_r.
Qed.

(** C10.  On a disabled list without duplicates, one run of the toggle
    command for the active file [p] flips the membership of [p]: it
    appends [p] when absent and takes its occurrence out when present.
    The other entries are the same, in the same order.  A second run
    restores the membership of every path. *)
Theorem toggle_involution_on_disabled_set (st : MinimapSettings) (p : string) :
  List.NoDup (disabledFiles st) ->
  let once := toggleMinimapForCurrentFile (Some p) st in
  let twice := toggleMinimapForCurrentFile (Some p) once in
  (In p (disabledFiles once) <-> ~ In p (disabledFiles st)) /\
  (~ In p (disabledFiles st) -> disabledFiles once = disabledFiles st ++ [p]) /\
  (In p (disabledFiles st) ->
     exists l1 l2, disabledFiles st = l1 ++ p :: l2 /\
                   disabledFiles once = l1 ++ l2) /\
  (forall q, q <> p -> (In q (disabledFiles once) <-> In q (disabledFiles st))) /\
  List.filter (fun q => negb (String.eqb q p)) (disabledFiles once) =
    List.filter (fun q => negb (String.eqb q p)) (disabledFiles st) /\
  List.NoDup (disabledFiles once) /\
  (forall q, In q (disabledFiles twice) <-> In q (disabledFiles st)).
Proof.
  intros Hnd once twice. subst once twice. simpl.
  pose proof (toggleDisabled_NoDup p _ Hnd) as Hnd1.
  repeat split.
  - apply (proj1 (toggleDisabled_flip p _ Hnd)).
  - apply (proj2 (toggleDisabled_flip p _ Hnd)).
  - apply toggleDisabled_absent.
  - intros Hin. destruct (toggleDisabled_present _ _ Hin) as (l1 & l2 & ? & _ & ?).
    eauto.
  - now apply toggleDisabled_others.
  - now apply toggleDisabled_others.
  - apply toggleDisabled_others_order.
  - exact Hnd1.
  - intros H. destruct (string_dec q p) as [->|Hne].
    + apply (toggleDisabled_flip p _ Hnd1) in H.
      destruct (in_dec string_dec p (disabledFiles st)) as [?|Hout]; [assumption|].
      exfalso. apply H. now apply (toggleDisabled_flip p _ Hnd).
    + now apply toggleDisabled_others, toggleDisabled_others in H.
  - intros H. destruct (string_dec q p) as [->|Hne].
    + apply (toggleDisabled_flip p _ Hnd1). intros H1.
      now apply (toggleDisabled_flip p _ Hnd) in H1.
    + now apply toggleDisabled_others, toggleDisabled_others.
Qed.

Lemma toggle_involution_on_disabled_set_witness :
  let st := withDisabledFiles DEFAULT_SETTINGS ["notes/a.md"; "notes/b.md"] in
  let once := toggleMinimapForCurrentFile (Some "notes/a.md") st in
  let twice := toggleMinimapForCurrentFile (Some "notes/a.md") once in
  disabledFiles once = ["notes/b.md"] /\
  disabledFiles twice = ["notes/b.md"; "notes/a.md"] /\
  (forall q, In q (disabledFiles twice) <-> In q (disabledFiles st)).
Proof.
  intros st once twice. split; [reflexivity | split; [reflexivity|]].
  apply (toggle_involution_on_disabled_set st "notes/a.md").
  simpl. repeat constructor; simpl; intuition discriminate.
Defined.

(* ===================================================================== *)
(** * Properties: click to scroll *)
(* ===================================================================== *)

Lemma Qle_bool_false (x y : Q) : Qle_bool x y = false <-> (y < x)%Q.
Proof.
  rewrite <- not_true_iff_false, Qle_bool_iff. split.
  - apply Qnot_le_lt.
  - apply Qlt_not_le.
Qed.

(** For [lo <= hi], [clamp] is the three-way case split. *)
Lemma clamp_cases (x lo hi : Q) :
  (lo <= hi)%Q ->
  ((x < lo)%Q -> clamp x lo hi = lo) /\
  ((hi < x)%Q -> clamp x lo hi = hi) /\
  ((lo <= x <= hi)%Q -> clamp x lo hi = x).
Proof.
  intros Hlh. unfold clamp. repeat split.
  - intros Hx.
    assert (E1 : Qle_bool x hi = true).
    { apply Qle_bool_iff. apply Qlt_le_weak. eapply Qlt_le_trans; eauto. }
    rewrite E1. apply Qle_bool_false in Hx. now rewrite Hx.
  - intros Hx. apply Qle_bool_false in Hx. rewrite Hx.
    apply Qle_bool_iff in Hlh. now rewrite Hlh.
  - intros [H1 H2]. apply Qle_bool_iff in H1, H2. now rewrite H2, H1.
Qed.

Lemma clamp_bounds (x lo hi : Q) :
  (lo <= hi)%Q -> (lo <= clamp x lo hi <= hi)%Q.
Proof.
  intros Hlh. unfold clamp.
  destruct (Qle_bool x hi) eqn:E1; simpl.
  - destruct (Qle_bool lo x) eqn:E2.
    + apply Qle_bool_iff in E1, E2. now split.
    + split; [apply Qle_refl | assumption].
  - apply Qle_bool_iff in Hlh. rewrite Hlh. apply Qle_bool_iff in Hlh.
    split; [assumption | apply Qle_refl].
Qed.

(** On finite operands with a non-zero surface height, the arithmetic of
    [newScrollTop] stays finite and is the arithmetic of the rationals. *)
Lemma newScrollTop_finite (clickY canvasHeight totalHeight viewportHeight : Q) :
  ~ (canvasHeight == 0)%Q ->
  let x := (clickY / canvasHeight * totalHeight - viewportHeight / 2)%Q in
  let hi := (totalHeight - viewportHeight)%Q in
  newScrollTop (Fin clickY) (Fin canvasHeight) (Fin totalHeight) (Fin viewportHeight)
  = Fin (let y := if Qle_bool x hi then x else hi in
         if Qlt_bool 0 y then y else 0%Q).
Proof.
  intros Hne x hi. unfold newScrollTop. simpl.
  assert (E : Qeq_bool canvasHeight 0 = false).
  { apply not_true_iff_false. now rewrite Qeq_bool_iff. }
  rewrite E. simpl.
  change (totalHeight + - viewportHeight)%Q with hi.
  change (clickY / canvasHeight * totalHeight + - (viewportHeight / 2))%Q with x.
  unfold Qlt_bool.
  destruct (Qle_bool x hi); simpl; destruct (Qle_bool _ 0); reflexivity.
Qed.

(** For a click at [clickY] in [0, surfaceHeight], [surfaceHeight > 0],
    the offset is [clamp(clickY / surfaceHeight * totalContentHeight -
    viewportHeight / 2, 0, totalContentHeight - viewportHeight)]. *)
Lemma newScrollTop_clamped
    (clickY surfaceHeight totalContentHeight viewportHeight : Q) :
  (0 < surfaceHeight)%Q ->
  (0 <= clickY <= surfaceHeight)%Q ->
  exists s : Q,
    newScrollTop (Fin clickY) (Fin surfaceHeight)
                 (Fin totalContentHeight) (Fin viewportHeight) = Fin s /\
    (s == clamp (clickY / surfaceHeight * totalContentHeight - viewportHeight / 2)
                0 (totalContentHeight - viewportHeight))%Q /\
    ((0 <= totalContentHeight - viewportHeight)%Q ->
     (0 <= s <= totalContentHeight - viewportHeight)%Q).
Proof.
  intros Hpos _.
  assert (Hne : ~ (surfaceHeight == 0)%Q).
  { intros E. rewrite E in Hpos. now apply Qlt_irrefl in Hpos. }
  rewrite (newScrollTop_finite _ _ _ _ Hne).
  set (x := (clickY / surfaceHeight * totalContentHeight - viewportHeight / 2)%Q).
  set (hi := (totalContentHeight - viewportHeight)%Q).
  set (y := if Qle_bool x hi then x else hi).
  assert (Heq : ((if Qlt_bool 0 y then y else 0) == clamp x 0 hi)%Q).
  { unfold clamp. fold y. unfold Qlt_bool.
    destruct (Qle_bool y 0) eqn:E1; destruct (Qle_bool 0 y) eqn:E2; simpl;
      try reflexivity.
    - apply Qle_bool_iff in E1, E2. now apply Qle_antisym.
    - apply Qle_bool_false in E1, E2. exfalso.
      apply (Qlt_irrefl 0). now apply Qlt_trans with y. }
  eexists. split; [reflexivity|]. split; [exact Heq|].
  intros Hhi. rewrite Heq. now apply clamp_bounds.
Qed.

(* ===================================================================== *)
(** * Properties: line classification *)
(* ===================================================================== *)

Lemma length_pos_nonempty (s : string) :
  (0 <? String.length s)%nat = true <-> s <> EmptyString.
Proof.
  destruct s; simpl; split; intros H; try congruence; try reflexivity.
  discriminate.
Qed.

Lemma classifyLine_classifiedAs (st : MinimapSettings) (content : string) :
  classifiedAs st content (classifyLine st content).
Proof.
  unfold classifyLine.
  destruct (wikiMatch content) as [path|] eqn:Ew.
  - destruct (isImagePath path) eqn:Ei; econstructor; eauto.
  - destruct (startsWith content "#" && showHeaders st) eqn:Eh.
    + apply andb_true_iff in Eh as [? ?]. now constructor.
    + destruct (startsWith (trim content) "```" && showCodeBlocks st) eqn:Ef.
      * apply andb_true_iff in Ef as [? ?]. now constructor.
      * destruct (includes content "|") eqn:Et; [now constructor|].
        destruct (0 <? String.length (trim content))%nat eqn:El.
        -- constructor; auto. now apply length_pos_nonempty.
        -- constructor; auto.
           destruct (trim content); [reflexivity | discriminate].
Qed.

Lemma classifiedAs_classifyLine (st : MinimapSettings) (content : string) (c : LineClass) :
  classifiedAs st content c -> classifyLine st content = c.
Proof.
  unfold classifyLine.
  destruct 1 as [path Hw Hi | path Hw Hi | Hw Hs Hh | Hw Hh Hf Hc
                | Hw Hh Hf Ht | Hw Hh Hf Ht Hn | Hw Hh Hf Ht Hn];
    rewrite Hw; try (now rewrite Hi).
  - now rewrite Hs, Hh.
  - now rewrite Hh, Hf, Hc.
  - now rewrite Hh, Hf, Ht.
  - rewrite Hh, Hf, Ht. apply length_pos_nonempty in Hn. now rewrite Hn.
  - rewrite Hh, Hf, Ht, Hn. reflexivity.
Qed.

(** A line that starts with [#] does not have a fence as its trimmed text. *)
Lemma hash_line_is_no_fence (content : string) :
  startsWith content "#" = true -> startsWith (trim content) "```" = false.
Proof.
  destruct content as [|c r]; [discriminate|].
  cbn [startsWith]. destruct (Ascii.eqb_spec "#" c) as [<-|Hne]; [|discriminate].
  intros _. unfold trim. cbn [trimStart]. change (isWhiteSpace "#") with false.
  cbn [trimEnd]. change (isWhiteSpace "#") with false.
  destruct (trimEnd r); reflexivity.
Qed.

(** C2, as the code has it.  Every line gets exactly one class, the first
    in the order image-embed, generic-embed, header, code-fence, table-row,
    plain-text, blank whose test holds; the tests read the text of the
    line and the two flags [showHeaders] and [showCodeBlocks].  In
    particular "![[photo.png]]" is an image-embed, "## Title" is a header of
    level 2 when headers are shown, a line without a "![[...]]" embed whose
    trimmed text starts with three backquotes is a code-fence when code
    blocks are shown, "a | b | c" is a table-row of 3 cells, and the empty
    line is blank. *)
Theorem classifyLine_first_match_wins (st : MinimapSettings) (content : string) :
  (forall c, classifiedAs st content c <-> classifyLine st content = c) /\
  classifyLine st "![[photo.png]]" = ImageEmbed /\
  (showHeaders st = true -> classifyLine st "## Title" = Header 2) /\
  (wikiMatch content = None -> showCodeBlocks st = true ->
   startsWith (trim content) "```" = true ->
   classifyLine st content = CodeFence) /\
  classifyLine st "a | b | c" = TableRow 3 /\
  classifyLine st EmptyString = Blank.
Proof.
  split; [|split; [|split; [|split; [|split]]]].
  - intros c. split.
    + apply classifiedAs_classifyLine.
    + intros <-. apply classifyLine_classifiedAs.
  - reflexivity.
  - intros Hh. unfold classifyLine. simpl. now rewrite Hh.
  - intros Hw Hc Hf. unfold classifyLine. rewrite Hw, Hf, Hc.
    destruct (startsWith content "#") eqn:Hs; [|reflexivity].
    apply hash_line_is_no_fence in Hs. congruence.
  - unfold classifyLine. simpl. destruct (showCodeBlocks st); reflexivity.
  - unfold classifyLine. simpl. destruct (showCodeBlocks st); reflexivity.
Qed.

Lemma classifyLine_first_match_wins_witness :
  classifyLine DEFAULT_SETTINGS "## Title" = Header 2 /\
  classifyLine DEFAULT_SETTINGS "```rust" = CodeFence.
Proof.
  pose proof (classifyLine_first_match_wins DEFAULT_SETTINGS "```rust")
    as (_ & _ & Hheader & Hfence & _).
  split.
  - apply Hheader. reflexivity.
  - apply Hfence; reflexivity.
Defined.

(** The embed test comes first: a line whose trimmed text starts with
    three backquotes is not a code-fence when it also holds an embed. *)
Lemma fence_prefix_is_not_always_code_fence :
  ~ (forall content : string,
       startsWith (trim content) "```" = true ->
       classifyLine DEFAULT_SETTINGS content = CodeFence).
Proof.
  intros H. specialize (H "```![[photo.png]]" eq_refl). discriminate H.
Qed.

(* ===================================================================== *)
(** * Properties: update and visibility *)
(* ===================================================================== *)

(** [update] writes the canvas only. *)
Lemma update_frame (w : World) :
  settings (update w) = settings w /\ view (update w) = view w /\
  browser (update w) = browser w /\ isDragging (update w) = isDragging w /\
  documentListeners (update w) = documentListeners w /\
  arrows (update w) = arrows w.
Proof.
  unfold update. repeat case_match; cbn; repeat split; auto.
Qed.

(** [update] never unbinds the surface. *)
Lemma update_keeps_canvas (w : World) (c : Canvas) :
  canvas w = Some c ->
  exists c', canvas (update w) = Some c' /\
             canvasListeners c' = canvasListeners c /\
             contextAvailable c' = contextAvailable c.
Proof.
  intros Hc. unfold update. rewrite Hc.
  destruct (view w) as [v|]; [|simpl; eauto].
  destruct (scroller v) as [e|]; [|simpl; eauto].
  cbn [contextAvailable setOpacityProperty].
  destruct (contextAvailable c) eqn:Ec; [|simpl; eauto].
  destruct (showMinimap (settings w)); simpl; [|eauto].
  eexists. split; [reflexivity|].
  unfold repaint. destruct (cm v); simpl; auto.
Qed.

(** What [repaint] leaves of the canvas it is given: the style properties
    set before it, the listeners, the availability of the context.  The
    dimensions and the whole context are written anew. *)
Lemma repaint_depends (b : Browser) (st : MinimapSettings)
    (m : option (list DocLine)) (e : Scroller) (c c' : Canvas) :
  display c = display c' ->
  opacityProperty c = opacityProperty c' ->
  contextAvailable c = contextAvailable c' ->
  canvasListeners c = canvasListeners c' ->
  repaint b st m e c = repaint b st m e c'.
Proof.
  intros Hd Ho Ha Hl. unfold repaint.
  unfold setCtx, setStyleSize, setCanvasHeight, setCanvasWidth. cbn.
  rewrite Hd, Ho, Ha, Hl. reflexivity.
Qed.

(** C6.  [update] is idempotent: with settings, document, layout, scroll
    position, window and device pixel ratio fixed, a second call in
    succession leaves the canvas, and so the painted bitmap, as the first
    call left it. *)
Theorem update_idempotent (w : World) : update (update w) = update w.
Proof.
  destruct w as [st drag v c b docLs n]. unfold update. cbn.
  destruct c as [c|]; [|reflexivity].
  destruct v as [v|]; [|reflexivity].
  destruct (scroller v) as [e|] eqn:Ev; cbn; rewrite ?Ev; [|reflexivity].
  destruct (contextAvailable c) eqn:Ec; cbn; rewrite ?Ev; cbn; rewrite ?Ec; cbn;
    [|reflexivity].
  destruct (showMinimap st) eqn:Es; cbn; rewrite ?Ev, ?Ec; cbn; rewrite ?Es; cbn;
    [|reflexivity].
  assert (Ha : contextAvailable
                 (repaint b st (cm v) e
                    (setDisplay DisplayBlock (setOpacityProperty (minimapOpacity st) c)))
               = true).
  { unfold repaint. destruct (cm v); cbn; exact Ec. }
  unfold withCanvas. cbn. 
  set (c1 := setDisplay DisplayBlock (setOpacityProperty (minimapOpacity st) c)).
  change (contextAvailable (repaint b st (cm v) e c1) = true) in Ha.
  match goal with
  | |- context [negb (contextAvailable ?x)] =>
      replace (contextAvailable x) with true
        by (symmetry; exact Ha)
  end.
  cbn. do 2 f_equal.
  apply repaint_depends; try reflexivity.
  all: unfold c1, repaint; destruct (cm v); reflexivity.
Qed.

Lemma arrayIncludes_true (p : string) (l : list string) :
  In p l -> arrayIncludes p l = true.
Proof. apply arrayIncludes_In. Qed.

(** With "Show Minimap" off, [update] touches neither the context nor the
    bitmap, whichever guard it leaves through. *)
Lemma update_off_no_paint (w : World) :
  showMinimap (settings w) = false ->
  option_map ctx (canvas (update w)) = option_map ctx (canvas w).
Proof.
  intros Hs. unfold update. rewrite Hs.
  destruct (canvas w) as [c|] eqn:Hc; [|now rewrite Hc].
  destruct (view w) as [v|]; [|reflexivity].
  destruct (scroller v); [|reflexivity].
  destruct (negb _); reflexivity.
Qed.

(** C5, as the code has it.  With [showMinimap] false, [update] performs
    no paint operation and leaves the surface bound; it hides the surface
    when it gets past its guards, that is when the leaf shows a Markdown
    view with a scroller and the 2D context is available.  When the path of
    the bound document is in [disabledFiles], [syncVisibility] hides the
    surface, whatever [showMinimap] is, and paints nothing. *)
Theorem visibility_gating (w : World) :
  (showMinimap (settings w) = false ->
     option_map ctx (canvas (update w)) = option_map ctx (canvas w) /\
     (is_Some (canvas w) -> is_Some (canvas (update w))) /\
     (forall c v e,
        canvas w = Some c -> view w = Some v -> scroller v = Some e ->
        contextAvailable c = true ->
        option_map display (canvas (update w)) = Some DisplayNone)) /\
  (forall v path,
     is_Some (canvas w) -> view w = Some v -> file v = Some path ->
     In path (disabledFiles (settings w)) ->
     option_map display (canvas (syncVisibility w)) = Some DisplayNone /\
     option_map ctx (canvas (syncVisibility w)) = option_map ctx (canvas w)).
Proof.
  split.
  - intros Hs. split; [now apply update_off_no_paint|]. split.
    + intros [c Hc]. destruct (update_keeps_canvas _ _ Hc) as (c' & Hc' & _).
      rewrite Hc'. eauto.
    + intros c v e Hc Hv He Ha. unfold update.
      rewrite Hc, Hv, He, Hs. cbn. rewrite Ha. reflexivity.
  - intros v path [c Hc] Hv Hf Hin. unfold syncVisibility.
    rewrite Hc, Hv, Hf. unfold isMinimapEnabledForFile.
    rewrite (arrayIncludes_true _ _ Hin), andb_false_r. cbn. split; reflexivity.
Qed.

Lemma visibility_gating_witness :
  option_map display (canvas (update switchedOffWorld)) = Some DisplayNone /\
  option_map ctx (canvas (update switchedOffWorld)) =
    option_map ctx (canvas switchedOffWorld) /\
  option_map display
    (canvas (syncVisibility
               (withSettings attachedWorld
                  (withDisabledFiles DEFAULT_SETTINGS ["notes/a.md"]))))
  = Some DisplayNone.
Proof.
  pose proof (visibility_gating switchedOffWorld) as [Hoff _].
  specialize (Hoff eq_refl). destruct Hoff as (Hpaint & _ & Hhide).
  split; [|split].
  - eapply Hhide; reflexivity.
  - exact Hpaint.
  - pose proof (visibility_gating
                  (withSettings attachedWorld
                     (withDisabledFiles DEFAULT_SETTINGS ["notes/a.md"])))
      as [_ Hsync].
    eapply Hsync.
    + eexists. reflexivity.
    + reflexivity.
    + reflexivity.
    + simpl. left. reflexivity.
Defined.

(** [update] returns at its guards before it reads [showMinimap]: where
    no scroller is found the surface stays as [attach] put it, visible. *)
Lemma update_does_not_always_hide :
  ~ (forall w : World,
       is_Some (canvas w) -> showMinimap (settings w) = false ->
       option_map display (canvas (update w)) = Some DisplayNone).
Proof.
  intros H. specialize (H unscrollableWorld).
  assert (Hc : is_Some (canvas unscrollableWorld)) by (eexists; reflexivity).
  specialize (H Hc eq_refl). vm_compute in H. discriminate H.
Qed.

(** [scrollToMinimapPosition] assigns that offset to [scrollTop] of the
    scroller, and touches nothing else of the view. *)
Lemma scrollToMinimapPosition_assigns (e : MouseEvent) (rect : DOMRect)
    (w : World) (c : Canvas) (v : MarkdownView) (editorElement : Scroller) :
  canvas w = Some c -> view w = Some v -> scroller v = Some editorElement ->
  view (scrollToMinimapPosition e rect w) =
  Some (withScroller v
          (Some (setScrollTop
                   (newScrollTop (Fin (clientY e - rectTop rect))
                                 (Fin (rectHeight rect))
                                 (Fin (scrollHeight editorElement))
                                 (Fin (clientHeight editorElement)))
                   editorElement))).
Proof.
  intros Hc Hv He. unfold scrollToMinimapPosition. rewrite Hc, Hv, He.
  now rewrite (proj1 (proj2 (update_frame _))).
Qed.

(** An offset within the scrollable range is the [scrollTop] the element
    has after the assignment. *)
Lemma setScrollTop_in_range (s : Q) (e : Scroller) :
  (0 <= s <= scrollHeight e - clientHeight e)%Q ->
  (scrollTop (setScrollTop (Fin s) e) == s)%Q.
Proof.
  intros [H0 H1]. cbn [setScrollTop scrollTop].
  set (range := (scrollHeight e - clientHeight e)%Q) in *.
  assert (Hr : (s <= Qmax 0 range)%Q).
  { apply Qle_trans with range; [exact H1 | apply Q.le_max_r]. }
  assert (Hm : (Qmin s (Qmax 0 range) == s)%Q) by now apply Q.min_l.
  assert (Hx : (Qmax 0 (Qmin s (Qmax 0 range)) == Qmin s (Qmax 0 range))%Q).
  { apply Q.max_r. now rewrite Hm. }
  now rewrite Hx.
Qed.



(* ===================================================================== *)
(** * Properties: attach and detach *)
(* ===================================================================== *)

Lemma filter_idempotent {A : Type} (f : A -> bool) (l : list A) :
  List.filter f (List.filter f l) = List.filter f l.
Proof.
  induction l as [|x r IH]; simpl; [reflexivity|].
  destruct (f x) eqn:E; simpl; [rewrite E; f_equal|]; exact IH.
Qed.

Lemma Callback_eqb_eq (a b : Callback) : Callback_eqb a b = true <-> a = b.
Proof.
  destruct a as [|i x], b as [|j y]; simpl; try (split; congruence).
  rewrite andb_true_iff, Nat.eqb_eq. split.
  - intros [-> H]. destruct x, y; simpl in H; congruence.
  - intros [= -> ->]. split; [reflexivity | destruct y; reflexivity].
Qed.

Lemma Listener_eqb_eq (a b : Listener) : Listener_eqb a b = true <-> a = b.
Proof.
  destruct a as [t cb], b as [t' cb']. unfold Listener_eqb. simpl.
  rewrite andb_true_iff, String.eqb_eq, Callback_eqb_eq.
  split; [intros [-> ->]; reflexivity | intros [= -> ->]; tauto].
Qed.

(** After [addEventListener] the listener is registered, and what was
    registered before still is. *)
Lemma addEventListener_In (type : string) (cb : Callback) (ls : list Listener) :
  In {| eventType := type; callback := cb |} (addEventListener type cb ls) /\
  (forall l, In l ls -> In l (addEventListener type cb ls)).
Proof.
  unfold addEventListener.
  destruct (existsb _ ls) eqn:E.
  - split; [|auto]. apply existsb_exists in E as (l & Hl & Heq).
    apply Listener_eqb_eq in Heq. now subst.
  - split; [|intros l Hl]; apply in_or_app; [right; now left | now left].
Qed.

(** After [removeEventListener] the listener is gone. *)
Lemma removeEventListener_not_In (type : string) (cb : Callback) (ls : list Listener) :
  ~ In {| eventType := type; callback := cb |} (removeEventListener type cb ls).
Proof.
  unfold removeEventListener. rewrite filter_In. intros [_ H].
  apply negb_true_iff, not_true_iff_false in H. apply H.
  now apply Listener_eqb_eq.
Qed.

(** [detach] in one step: the canvas is dropped, the scroll listener is
    taken off the scroller if there is one. *)
Lemma detach_unfold (w : World) :
  detach w =
  {| settings := settings w; isDragging := isDragging w;
     view :=
       match view w with
       | Some v =>
           Some match scroller v with
                | Some e =>
                    withScroller v
                      (Some (withScrollListeners e
                               (removeEventListener "scroll" OnEditorScroll
                                  (scrollListeners e))))
                | None => v
                end
       | None => None
       end;
     canvas := None; browser := browser w;
     documentListeners := documentListeners w; arrows := arrows w |}.
Proof.
  destruct w as [st drag v c b docLs n]. unfold detach.
  destruct c, v as [v|]; cbn -[removeEventListener]; try reflexivity;
    destruct (scroller v); reflexivity.
Qed.

(** [detach] is idempotent. *)
Lemma detach_idempotent (w : World) : detach (detach w) = detach w.
Proof.
  rewrite (detach_unfold (detach w)), (detach_unfold w).
  cbn -[removeEventListener]. f_equal.
  destruct (view w) as [v|]; [|reflexivity]. f_equal.
  destruct (scroller v) as [e|] eqn:Es; [|now rewrite Es].
  cbn -[removeEventListener]. unfold withScroller, withScrollListeners.
  cbn -[removeEventListener]. unfold removeEventListener.
  now rewrite filter_idempotent.
Qed.

(** [detach] removes the surface and the scroll listener of the scroller
    it finds. *)
Lemma detach_removes_surface_and_scroll_listener (w : World) :
  canvas (detach w) = None /\
  forall v e, view (detach w) = Some v -> scroller v = Some e ->
    ~ In {| eventType := "scroll"; callback := OnEditorScroll |} (scrollListeners e).
Proof.
  destruct w as [st drag v c b docLs n]. unfold detach. split.
  - destruct c, v as [v|]; cbn; try reflexivity; destruct (scroller v); reflexivity.
  - intros v' e'.
    destruct c, v as [v|]; cbn; try discriminate;
      destruct (scroller v) as [e|] eqn:Es; cbn; intros [= <-]; cbn;
      try congruence; intros [= <-]; apply removeEventListener_not_In.
Qed.

(** [detach] does not touch the listeners of [document]. *)
Lemma detach_documentListeners (w : World) :
  documentListeners (detach w) = documentListeners w.
Proof.
  destruct w as [st drag v c b docLs n]. unfold detach.
  destruct c, v as [v|]; cbn; try reflexivity; destruct (scroller v); reflexivity.
Qed.

(** [attach] on a Markdown leaf without a minimap registers the two
    drag-end listeners on [document]. *)
Lemma attach_registers_document_listeners (w : World) (v : MarkdownView) :
  view w = Some v -> canvas w = None ->
  In {| eventType := "mouseup"; callback := Arrow (arrows w + 2) StopDrag |}
     (documentListeners (attach w)) /\
  In {| eventType := "mouseleave"; callback := Arrow (arrows w + 3) StopDrag |}
     (documentListeners (attach w)).
Proof.
  intros Hv Hc. unfold attach. rewrite Hv, Hc.
  match goal with
  | |- context [update ?x] =>
      rewrite (proj1 (proj2 (proj2 (proj2 (proj2 (update_frame x))))))
  end.
  cbn [documentListeners]. split.
  - apply (proj2 (addEventListener_In _ _ _)).
    apply (proj1 (addEventListener_In _ _ _)).
  - apply (proj1 (addEventListener_In _ _ _)).
Qed.

(** Whatever the world, the drag-end listeners of an [attach] outlive the
    [detach] that follows it. *)
Lemma detach_after_attach_keeps_drag_listeners (w : World) (v : MarkdownView) :
  view w = Some v -> canvas w = None ->
  In {| eventType := "mouseup"; callback := Arrow (arrows w + 2) StopDrag |}
     (documentListeners (detach (attach w))) /\
  In {| eventType := "mouseleave"; callback := Arrow (arrows w + 3) StopDrag |}
     (documentListeners (detach (attach w))).
Proof.
  intros Hv Hc. rewrite detach_documentListeners.
  now apply (attach_registers_document_listeners w v).
Qed.

(** C8, on the code.  After [attach] and [detach] on the example view the
    surface and the editor scroll listener are gone, but the [mouseup] and
    [mouseleave] listeners that [attach] put on [document] are still
    registered; a second [attach] adds two more. *)
Theorem detach_leaves_document_listeners :
  canvas (detach attachedWorld) = None /\
  option_map scrollListeners
    (match view (detach attachedWorld) with Some v => scroller v | None => None end)
  = Some [] /\
  documentListeners (detach attachedWorld) =
    [ {| eventType := "mouseup"; callback := Arrow 2 StopDrag |};
      {| eventType := "mouseleave"; callback := Arrow 3 StopDrag |} ] /\
  documentListeners (detach (attach (detach attachedWorld))) =
    [ {| eventType := "mouseup"; callback := Arrow 2 StopDrag |};
      {| eventType := "mouseleave"; callback := Arrow 3 StopDrag |};
      {| eventType := "mouseup"; callback := Arrow 7 StopDrag |};
      {| eventType := "mouseleave"; callback := Arrow 8 StopDrag |} ].
Proof.
  repeat split; reflexivity.
Qed.

(* ===================================================================== *)
(** * Properties: the line loop and a document without height *)
(* ===================================================================== *)

Lemma nth_error_skipn {A : Type} (l : list A) (n : nat) (x : A) :
  nth_error l n = Some x -> List.skipn n l = x :: List.skipn (S n) l.
Proof.
  revert n. induction l as [|a r IH]; intros [|n] H; simpl in *;
    try discriminate.
  - now injection H as ->.
  - now apply IH.
Qed.

(** One batch paints the lines [start .. start + count - 1] that exist. *)
Lemma processLinesFrom_fold (b : Browser) (st : MinimapSettings) (f : Frame)
    (doc : list DocLine) (count lineNo : nat) (g : Ctx2D) :
  (1 <= lineNo)%nat ->
  processLinesFrom b st f doc lineNo count g =
  fold_left (fun g line => paintLine b st f line g)
            (List.firstn count (List.skipn (lineNo - 1) doc)) g.
Proof.
  revert lineNo g. induction count as [|k IH]; intros lineNo g Hpos.
  - reflexivity.
  - cbn [processLinesFrom].
    destruct (Nat.ltb_spec (List.length doc) lineNo) as [Hout|Hin].
    + rewrite List.skipn_all2 by lia. reflexivity.
    + destruct (nth_error doc (lineNo - 1)) as [line|] eqn:En.
      * rewrite (nth_error_skipn _ _ _ En). cbn [List.firstn fold_left].
        rewrite IH by lia. replace (S lineNo - 1)%nat with (S (lineNo - 1)) by lia.
        reflexivity.
      * apply nth_error_None in En. lia.
Qed.

(** The batches together paint every line once, in order: the fuel of
    [batchLoop] does not run out, and the batch boundaries do not show. *)
Lemma batchLoop_fold (b : Browser) (st : MinimapSettings) (f : Frame)
    (doc : list DocLine) (fuel i : nat) (g : Ctx2D) :
  (1 <= i)%nat -> (List.length doc + 1 - i <= fuel)%nat ->
  batchLoop b st f doc fuel i g =
  fold_left (fun g line => paintLine b st f line g) (List.skipn (i - 1) doc) g.
Proof.
  revert i g. induction fuel as [|k IH]; intros i g Hpos Hfuel.
  - rewrite List.skipn_all2 by lia. reflexivity.
  - cbn [batchLoop].
    destruct (Nat.leb_spec i (List.length doc)) as [Hin|Hout].
    + unfold batchSize in *. rewrite IH by lia.
      unfold processLines. rewrite processLinesFrom_fold by lia.
      replace (i + 50 - 1 + 1 - i)%nat with 50%nat by lia.
      replace (i + 50 - 1)%nat with (50 + (i - 1))%nat by lia.
      rewrite <- List.skipn_skipn, <- fold_left_app, List.firstn_skipn.
      reflexivity.
    + rewrite List.skipn_all2 by lia. reflexivity.
Qed.

Lemma paintAllLines_fold (b : Browser) (st : MinimapSettings) (f : Frame)
    (doc : list DocLine) (g : Ctx2D) :
  paintAllLines b st f doc g =
  fold_left (fun g line => paintLine b st f line g) doc g.
Proof.
  unfold paintAllLines. rewrite batchLoop_fold by lia. reflexivity.
Qed.

Lemma setFillStyle_calls (b : Browser) (color : string) (g : Ctx2D) :
  calls (setFillStyle b color g) = calls g.
Proof. unfold setFillStyle. destruct (isColor b color); reflexivity. Qed.

Lemma setStrokeStyle_calls (b : Browser) (color : string) (g : Ctx2D) :
  calls (setStrokeStyle b color g) = calls g.
Proof. unfold setStrokeStyle. destruct (isColor b color); reflexivity. Qed.

(** [paintLine] only adds to the log, and every rectangle it adds for a
    line sits at the [y] of that line. *)
Lemma paintLine_calls (b : Browser) (st : MinimapSettings) (f : Frame)
    (line : DocLine) (g : Ctx2D) :
  exists new,
    calls (paintLine b st f line g) = calls g ++ new /\
    Forall (fun d => rectY d = lineY f line) new.
Proof.
  unfold paintLine. fold (lineY f line).
  destruct (_ || _).
  - exists []. split; [symmetry; apply app_nil_r | constructor].
  - destruct (classifyLine st (lineText line));
      try (eexists [_]; split;
           [cbn [fillRect issue calls]; rewrite setFillStyle_calls; reflexivity
           | repeat constructor]).
    + eexists [_; _]. split.
      * cbn [strokeRect fillRect issue calls].
        rewrite setStrokeStyle_calls. cbn [fillRect issue calls].
        rewrite setFillStyle_calls, <- app_assoc. reflexivity.
      * repeat constructor.
    + exists []. split; [symmetry; apply app_nil_r | constructor].
Qed.

Lemma paintLines_calls (b : Browser) (st : MinimapSettings) (f : Frame)
    (P : num -> Prop) (doc : list DocLine) (g : Ctx2D) :
  (forall line, P (lineY f line)) ->
  exists new,
    calls (fold_left (fun g line => paintLine b st f line g) doc g) = calls g ++ new /\
    Forall (fun d => P (rectY d)) new.
Proof.
  intros HP. revert g. induction doc as [|line r IH]; intros g; cbn [fold_left].
  - exists []. split; [symmetry; apply app_nil_r | constructor].
  - destruct (IH (paintLine b st f line g)) as (new2 & E2 & F2).
    destruct (paintLine_calls b st f line g) as (new1 & E1 & F1).
    exists (new1 ++ new2). split.
    + rewrite E2, E1, app_assoc. reflexivity.
    + apply Forall_app. split; [|assumption].
      eapply List.Forall_impl; [|exact F1]. intros d ->. apply HP.
Qed.

(** A position scaled by an infinite or undefined factor is not finite. *)
Lemma lineY_not_finite (f : Frame) (line : DocLine) :
  isFinite (scale f) = false -> isFinite (lineY f line) = false.
Proof.
  unfold lineY. destruct (scale f) as [q| | |]; [discriminate| | |]; intros _; cbn.
  - destruct (blockTop line ?= 0)%Q; reflexivity.
  - destruct (0 ?= blockTop line)%Q; reflexivity.
  - reflexivity.
Qed.

(** With a content height of zero the division is carried out all the
    same, and gives an infinity or [NaN]. *)
Lemma scale_of_zero_height (st : MinimapSettings) (dw : num) (q : Q) (e : Scroller) :
  (scrollHeight e == 0)%Q ->
  isFinite (scale (frameOf st dw (numFloor (Fin q)) e)) = false.
Proof.
  intros Hz. cbn. apply Qeq_bool_iff in Hz. rewrite Hz.
  destruct (_ ?= 0)%Q; reflexivity.
Qed.

Lemma not_finite_not_effective (d : DrawCall) :
  isFinite (rectY d) = false -> effective d = false.
Proof.
  destruct d as [x y w h ? ? ? ?|x y w h ? ? ? ? ?]; cbn; intros ->;
    now rewrite andb_false_r.
Qed.

Lemma filter_none {A : Type} (p : A -> bool) (l : list A) :
  Forall (fun x => p x = false) l -> List.filter p l = [].
Proof.
  induction 1 as [|x r Hx _ IH]; cbn; [reflexivity|]. now rewrite Hx.
Qed.

Lemma issuedBy_app (paint : Ctx2D -> Ctx2D) (g : Ctx2D) (new : list DrawCall) :
  calls (paint g) = calls g ++ new -> issuedBy paint g = new.
Proof.
  intros E. unfold issuedBy. rewrite E.
  rewrite List.skipn_app, List.skipn_all, Nat.sub_diag. reflexivity.
Qed.

(** The context [update] leaves after a repaint of a view with a document:
    scale by the device pixel ratio, background, the line loop, the viewport
    indicator, on a context that the resize has reset. *)
Lemma repaint_ctx (b : Browser) (st : MinimapSettings) (doc : list DocLine)
    (e : Scroller) (c : Canvas) :
  let dpr := if Qeq_bool (devicePixelRatio b) 0 then 1%Q else devicePixelRatio b in
  let f := frameOf st (displayWidthOf st) (displayHeightOf b st) e in
  ctx (repaint b st (Some doc) e c) =
  paintViewportIndicator b st f e
    (paintAllLines b st f doc
       (fillRect (Fin 0) (Fin 0) (displayWidthOf st) (displayHeightOf b st)
          (setFillStyle b (backgroundPrimary b) (ctxScale dpr dpr freshContext)))).
Proof. reflexivity. Qed.




(* ===================================================================== *)
(** * Properties: loading the settings *)
(* ===================================================================== *)

(** The loop over the keys leaves alone a key that is not in the data,
    and [disabledFiles]. *)
Lemma fold_assignKey_other (entries : list (string * JValue))
    (o : SettingsObject) (key : string) :
  key = "disabledFiles" \/ (forall value, ~ In (key, value) entries) ->
  fold_left assignKey entries o !! key = o !! key.
Proof.
  revert o. induction entries as [|[k v] r IH]; intros o H; cbn [fold_left].
  - reflexivity.
  - rewrite IH.
    + unfold assignKey. cbn [fst snd].
      destruct (String.eqb_spec k "disabledFiles") as [->|Hk]; [reflexivity|].
      apply lookup_insert_ne. intros ->.
      destruct H as [H|H]; [contradiction|]. apply (H v). now left.
    + destruct H as [H|H]; [now left | right].
      intros value Hin. apply (H value). now right.
Qed.

(** It copies every other key of the data, with the value the data has. *)
Lemma fold_assignKey_copied (entries : list (string * JValue))
    (o : SettingsObject) (key : string) (value : JValue) :
  List.NoDup (List.map fst entries) ->
  key <> "disabledFiles" -> In (key, value) entries ->
  fold_left assignKey entries o !! key = Some value.
Proof.
  revert o. induction entries as [|[k v] r IH]; intros o Hnd Hk Hin;
    cbn [fold_left]; [contradiction|].
  cbn [List.map fst] in Hnd. apply List.NoDup_cons_iff in Hnd as [Hfresh Hnd].
  destruct Hin as [[= -> ->]|Hin].
  - rewrite fold_assignKey_other.
    + unfold assignKey. cbn [fst snd].
      destruct (String.eqb_spec key "disabledFiles"); [contradiction|].
      apply lookup_insert_eq.
    + right. intros v' Hin. apply Hfresh.
      change key with (fst (key, v')). now apply List.in_map.
  - now apply IH.
Qed.

Lemma indexKey_inj : Inj (=) (=) indexKey.
Proof.
  intros i j H. unfold indexKey in H.
  apply (f_equal NilEmpty.uint_of_string) in H.
  rewrite !NilEmpty.usu in H. injection H as H.
  apply (f_equal Nat.of_uint) in H.
  now rewrite !DecimalNat.Unsigned.of_to in H.
Qed.

Lemma indexed_keys_NoDup {A : Type} (g : nat -> A -> JValue) (l : list A) :
  List.NoDup (List.map fst (imap (fun i x => (indexKey i, g i x)) l)).
Proof.
  change (List.map fst) with (fmap (M := list) (@fst string JValue)).
  rewrite fmap_imap.
  rewrite (imap_ext _ (fun i _ => indexKey i)) by reflexivity.
  rewrite imap_seq_0. apply NoDup_ListNoDup.
  apply (NoDup_fmap_2 _ (Inj0 := indexKey_inj)), NoDup_seq.
Qed.

(** [Object.keys] lists a key once. *)
Lemma ownEntries_NoDup (data : JValue) : List.NoDup (List.map fst (ownEntries data)).
Proof.
  destruct data as [| | | s | l | m]; cbn [ownEntries]; try constructor.
  - apply (indexed_keys_NoDup (fun _ c => JStr (String c EmptyString))).
  - apply (indexed_keys_NoDup (fun _ x => x)).
  - apply NoDup_ListNoDup, NoDup_fst_map_to_list.
Qed.

(** Only a truthy value has keys. *)
Lemma ownEntries_truthy (data : JValue) (entry : string * JValue) :
  In entry (ownEntries data) -> truthy data = true.
Proof.
  destruct data as [| | | s | l | m]; cbn; try contradiction; try reflexivity.
  destruct s; [contradiction | reflexivity].
Qed.

Lemma default_disabledFiles :
  settingsObject DEFAULT_SETTINGS !! "disabledFiles" = Some (JArr []).
Proof. reflexivity. Qed.

Lemma mapM_asString (l : list string) : mapM asString (List.map JStr l) = Some l.
Proof.
  induction l as [|x r IH]; [reflexivity|].
  cbn [List.map mapM asString mbind option_bind mret option_ret]. now rewrite IH.
Qed.

(** What [saveSettings] writes, [loadSettings] reads back. *)
Lemma load_after_save (st : MinimapSettings) :
  readSettings (loadSettings (LoadReturns (saveSettings st))) = Some st.
Proof.
  destruct st as [files ? ? ? ? ? ? ? ? ? ? ? ? ? ? ? ? ? ? ? ? ? ? ? ? ? ? ?].
  pose proof (mapM_asString files) as Hm.
  unfold saveSettings, settingsObject. cbn [disabledFiles].
  set (arr := List.map JStr files) in *. clearbody arr.
  revert Hm. vm_compute. intros ->. reflexivity.
Qed.

Lemma loadSettings_missing (data : JValue) (key : string) :
  key <> "disabledFiles" ->
  (forall value, ~ In (key, value) (ownEntries data)) ->
  loadSettings (LoadReturns data) !! key = settingsObject DEFAULT_SETTINGS !! key.
Proof.
  intros Hk Habsent. unfold loadSettings. destruct (truthy data); [|reflexivity].
  rewrite fold_assignKey_other by now right.
  apply lookup_insert_ne. congruence.
Qed.

Lemma loadSettings_copied (data : JValue) (key : string) (value : JValue) :
  key <> "disabledFiles" -> In (key, value) (ownEntries data) ->
  loadSettings (LoadReturns data) !! key = Some value.
Proof.
  intros Hk Hin. unfold loadSettings. rewrite (ownEntries_truthy _ _ Hin).
  apply fold_assignKey_copied; auto using ownEntries_NoDup.
Qed.

(** C7.  When [loadData] fails, the settings are the defaults.  When it
    returns a value: a [disabledFiles] that is not an array is replaced by
    the empty list, an array is kept; a key that the persisted record does
    not have keeps its default; and every other key of the record is
    loaded with the value the record has, so the rest of the load goes
    through whatever [disabledFiles] was. *)
Theorem loadSettings_falls_back_to_defaults :
  loadSettings LoadThrows = settingsObject DEFAULT_SETTINGS /\
  forall data : JValue,
    let loaded := loadSettings (LoadReturns data) in
    (isArray (disabledFilesOf data) = false ->
       loaded !! "disabledFiles" = Some (JArr [])) /\
    (forall l, disabledFilesOf data = Some (JArr l) ->
       loaded !! "disabledFiles" = Some (JArr l)) /\
    (forall key, key <> "disabledFiles" ->
       (forall value, ~ In (key, value) (ownEntries data)) ->
       loaded !! key = settingsObject DEFAULT_SETTINGS !! key) /\
    (forall key value, key <> "disabledFiles" ->
       In (key, value) (ownEntries data) ->
       loaded !! key = Some value).
Proof.
  split; [reflexivity|]. intros data loaded. subst loaded. unfold loadSettings.
  repeat split.
  - intros Hbad. destruct (truthy data); [|apply default_disabledFiles].
    rewrite fold_assignKey_other by now left. rewrite Hbad.
    apply lookup_insert_eq.
  - intros l Hl.
    assert (Ht : truthy data = true).
    { destruct data; try discriminate Hl. reflexivity. }
    rewrite Ht, fold_assignKey_other by now left. rewrite Hl. cbn.
    apply lookup_insert_eq.
  - apply loadSettings_missing.
  - apply loadSettings_copied.
Qed.

Lemma loadSettings_falls_back_to_defaults_witness :
  let data :=
    JObj (<["minimapOpacity" := JNum 0.8]> (<["disabledFiles" := JStr "notes/a.md"]> ∅)) in
  loadSettings (LoadReturns data) !! "disabledFiles" = Some (JArr []) /\
  loadSettings (LoadReturns data) !! "width" = Some (JNum 150) /\
  loadSettings (LoadReturns data) !! "minimapOpacity" = Some (JNum 0.8).
Proof.
  intros data.
  pose proof (proj2 loadSettings_falls_back_to_defaults data)
    as (Hfiles & _ & Hmissing & Hcopied).
  split; [|split].
  - apply Hfiles. subst data. cbn [disabledFilesOf].
    rewrite lookup_insert_ne by discriminate. rewrite lookup_insert_eq.
    reflexivity.
  - apply (Hmissing "width"); [discriminate|].
    intros value Hin. subst data. cbn [ownEntries] in Hin.
    apply (proj2 (list_elem_of_In _ _)) in Hin.
    apply (proj1 (elem_of_map_to_list _ _ _)) in Hin.
    rewrite !lookup_insert_ne, lookup_empty in Hin by discriminate.
    discriminate Hin.
  - apply Hcopied; [discriminate|]. subst data. cbn [ownEntries].
    apply (proj1 (list_elem_of_In _ _)).
    apply (proj2 (elem_of_map_to_list _ _ _)).
    apply lookup_insert_eq.
Defined.

(* ===================================================================== *)
(** * Properties: the bounds of the configuration *)
(* ===================================================================== *)

Lemma readSettings_numbers (o : SettingsObject) (st : MinimapSettings) :
  readSettings o = Some st ->
  getNumber o "minimapOpacity" = Some (minimapOpacity st) /\
  getNumber o "indicatorOpacity" = Some (indicatorOpacity st) /\
  getNumber o "minimapScaling" = Some (minimapScaling st) /\
  getNumber o "width" = Some (width st) /\
  getNumber o "lineHeight" = Some (lineHeight st).
Proof.
  unfold readSettings. intros H.
  repeat (match type of H with
          | (mbind _ ?x = Some _) =>
              destruct x eqn:?; cbn [mbind option_bind] in H; [|discriminate H]
          end).
  injection H as <-. cbn. auto.
Qed.

(** The typed reading of the settings object of a record is the record. *)
Lemma readSettings_settingsObject_default :
  readSettings (settingsObject DEFAULT_SETTINGS) = Some DEFAULT_SETTINGS.
Proof. vm_compute. reflexivity. Qed.

Lemma settingsInvariant_default : settingsInvariant DEFAULT_SETTINGS.
Proof. unfold settingsInvariant. cbn. lra. Qed.

Lemma setNumber_invariant (k : NumberField) (value : Q) (st : MinimapSettings) :
  settingsInvariant st -> fieldBound k value ->
  settingsInvariant (setNumber k value st).
Proof.
  unfold settingsInvariant. intros (H1 & H2 & H3 & H4 & H5) Hb.
  destruct k; cbn in *; auto.
Qed.

Lemma slider_value_in_bounds (k : NumberField) (value : Q) :
  (sliderMin (sliderOf k) <= value <= sliderMax (sliderOf k))%Q ->
  fieldBound k value.
Proof. destruct k; cbn; intros [Hlo Hhi]; try exact I; lra. Qed.

Lemma menu_value_in_bounds (value : Q) :
  In value (List.map menuOptionValue (seq 0 10)) -> (0 <= value <= 1)%Q.
Proof.
  cbn [List.map seq In]. unfold menuOptionValue.
  intros H.
  repeat (destruct H as [<-|H]; [split; apply Qle_bool_iff; reflexivity|]).
  contradiction.
Qed.

Lemma syncVisibility_settings (w : World) : settings (syncVisibility w) = settings w.
Proof.
  unfold syncVisibility. destruct (canvas w); [|reflexivity].
  destruct (match view w with Some v => file v | None => None end);
    [|reflexivity].
  destruct (isMinimapEnabledForFile _ _); [|reflexivity].
  now rewrite (proj1 (update_frame _)).
Qed.

(** Whether the persisted record has a key is decidable. *)
Lemma entry_dec (entries : list (string * JValue)) (key : string) :
  (exists value, In (key, value) entries) \/ (forall value, ~ In (key, value) entries).
Proof.
  induction entries as [|[k v] r IH].
  - right. intros value [].
  - destruct (string_dec k key) as [->|Hne].
    + left. exists v. now left.
    + destruct IH as [[value Hin]|Hout].
      * left. exists value. now right.
      * right. intros value [Heq|Hin]; [congruence | now apply (Hout value)].
Qed.

Lemma default_numbers :
  getNumber (settingsObject DEFAULT_SETTINGS) "minimapOpacity" = Some 0.5%Q /\
  getNumber (settingsObject DEFAULT_SETTINGS) "indicatorOpacity" = Some 0.2%Q /\
  getNumber (settingsObject DEFAULT_SETTINGS) "minimapScaling" = Some 0.5%Q /\
  getNumber (settingsObject DEFAULT_SETTINGS) "width" = Some 150%Q /\
  getNumber (settingsObject DEFAULT_SETTINGS) "lineHeight" = Some 4%Q.
Proof. vm_compute. repeat split; reflexivity. Qed.

Lemma menu_selection_invariant (k : NumberField) (w : World) (value : Q) :
  fieldBound k value -> settingsInvariant (settings w) ->
  settingsInvariant
    (settings (refreshMinimaps (withSettings w (setNumber k value (settings w))))).
Proof.
  intros Hb Hinv. unfold refreshMinimaps. rewrite syncVisibility_settings.
  cbn [settings withSettings]. now apply setNumber_invariant.
Qed.

Lemma boundedKeys_not_disabledFiles (key : string) (k : NumberField) :
  In (key, k) boundedKeys -> key <> "disabledFiles".
Proof.
  unfold boundedKeys. cbn [In]. intros H ->. intuition discriminate.
Qed.

Lemma getNumber_lookup (o : SettingsObject) (key : string) (q : Q) :
  getNumber o key = Some q <-> o !! key = Some (JNum q).
Proof.
  unfold getNumber. split.
  - destruct (o !! key) as [[]|]; try discriminate. now intros [= ->].
  - now intros ->.
Qed.

Lemma objectInvariant_default : objectInvariant (settingsObject DEFAULT_SETTINGS).
Proof.
  destruct default_numbers as (D1 & D2 & D3 & D4 & D5).
  intros key k Hin. unfold boundedKeys in Hin. cbn [In] in Hin.
  destruct Hin as [E|[E|[E|[E|[E|[]]]]]]; injection E as <- <-;
    eexists; (split; [apply getNumber_lookup; eassumption | cbn [fieldBound]; lra]).
Qed.

(** [loadSettings] neither clamps nor rejects: a bounded key holds what the
    persisted data has under it, of whatever type, and the default when the
    data has no such key.  So the bounds hold afterwards exactly when every
    value persisted under a bounded key is a number within its bound. *)
Lemma loadSettings_objectInvariant (r : LoadData) :
  objectInvariant (loadSettings r) <-> persistedWithinBounds r.
Proof.
  destruct r as [|data]; cbn [persistedWithinBounds].
  - split; [easy | intros _; apply objectInvariant_default].
  - split.
    + intros Hinv key k value Hkey Hin.
      destruct (Hinv key k Hkey) as (q & Hq & Hb).
      rewrite (loadSettings_copied data key value
                 (boundedKeys_not_disabledFiles key k Hkey) Hin) in Hq.
      injection Hq as ->. eauto.
    + intros Hp key k Hkey.
      pose proof (boundedKeys_not_disabledFiles key k Hkey) as Hne.
      destruct (entry_dec (ownEntries data) key) as [[value Hin]|Hout].
      * rewrite (loadSettings_copied data key value Hne Hin).
        destruct (Hp key k value Hkey Hin) as (q & -> & Hb). eauto.
      * rewrite (loadSettings_missing data key Hne Hout).
        now apply objectInvariant_default.
Qed.

(** On a settings object that has every field with its type, the
    invariant of the object is the invariant of the record. *)
Lemma objectInvariant_typed (o : SettingsObject) (st : MinimapSettings) :
  readSettings o = Some st -> (objectInvariant o <-> settingsInvariant st).
Proof.
  intros Hread.
  apply readSettings_numbers in Hread as (H1 & H2 & H3 & H4 & H5).
  apply getNumber_lookup in H1, H2, H3, H4, H5.
  unfold settingsInvariant. split.
  - intros Hinv.
    assert (Hk : forall key k q,
               In (key, k) boundedKeys -> o !! key = Some (JNum q) -> fieldBound k q).
    { intros key k q Hin Hq. destruct (Hinv key k Hin) as (q' & Hq' & Hb).
      rewrite Hq in Hq'. now injection Hq' as ->. }
    unfold boundedKeys in Hk. cbn [In] in Hk.
    split; [|split; [|split; [|split]]].
    + apply (Hk _ FMinimapOpacity _ ltac:(tauto) H1).
    + apply (Hk _ FIndicatorOpacity _ ltac:(tauto) H2).
    + apply (Hk _ FMinimapScaling _ ltac:(tauto) H3).
    + apply (Hk _ FWidth _ ltac:(tauto) H4).
    + apply (Hk _ FLineHeight _ ltac:(tauto) H5).
  - intros (B1 & B2 & B3 & B4 & B5) key k Hin.
    unfold boundedKeys in Hin. cbn [In] in Hin.
    destruct Hin as [E|[E|[E|[E|[E|[]]]]]]; injection E as <- <-; eauto.
Qed.

(** C4, as the code has it.  The bounds hold for the defaults and are kept
    by every selection of the context menu and by every slider change
    whose value is within the limits of the slider.  Nothing is clamped or
    rejected by the plugin itself: [loadSettings] copies what is persisted
    under a key as it is, of whatever type, so the bounds hold of the
    loaded settings exactly when every value persisted under one of the
    five bounded keys is a number within its bound.  On settings that have
    every field with its type, the bounds of the object are the bounds of
    the record. *)
Theorem settingsInvariant_writers :
  settingsInvariant DEFAULT_SETTINGS /\
  (forall w value,
     settingsInvariant (settings w) -> In value scaleOptions ->
     settingsInvariant (settings (selectScale value w))) /\
  (forall w value,
     settingsInvariant (settings w) -> In value opacityOptions ->
     settingsInvariant (settings (selectOpacity value w))) /\
  (forall w k value,
     settingsInvariant (settings w) ->
     (sliderMin (sliderOf k) <= value <= sliderMax (sliderOf k))%Q ->
     settingsInvariant (settings (sliderChange k value w))) /\
  (forall r, objectInvariant (loadSettings r) <-> persistedWithinBounds r) /\
  (forall r st,
     readSettings (loadSettings r) = Some st ->
     (settingsInvariant st <-> persistedWithinBounds r)).
Proof.
  split; [apply settingsInvariant_default|].
  split; [|split; [|split; [|split]]].
  - intros w value Hinv Hin. apply menu_selection_invariant; [|assumption].
    now apply menu_value_in_bounds.
  - intros w value Hinv Hin. apply menu_selection_invariant; [|assumption].
    now apply menu_value_in_bounds.
  - intros w k value Hinv Hin. apply menu_selection_invariant; [|assumption].
    now apply slider_value_in_bounds.
  - apply loadSettings_objectInvariant.
  - intros r st Hread.
    rewrite <- (objectInvariant_typed _ _ Hread).
    apply loadSettings_objectInvariant.
Qed.

Lemma settingsInvariant_writers_witness :
  settingsInvariant (settings (selectScale (menuOptionValue 2) attachedWorld)) /\
  settingsInvariant (settings (sliderChange FWidth 200 attachedWorld)) /\
  objectInvariant
    (loadSettings
       (LoadReturns (JObj (<["minimapOpacity" := JNum 0.8]>
                             (<["textColor" := JNum 5]> ∅))))) /\
  ~ objectInvariant
      (loadSettings (LoadReturns (JObj (<["width" := JStr "wide"]> ∅)))).
Proof.
  pose proof settingsInvariant_writers as (Hd & Hscale & _ & Hslider & Hload & _).
  split; [|split; [|split]].
  - apply Hscale; [exact Hd|]. cbn. tauto.
  - apply Hslider; [exact Hd|]. cbn. lra.
  - apply (proj2 (Hload _)). cbn [persistedWithinBounds ownEntries].
    intros key k value Hkey Hin.
    apply (proj2 (list_elem_of_In _ _)) in Hin.
    apply (proj1 (elem_of_map_to_list _ _ _)) in Hin.
    apply (proj1 (lookup_insert_Some _ _ _ _ _)) in Hin.
    destruct Hin as [[<- <-]|[_ Hin]].
    + unfold boundedKeys in Hkey. cbn [In] in Hkey.
      destruct Hkey as [E|[E|[E|[E|[E|[]]]]]]; try discriminate E.
      injection E as <-. exists 0.8%Q. split; [reflexivity|]. cbn; lra.
    + apply (proj1 (lookup_insert_Some _ _ _ _ _)) in Hin.
      destruct Hin as [[<- <-]|[_ Hin]].
      * unfold boundedKeys in Hkey. cbn [In] in Hkey.
        destruct Hkey as [E|[E|[E|[E|[E|[]]]]]]; discriminate E.
      * rewrite lookup_empty in Hin. discriminate Hin.
  - intros Hinv. apply (proj1 (Hload _)) in Hinv.
    cbn [persistedWithinBounds ownEntries] in Hinv.
    destruct (Hinv "width" FWidth (JStr "wide")) as (q & Hq & _).
    + unfold boundedKeys. cbn [In]. tauto.
    + apply (proj1 (list_elem_of_In _ _)).
      apply (proj2 (elem_of_map_to_list _ _ _)).
      apply lookup_insert_eq.
    + discriminate Hq.
Defined.

(** [loadSettings] does not clamp: an opacity of 5 in the persisted record
    is the opacity of the loaded settings. *)
Lemma loadSettings_keeps_out_of_range_value :
  exists st,
    readSettings
      (loadSettings (LoadReturns (JObj (<["minimapOpacity" := JNum 5]> ∅)))) = Some st /\
    minimapOpacity st = 5%Q /\
    ~ settingsInvariant st.
Proof.
  eexists. split; [vm_compute; reflexivity|]. split; [reflexivity|].
  unfold settingsInvariant. cbn. lra.
Qed.

(* ===================================================================== *)
(** * Further properties: lifecycle *)
(* ===================================================================== *)

(** X1.  [attach] is idempotent: once a canvas is there a second call
    returns at its guard, so no second canvas and no further listeners. *)
Theorem attach_idempotent (w : World) : attach (attach w) = attach w.
Proof.
  unfold attach at 2.
  destruct (view w) as [v|] eqn:Hv.
  - destruct (canvas w) as [c|] eqn:Hc.
    + unfold attach. now rewrite Hv, Hc.
    + match goal with |- attach (update ?x) = _ => set (w1 := x) end.
      destruct (update_keeps_canvas w1 (createCanvas (browser w) (settings w)
                  (addEventListener "contextmenu" (Arrow (arrows w + 4) OpenContextMenu)
                     (addEventListener "mousemove" (Arrow (arrows w + 1) DragMove)
                        (addEventListener "mousedown" (Arrow (arrows w) StartDrag) []))))
                  eq_refl) as (c' & Hc' & _).
      unfold attach. rewrite (proj1 (proj2 (update_frame w1))).
      cbv delta [w1] beta iota. cbn [view]. fold w1. rewrite Hc', Hv, Hc. reflexivity.
  - unfold attach. now rewrite Hv.
Qed.

(** [repaint] keeps the [display] it is given. *)
Lemma repaint_display (b : Browser) (st : MinimapSettings)
    (m : option (list DocLine)) (e : Scroller) (c : Canvas) :
  display (repaint b st m e c) = display c /\
  canvasListeners (repaint b st m e c) = canvasListeners c.
Proof. unfold repaint. destruct m; split; reflexivity. Qed.

(** Once shown, the surface stays shown under [update] while "Show
    Minimap" is on. *)
Lemma update_stays_shown (w : World) (c : Canvas) :
  canvas w = Some c -> showMinimap (settings w) = true ->
  display c = DisplayBlock ->
  option_map display (canvas (update w)) = Some DisplayBlock.
Proof.
  intros Hc Hs Hd. unfold update. rewrite Hc, Hs.
  destruct (view w) as [v|]; [|cbn; now rewrite Hd].
  destruct (scroller v) as [e|]; [|cbn; now rewrite Hd].
  cbn [contextAvailable setOpacityProperty].
  destruct (contextAvailable c); cbn; [|now rewrite Hd].
  now rewrite (proj1 (repaint_display _ _ _ _ _)).
Qed.

Lemma syncVisibility_frame (w : World) :
  settings (syncVisibility w) = settings w /\ view (syncVisibility w) = view w /\
  browser (syncVisibility w) = browser w /\
  isDragging (syncVisibility w) = isDragging w /\
  documentListeners (syncVisibility w) = documentListeners w /\
  arrows (syncVisibility w) = arrows w.
Proof.
  unfold syncVisibility. destruct (canvas w) as [c|]; [|now repeat split].
  destruct (match view w with Some v => file v | None => None end);
    [|now repeat split].
  destruct (isMinimapEnabledForFile _ _); [|now repeat split].
  destruct (update_frame (withCanvas w (Some (setDisplay DisplayBlock c))))
    as (-> & -> & -> & -> & -> & ->).
  now repeat split.
Qed.

Lemma syncVisibility_shows (w : World) (c : Canvas) :
  canvas w = Some c ->
  option_map display (canvas (syncVisibility w)) =
  Some (if match boundFile w with
           | Some path => isMinimapEnabledForFile (settings w) path
           | None => false
           end
        then DisplayBlock else DisplayNone).
Proof.
  intros Hc. unfold syncVisibility, boundFile. rewrite Hc.
  destruct (match view w with Some v => file v | None => None end) as [path|];
    [|reflexivity].
  destruct (isMinimapEnabledForFile (settings w) path) eqn:He; [|reflexivity].
  apply (update_stays_shown _ (setDisplay DisplayBlock c)); try reflexivity.
  cbn [settings withCanvas]. unfold isMinimapEnabledForFile in He.
  now apply andb_true_iff in He as [? _].
Qed.

(** X2.  After [syncVisibility] the surface is shown exactly when the
    view has a file for which the minimap is enabled, and hidden
    otherwise; nothing happens without a surface. *)
Theorem syncVisibility_display (w : World) :
  option_map display (canvas (syncVisibility w)) =
  option_map
    (fun _ =>
       if match boundFile w with
          | Some path => isMinimapEnabledForFile (settings w) path
          | None => false
          end
       then DisplayBlock else DisplayNone)
    (canvas w).
Proof.
  destruct (canvas w) as [c|] eqn:Hc.
  - now rewrite (syncVisibility_shows w c Hc).
  - unfold syncVisibility. rewrite Hc. now rewrite Hc.
Qed.

(** ** What holds after any sequence of calls *)

Lemma update_surfaceListeners (w : World) :
  surfaceListeners (update w) = surfaceListeners w.
Proof.
  unfold surfaceListeners.
  destruct (canvas w) as [c|] eqn:Hc.
  - destruct (update_keeps_canvas _ _ Hc) as (c' & -> & Hl & _). cbn. now rewrite Hl.
  - unfold update. now rewrite Hc, Hc.
Qed.

Lemma update_scrollRegistrations (w : World) :
  scrollRegistrations (update w) = scrollRegistrations w.
Proof. unfold scrollRegistrations. now rewrite (proj1 (proj2 (update_frame w))). Qed.

Lemma syncVisibility_view (w : World) : view (syncVisibility w) = view w.
Proof.
  unfold syncVisibility. destruct (canvas w); [|reflexivity].
  destruct (match view w with Some v => file v | None => None end);
    [|reflexivity].
  destruct (isMinimapEnabledForFile _ _); [|reflexivity].
  now rewrite (proj1 (proj2 (update_frame _))).
Qed.

Lemma syncVisibility_surfaceListeners (w : World) :
  surfaceListeners (syncVisibility w) = surfaceListeners w.
Proof.
  unfold syncVisibility.
  destruct (canvas w) as [c|] eqn:Hc; [|reflexivity].
  destruct (match view w with Some v => file v | None => None end);
    [|unfold surfaceListeners; cbn; now rewrite Hc].
  destruct (isMinimapEnabledForFile _ _);
    [|unfold surfaceListeners; cbn; now rewrite Hc].
  rewrite update_surfaceListeners. unfold surfaceListeners. cbn. now rewrite Hc.
Qed.

Lemma scrollToMinimapPosition_listeners (e : MouseEvent) (rect : DOMRect) (w : World) :
  scrollRegistrations (scrollToMinimapPosition e rect w) = scrollRegistrations w /\
  surfaceListeners (scrollToMinimapPosition e rect w) = surfaceListeners w.
Proof.
  unfold scrollToMinimapPosition.
  destruct (canvas w) as [c|] eqn:Hc; [|split; reflexivity].
  destruct (view w) as [v|] eqn:Hv; [|split; reflexivity].
  destruct (scroller v) as [el|] eqn:He; [|split; reflexivity].
  rewrite update_scrollRegistrations, update_surfaceListeners. split.
  - unfold scrollRegistrations. cbn. now rewrite Hv, He.
  - unfold surfaceListeners. cbn. now rewrite Hc.
Qed.

Lemma addEventListener_count (l : Listener) (ls : list Listener) :
  List.length
    (List.filter (Listener_eqb l) (addEventListener (eventType l) (callback l) ls)) =
  Nat.max 1 (List.length (List.filter (Listener_eqb l) ls)).
Proof.
  unfold addEventListener. destruct l as [t cb]. cbn [eventType callback].
  set (l := {| eventType := t; callback := cb |}).
  destruct (existsb (Listener_eqb l) ls) eqn:E.
  - apply existsb_exists in E as (x & Hin & Hx).
    assert (Hf : In x (List.filter (Listener_eqb l) ls)) by now apply filter_In.
    destruct (List.filter (Listener_eqb l) ls); [contradiction | cbn; lia].
  - rewrite List.filter_app, List.length_app. cbn [List.filter].
    replace (Listener_eqb l l) with true by (symmetry; now apply Listener_eqb_eq).
    assert (Hn : List.filter (Listener_eqb l) ls = []).
    { apply filter_none. apply List.Forall_forall. intros x Hx.
      destruct (Listener_eqb l x) eqn:Ex; [|reflexivity].
      assert (existsb (Listener_eqb l) ls = true)
        by (apply existsb_exists; exists x; split; assumption). congruence. }
    rewrite Hn. reflexivity.
Qed.

Lemma removeEventListener_count (l : Listener) (ls : list Listener) :
  List.filter (Listener_eqb l) (removeEventListener (eventType l) (callback l) ls) = [].
Proof.
  unfold removeEventListener. destruct l as [t cb]. cbn [eventType callback].
  apply filter_none. apply List.Forall_forall. intros x Hx.
  apply filter_In in Hx as [_ Hx]. now apply negb_true_iff in Hx.
Qed.

Lemma detach_scrollRegistrations (w : World) : scrollRegistrations (detach w) = O.
Proof.
  rewrite detach_unfold. unfold scrollRegistrations. cbn [view].
  destruct (view w) as [v|]; [|reflexivity].
  destruct (scroller v) as [e|] eqn:He; [|now rewrite He].
  cbn [scroller withScroller scrollListeners withScrollListeners].
  now rewrite (removeEventListener_count
                 {| eventType := "scroll"; callback := OnEditorScroll |}).
Qed.

Lemma attach_scrollRegistrations (w : World) :
  (scrollRegistrations w <= 1)%nat -> (scrollRegistrations (attach w) <= 1)%nat.
Proof.
  intros H. unfold attach.
  destruct (view w) as [v|] eqn:Hv; [|assumption].
  destruct (canvas w); [assumption|].
  rewrite update_scrollRegistrations.
  unfold scrollRegistrations in *. rewrite Hv in H. cbn [view].
  destruct (scroller v) as [e|] eqn:He; [|now rewrite He].
  cbn [scroller withScroller scrollListeners withScrollListeners].
  rewrite (addEventListener_count
             {| eventType := "scroll"; callback := OnEditorScroll |}). lia.
Qed.

Lemma attach_surfaceListeners (w : World) :
  (forall ls, surfaceListeners w = Some ls -> List.map eventType ls = canvasEventTypes) ->
  forall ls, surfaceListeners (attach w) = Some ls ->
             List.map eventType ls = canvasEventTypes.
Proof.
  intros H ls. unfold attach.
  destruct (view w) as [v|]; [|apply H].
  destruct (canvas w) eqn:Hc; [apply H|].
  rewrite update_surfaceListeners. unfold surfaceListeners. cbn.
  intros [= <-]. reflexivity.
Qed.

Lemma runCall_wellFormed (call : RendererCall) (w : World) :
  listenersWellFormed w -> listenersWellFormed (runCall call w).
Proof.
  intros [Hs Hl]. unfold listenersWellFormed.
  destruct call as [| | | | |e rect|e rect| |value|value]; cbn [runCall].
  - split; [now apply attach_scrollRegistrations | now apply attach_surfaceListeners].
  - split; [rewrite detach_scrollRegistrations; lia|].
    rewrite detach_unfold. discriminate.
  - now rewrite update_scrollRegistrations, update_surfaceListeners.
  - unfold scrollRegistrations.
    now rewrite syncVisibility_view, syncVisibility_surfaceListeners.
  - unfold onEditorScroll. destruct (negb (isDragging w)); [|now split].
    now rewrite update_scrollRegistrations, update_surfaceListeners.
  - unfold canvasMouseDown.
    destruct (scrollToMinimapPosition_listeners e rect (withDragging w true))
      as [-> ->]. now split.
  - unfold canvasMouseMove. destruct (isDragging w); [|now split].
    destruct (scrollToMinimapPosition_listeners e rect w) as [-> ->]. now split.
  - now split.
  - unfold selectScale, refreshMinimaps, scrollRegistrations.
    now rewrite syncVisibility_view, syncVisibility_surfaceListeners.
  - unfold selectOpacity, refreshMinimaps, scrollRegistrations.
    now rewrite syncVisibility_view, syncVisibility_surfaceListeners.
Qed.

(** X3.  Whatever the sequence of calls and events on a renderer
    ([attach], [detach], [update], [syncVisibility], scroll and pointer
    events, menu selections), [onEditorScroll] is registered on the
    scroller at most once and a canvas carries exactly its [mousedown],
    [mousemove] and [contextmenu] listeners. *)
Theorem listeners_stay_well_formed (calls : list RendererCall) (w : World) :
  listenersWellFormed w -> listenersWellFormed (runCalls calls w).
Proof.
  unfold runCalls. revert w.
  induction calls as [|call r IH]; intros w H; cbn [fold_left]; [assumption|].
  apply IH. now apply runCall_wellFormed.
Qed.

Lemma listeners_stay_well_formed_witness :
  (scrollRegistrations
     (runCalls [CallAttach; CallDetach; CallAttach; CallAttach; CallUpdate]
        (worldOf DEFAULT_SETTINGS (Some exampleView))) <= 1)%nat.
Proof.
  apply (listeners_stay_well_formed
           [CallAttach; CallDetach; CallAttach; CallAttach; CallUpdate]
           (worldOf DEFAULT_SETTINGS (Some exampleView))).
  split.
  - cbn. lia.
  - discriminate.
Defined.

(** ** The dragging flag *)

Lemma scrollToMinimapPosition_isDragging (e : MouseEvent) (rect : DOMRect) (w : World) :
  isDragging (scrollToMinimapPosition e rect w) = isDragging w.
Proof.
  unfold scrollToMinimapPosition.
  destruct (canvas w); [|reflexivity].
  destruct (view w) as [v|]; [|reflexivity].
  destruct (scroller v); [|reflexivity].
  now rewrite (proj1 (proj2 (proj2 (proj2 (update_frame _))))).
Qed.

Lemma syncVisibility_isDragging (w : World) :
  isDragging (syncVisibility w) = isDragging w.
Proof.
  unfold syncVisibility. destruct (canvas w); [|reflexivity].
  destruct (match view w with Some v => file v | None => None end);
    [|reflexivity].
  destruct (isMinimapEnabledForFile _ _); [|reflexivity].
  now rewrite (proj1 (proj2 (proj2 (proj2 (update_frame _))))).
Qed.

(** Only the pointer events write the flag. *)
Lemma runCall_isDragging (call : RendererCall) (w : World) :
  isDragging (runCall call w) =
  match call with
  | EventMouseDown _ _ => true
  | EventMouseUp => false
  | _ => isDragging w
  end.
Proof.
  destruct call as [| | | | |e rect|e rect| |value|value]; cbn [runCall].
  - unfold attach. destruct (view w); [|reflexivity].
    destruct (canvas w); [reflexivity|].
    now rewrite (proj1 (proj2 (proj2 (proj2 (update_frame _))))).
  - now rewrite detach_unfold.
  - apply update_frame.
  - apply syncVisibility_isDragging.
  - unfold onEditorScroll. destruct (negb (isDragging w)); [|reflexivity].
    apply update_frame.
  - unfold canvasMouseDown. now rewrite scrollToMinimapPosition_isDragging.
  - unfold canvasMouseMove. destruct (isDragging w) eqn:E; [|assumption].
    now rewrite scrollToMinimapPosition_isDragging.
  - reflexivity.
  - unfold selectScale, refreshMinimaps. now rewrite syncVisibility_isDragging.
  - unfold selectOpacity, refreshMinimaps. now rewrite syncVisibility_isDragging.
Qed.

(** X4.  From a [mousedown] on the canvas until the next [mouseup] or
    [mouseleave] of the document the dragging flag stays set, whatever else
    is called in between, and a scroll event of the editor then repaints
    nothing: [onEditorScroll] returns the world as it is. *)
Theorem drag_suppresses_scroll_repaint (e : MouseEvent) (rect : DOMRect)
    (calls : list RendererCall) (w : World) :
  existsb isMouseUp calls = false ->
  let dragging := runCalls calls (canvasMouseDown e rect w) in
  isDragging dragging = true /\ onEditorScroll dragging = dragging.
Proof.
  intros Hno dragging.
  assert (Hd : isDragging dragging = true).
  { subst dragging. unfold runCalls.
    assert (H0 : isDragging (canvasMouseDown e rect w) = true).
    { unfold canvasMouseDown. now rewrite scrollToMinimapPosition_isDragging. }
    revert H0 Hno. generalize (canvasMouseDown e rect w).
    induction calls as [|call r IH]; intros w0 H0 Hno; cbn [fold_left];
      [assumption|].
    cbn [existsb] in Hno. apply orb_false_iff in Hno as [Hc Hr].
    apply IH; [|assumption]. rewrite runCall_isDragging.
    destruct call; try assumption; try reflexivity. discriminate Hc. }
  split; [exact Hd|]. unfold onEditorScroll. now rewrite Hd.
Qed.

Lemma drag_suppresses_scroll_repaint_witness :
  onEditorScroll
    (runCalls [EventMouseMove {| clientX := 10; clientY := 120 |}
                 {| rectTop := 50; rectHeight := 400 |}; CallUpdate]
       (canvasMouseDown {| clientX := 10; clientY := 100 |}
          {| rectTop := 50; rectHeight := 400 |} attachedWorld))
  = runCalls [EventMouseMove {| clientX := 10; clientY := 120 |}
                {| rectTop := 50; rectHeight := 400 |}; CallUpdate]
      (canvasMouseDown {| clientX := 10; clientY := 100 |}
         {| rectTop := 50; rectHeight := 400 |} attachedWorld).
Proof.
  apply (drag_suppresses_scroll_repaint
           {| clientX := 10; clientY := 100 |} {| rectTop := 50; rectHeight := 400 |}
           [EventMouseMove {| clientX := 10; clientY := 120 |}
              {| rectTop := 50; rectHeight := 400 |}; CallUpdate]
           attachedWorld).
  reflexivity.
Defined.

(* ===================================================================== *)
(** * Further properties: the toggle command on any list *)
(* ===================================================================== *)

Lemma toggleDisabled_count (p : string) (l : list string) :
  count_occ string_dec (toggleDisabled p l) p =
  match count_occ string_dec l p with
  | O => 1%nat
  | S n => n
  end.
Proof.
  destruct (in_dec string_dec p l) as [Hin|Hout].
  - destruct (toggleDisabled_present _ _ Hin) as (l1 & l2 & -> & Hl1 & ->).
    rewrite !count_occ_app. cbn [count_occ].
    destruct (string_dec p p) as [_|Hne]; [|contradiction].
    apply (count_occ_not_In string_dec) in Hl1. rewrite Hl1. reflexivity.
  - rewrite (toggleDisabled_absent _ _ Hout), count_occ_app.
    apply (count_occ_not_In string_dec) in Hout. rewrite Hout. cbn.
    destruct (string_dec p p) as [_|Hne]; [reflexivity | contradiction].
Qed.

(** X5.  With "Show Minimap" on, one run of the toggle command enables
    the minimap for the active file exactly when its path was in
    [disabledFiles] once: an absent path gets disabled, and of a path
    listed several times only the first entry is taken out. *)
Theorem toggle_enables_iff_listed_once (st : MinimapSettings) (p : string) :
  showMinimap st = true ->
  (isMinimapEnabledForFile (toggleMinimapForCurrentFile (Some p) st) p = true <->
   count_occ string_dec (disabledFiles st) p = 1%nat).
Proof.
  intros Hs. unfold isMinimapEnabledForFile.
  cbn [toggleMinimapForCurrentFile disabledFiles showMinimap withDisabledFiles].
  rewrite Hs. cbn [andb].
  rewrite negb_true_iff, <- not_true_iff_false, arrayIncludes_In.
  rewrite (count_occ_not_In string_dec), toggleDisabled_count.
  destruct (count_occ string_dec (disabledFiles st) p) as [|[|n]]; lia.
Qed.

Lemma toggle_enables_iff_listed_once_witness :
  isMinimapEnabledForFile
    (toggleMinimapForCurrentFile (Some "notes/a.md")
       (withDisabledFiles DEFAULT_SETTINGS ["notes/a.md"; "notes/b.md"; "notes/a.md"]))
    "notes/a.md" = true <->
  count_occ string_dec ["notes/a.md"; "notes/b.md"; "notes/a.md"] "notes/a.md" = 1%nat.
Proof.
  apply (toggle_enables_iff_listed_once
           (withDisabledFiles DEFAULT_SETTINGS ["notes/a.md"; "notes/b.md"; "notes/a.md"])
           "notes/a.md").
  reflexivity.
Defined.

(* ===================================================================== *)
(** * Further properties: the geometry of the line marks *)
(* ===================================================================== *)

Lemma issued_from (g g' : Ctx2D) (new : list DrawCall) :
  calls g' = calls g ++ new ->
  List.skipn (List.length (calls g)) (calls g') = new.
Proof.
  intros ->. rewrite List.skipn_app, List.skipn_all, Nat.sub_diag. reflexivity.
Qed.

Lemma fillRect_after_style (b : Browser) (color : string) (x y w h : num) (g : Ctx2D) :
  exists d,
    calls (fillRect x y w h (setFillStyle b color g)) = calls g ++ [d] /\
    rectX d = x /\ rectY d = y /\ rectW d = w /\ rectH d = h.
Proof.
  eexists. split;
    [cbn [fillRect issue calls]; now rewrite setFillStyle_calls
    | repeat split; reflexivity].
Qed.

(** The index of the first unit that is not white space is [-1] only for
    a line that trims to nothing. *)
Lemma searchNonSpace_range (s : string) :
  (-1 <= searchNonSpace s)%Z /\
  ((searchNonSpace s < 0)%Z -> trimStart s = EmptyString).
Proof.
  induction s as [|c r [IH1 IH2]]; cbn [searchNonSpace trimStart].
  - split; [lia | reflexivity].
  - destruct (isWhiteSpace c); [|split; [lia | intros; lia]].
    destruct (Z.ltb_spec (searchNonSpace r) 0) as [Hneg|Hpos].
    + split; [lia|]. intros _. now apply IH2.
    + split; lia.
Qed.

Lemma classifiedAs_classifyLine_inv (st : MinimapSettings) (content : string) :
  classifyLine st content = PlainText -> trim content <> EmptyString.
Proof.
  unfold classifyLine. intros H Ht. rewrite Ht in H.
  destruct (wikiMatch content) as [p|];
    [destruct (isImagePath p); discriminate H|].
  destruct (startsWith content "#" && showHeaders st); [discriminate H|].
  destruct (startsWith EmptyString "```" && showCodeBlocks st); [discriminate H|].
  destruct (includes content "|"); discriminate H.
Qed.

Lemma plain_text_indent (st : MinimapSettings) (content : string) :
  classifyLine st content = PlainText -> (0 <= searchNonSpace content)%Z.
Proof.
  intros Hc. apply classifiedAs_classifyLine_inv in Hc.
  destruct (searchNonSpace_range content) as [_ Hneg].
  destruct (Z.ltb_spec (searchNonSpace content) 0) as [H|H]; [|assumption].
  exfalso. apply Hc. unfold trim. now rewrite (Hneg H).
Qed.

Lemma numMin_Fin (a b : Q) :
  exists c, numMin (Fin a) (Fin b) = Fin c /\ (c <= a)%Q /\ (c <= b)%Q.
Proof.
  cbn. unfold Qlt_bool. destruct (Qle_bool a b) eqn:E; cbn.
  - apply Qle_bool_iff in E. exists a. repeat split; [apply Qle_refl | assumption].
  - apply Qle_bool_false in E. exists b.
    repeat split; [now apply Qlt_le_weak | apply Qle_refl].
Qed.

Lemma numMax_Fin (a b : Q) :
  exists c, numMax (Fin a) (Fin b) = Fin c /\ (a <= c)%Q /\ (b <= c)%Q.
Proof.
  cbn. unfold Qlt_bool. destruct (Qle_bool b a) eqn:E; cbn.
  - apply Qle_bool_iff in E. exists a. repeat split; [apply Qle_refl | assumption].
  - apply Qle_bool_false in E. exists b.
    repeat split; [now apply Qlt_le_weak | apply Qle_refl].
Qed.

Lemma floor_at_least_four (q : Q) :
  (0 <= q)%Q -> (4 <= inject_Z (Qfloor (4 + q)))%Q /\ (inject_Z (Qfloor (4 + q)) <= 4 + q)%Q.
Proof.
  intros Hq. split; [|apply Qfloor_le].
  assert (H4 : (Qfloor 4 <= Qfloor (4 + q))%Z) by (apply Qfloor_resp_le; lra).
  change (Qfloor 4) with 4%Z in H4. rewrite Zle_Qle in H4. exact H4.
Qed.

Lemma numMin_Fin_nonneg (a b : Q) :
  (0 <= a)%Q -> (0 <= b)%Q ->
  exists c, numMin (Fin a) (Fin b) = Fin c /\ (0 <= c)%Q /\ (c <= a)%Q /\ (c <= b)%Q.
Proof.
  intros Ha Hb. cbn. unfold Qlt_bool. destruct (Qle_bool a b) eqn:E; cbn.
  - apply Qle_bool_iff in E. exists a. repeat split; [assumption | apply Qle_refl | assumption].
  - apply Qle_bool_false in E. exists b.
    repeat split; [assumption | now apply Qlt_le_weak | apply Qle_refl].
Qed.

Lemma ofNat_nonneg (n : nat) : (0 <= inject_Z (Z.of_nat n))%Q.
Proof. change 0%Q with (inject_Z 0). rewrite <- Zle_Qle. lia. Qed.



(** With a content height that is not zero the frame is finite, and the
    effective line height is at least 1. *)
Lemma frameOf_finite (st : MinimapSettings) (dw : num) (dh : Q) (e : Scroller) :
  ~ (scrollHeight e == 0)%Q ->
  exists k e0 : Q,
    scale (frameOf st dw (Fin dh) e) = Fin k /\
    effectiveLineHeight (frameOf st dw (Fin dh) e) = Fin e0 /\ (1 <= e0)%Q.
Proof.
  intros Hne.
  assert (E0 : Qeq_bool (scrollHeight e) 0 = false).
  { apply not_true_iff_false. now rewrite Qeq_bool_iff. }
  cbn [frameOf scale effectiveLineHeight numDiv]. rewrite E0.
  cbn [numFloor].
  destruct (numMax_Fin 1 (inject_Z (Qfloor (lineHeight st * lineSpacing st))))
    as (base & -> & _ & _).
  cbn [numMul].
  destruct (numMax_Fin 1 (base * (dh / scrollHeight e))) as (e0 & -> & H1 & _).
  eauto.
Qed.

(** X8.  With a content height that is not zero, every rectangle the
    loop issues for a line is at least 1 high, at the [y] of the line, and
    a line is only painted when that [y] is within one scaled line height
    of the surface: [-height <= y <= displayHeight + height]. *)
Theorem line_marks_height_and_window (b : Browser) (st : MinimapSettings)
    (dw : num) (dh : Q) (e : Scroller) (line : DocLine) (g : Ctx2D) :
  ~ (scrollHeight e == 0)%Q ->
  let f := frameOf st dw (Fin dh) e in
  exists y height : Q,
    lineY f line = Fin y /\ scaledLineHeight f line = Fin height /\
    (1 <= height)%Q /\
    (issuedBy (paintLine b st f line) g <> [] ->
     (- height <= y <= dh + height)%Q) /\
    Forall (fun d => rectY d = Fin y /\ exists h, rectH d = Fin h /\ (1 <= h)%Q)
           (issuedBy (paintLine b st f line) g).
Proof.
  intros Hne f.
  destruct (frameOf_finite st dw dh e Hne) as (k & e0 & Hk & He0 & H1).
  fold f in Hk, He0.
  assert (Hy : lineY f line = Fin (inject_Z (Qfloor (blockTop line * k)))).
  { unfold lineY. now rewrite Hk. }
  assert (HH : exists height, scaledLineHeight f line = Fin height /\ (1 <= height)%Q).
  { unfold scaledLineHeight. rewrite Hk, He0. cbn [numMul numFloor].
    destruct (numMax_Fin e0 (inject_Z (Qfloor (blockHeight line * k))))
      as (hh & -> & Hh & _).
    exists hh. split; [reflexivity | lra]. }
  destruct HH as (height & HH & Hh1).
  exists (inject_Z (Qfloor (blockTop line * k))), height.
  split; [exact Hy|]. split; [exact HH|]. split; [exact Hh1|].
  set (y := inject_Z (Qfloor (blockTop line * k))) in *.
  assert (Hdh : displayHeight f = Fin dh) by reflexivity.
  unfold issuedBy, paintLine.
  fold (lineY f line). fold (scaledLineHeight f line). rewrite Hy, HH, Hdh.
  cbn [numNeg numAdd numLt numGt]. unfold Qlt_bool.
  destruct (Qle_bool (- height) y) eqn:C1; cbn [negb orb];
    [|split; [rewrite List.skipn_all; congruence
             | rewrite List.skipn_all; constructor]].
  destruct (Qle_bool y (dh + height)) eqn:C2; cbn [negb];
    [|split; [rewrite List.skipn_all; congruence
             | rewrite List.skipn_all; constructor]].
  apply Qle_bool_iff in C1, C2. split; [intros _; now split|].
  destruct (classifyLine st (lineText line));
    try (match goal with
         | |- context [fillRect ?x ?yy ?w ?h (setFillStyle ?b ?c ?g)] =>
             destruct (fillRect_after_style b c x yy w h g)
               as (d & E & _ & Hdy & _ & Hdh')
         end).
  - rewrite (issued_from _ _ _ E). constructor; [|constructor].
    split; [exact Hdy|]. rewrite Hdh'. cbn [numMul]. eexists. split; [reflexivity|].
    lra.
  - cbn [strokeRect issue calls]. rewrite setStrokeStyle_calls, E, <- app_assoc.
    rewrite List.skipn_app, List.skipn_all, Nat.sub_diag. cbn [List.skipn app].
    constructor; [|constructor; [|constructor]].
    + split; [exact Hdy|]. rewrite Hdh'. cbn [numMul]. eexists.
      split; [reflexivity | lra].
    + cbn [rectY rectH numMul]. split; [reflexivity|]. eexists.
      split; [reflexivity | lra].
  - rewrite (issued_from _ _ _ E). constructor; [|constructor].
    split; [exact Hdy|]. rewrite Hdh'. cbn [numMul].
    destruct (numMax_Fin (height * 1.2) 3) as (m & -> & _ & Hm).
    exists m. split; [reflexivity | lra].
  - rewrite (issued_from _ _ _ E). constructor; [|constructor].
    split; [exact Hdy|]. rewrite Hdh'.
    destruct (numMax_Fin 1.5 height) as (m & -> & Hm & _).
    exists m. split; [reflexivity | lra].
  - rewrite (issued_from _ _ _ E). constructor; [|constructor].
    split; [exact Hdy|]. rewrite Hdh'.
    destruct (numMax_Fin 1 height) as (m & -> & Hm & _).
    exists m. split; [reflexivity | lra].
  - rewrite (issued_from _ _ _ E). constructor; [|constructor].
    split; [exact Hdy|]. rewrite Hdh'. cbn [numMul].
    destruct (numMax_Fin 1 (height * 0.8)) as (m & -> & Hm & _).
    exists m. split; [reflexivity | lra].
  - rewrite List.skipn_all. constructor.
Qed.

Lemma line_marks_height_and_window_witness :
  exists y height : Q,
    lineY (frameOf DEFAULT_SETTINGS (Fin 75) (Fin 400) exampleScroller)
      {| lineText := "# Title"; blockTop := 0; blockHeight := 30 |} = Fin y /\
    scaledLineHeight (frameOf DEFAULT_SETTINGS (Fin 75) (Fin 400) exampleScroller)
      {| lineText := "# Title"; blockTop := 0; blockHeight := 30 |} = Fin height /\
    (1 <= height)%Q.
Proof.
  destruct (line_marks_height_and_window exampleBrowser DEFAULT_SETTINGS
              (Fin 75) 400 exampleScroller
              {| lineText := "# Title"; blockTop := 0; blockHeight := 30 |}
              freshContext)
    as (y & height & Hy & Hh & H1 & _).
  - cbn. intros H. discriminate H.
  - exists y, height. repeat split; assumption.
Defined.

(* ===================================================================== *)
(** * Further properties: loading and saving *)
(* ===================================================================== *)

(** The typed reading looks at the keys of the interface only. *)
Lemma readSettings_ext (o o' : SettingsObject) :
  (forall k, In k fieldNames -> o !! k = o' !! k) ->
  readSettings o = readSettings o'.
Proof.
  intros H. unfold readSettings, getStrings, getNumber, getBoolean, getString.
  repeat match goal with
         | |- context [o !! ?k] =>
             rewrite (H k) by (unfold fieldNames; cbn [In]; tauto)
         end.
  reflexivity.
Qed.

Lemma fieldNames_not_indices (k : string) (i : nat) :
  In k fieldNames -> k <> indexKey i.
Proof.
  intros Hk ->. unfold indexKey in Hk.
  assert (Hnone : NilEmpty.uint_of_string
                    (NilEmpty.string_of_uint (Nat.to_uint i)) = None).
  { unfold fieldNames in Hk. cbn [In] in Hk.
    repeat (destruct Hk as [<-|Hk]; [reflexivity|]). contradiction. }
  rewrite NilEmpty.usu in Hnone. discriminate.
Qed.

Lemma indexed_entries_keys {A : Type} (g : nat -> A -> JValue) (l : list A)
    (k : string) (v : JValue) :
  In (k, v) (imap (fun i x => (indexKey i, g i x)) l) -> exists i, k = indexKey i.
Proof.
  intros Hin. apply (proj2 (list_elem_of_In _ _)) in Hin.
  apply elem_of_lookup_imap in Hin as (i & y & [= -> _] & _). eauto.
Qed.

(** X9.  Persisted data that is not an object never reaches the settings:
    for [null], a boolean, a number, a string or an array, every key of the
    settings interface is loaded with its default.  (The indices of a string
    or of an array are copied as extra keys; no setting has such a name.) *)
Theorem loadSettings_non_object_gives_defaults (data : JValue) :
  isObject data = false ->
  (forall k, In k fieldNames ->
     loadSettings (LoadReturns data) !! k = settingsObject DEFAULT_SETTINGS !! k) /\
  readSettings (loadSettings (LoadReturns data)) = Some DEFAULT_SETTINGS.
Proof.
  intros Hobj.
  assert (H : forall k, In k fieldNames ->
     loadSettings (LoadReturns data) !! k = settingsObject DEFAULT_SETTINGS !! k).
  { intros k Hk. destruct (string_dec k "disabledFiles") as [->|Hne].
    - unfold loadSettings. destruct (truthy data); [|reflexivity].
      rewrite fold_assignKey_other by now left.
      replace (disabledFilesOf data) with (@None JValue)
        by (destruct data; try reflexivity; discriminate Hobj).
      cbn [isArray]. rewrite lookup_insert_eq. symmetry. apply default_disabledFiles.
    - apply loadSettings_missing; [assumption|]. intros v Hin.
      destruct data as [| | |s|l|m]; cbn [ownEntries] in Hin;
        try contradiction; try discriminate Hobj.
      + apply indexed_entries_keys in Hin as [i ->].
        now apply (fieldNames_not_indices _ i Hk).
      + apply (indexed_entries_keys (fun _ x => x)) in Hin as [i ->].
        now apply (fieldNames_not_indices _ i Hk). }
  split; [exact H|].
  rewrite (readSettings_ext _ _ H). apply readSettings_settingsObject_default.
Qed.

Lemma loadSettings_non_object_gives_defaults_witness :
  readSettings (loadSettings (LoadReturns (JArr [JNum 5; JStr "width"])))
  = Some DEFAULT_SETTINGS.
Proof.
  apply (loadSettings_non_object_gives_defaults (JArr [JNum 5; JStr "width"])).
  reflexivity.
Defined.

(** X10.  Saving and loading is a round trip: from what [saveSettings]
    writes, [loadSettings] builds a settings object whose typed reading is
    the settings that were saved, whatever they are. *)
Theorem save_then_load_round_trip (st : MinimapSettings) :
  readSettings (settingsObject st) = Some st /\
  readSettings (loadSettings (LoadReturns (saveSettings st))) = Some st.
Proof.
  split; [|apply load_after_save].
  destruct st as [files ? ? ? ? ? ? ? ? ? ? ? ? ? ? ? ? ? ? ? ? ? ? ? ? ? ? ?].
  pose proof (mapM_asString files) as Hm.
  unfold settingsObject. cbn [disabledFiles].
  set (arr := List.map JStr files) in *. clearbody arr.
  revert Hm. vm_compute. intros ->. reflexivity.
Qed.

(* ===================================================================== *)
(** * Further properties: the embed pattern *)
(* ===================================================================== *)

Lemma append_cons (a : ascii) (p r : string) :
  (String a p ++ r)%string = String a (p ++ r)%string.
Proof. reflexivity. Qed.

Lemma startsWith_split (s p : string) :
  startsWith s p = true -> s = (p ++ sliceFrom (String.length p) s)%string.
Proof.
  revert s. induction p as [|a p IH]; intros s H; [reflexivity|].
  destruct s as [|b s]; [discriminate|]. cbn in H.
  apply andb_true_iff in H as [Hab Hp]. apply Ascii.eqb_eq in Hab as ->.
  cbn [sliceFrom String.length]. rewrite append_cons. f_equal. now apply IH.
Qed.

Lemma startsWith_append (p r : string) : startsWith (p ++ r)%string p = true.
Proof.
  induction p as [|a p IH]; [now destruct r|].
  rewrite append_cons. cbn [startsWith]. now rewrite Ascii.eqb_refl.
Qed.

Lemma wikiMatch_cons (c : ascii) (r : string) :
  wikiMatch (String c r) =
  match (if startsWith (String c r) "![["
         then lazyUntilClose (sliceFrom 3 (String c r)) else None) with
  | Some embedPath => Some embedPath
  | None => wikiMatch r
  end.
Proof. reflexivity. Qed.

Lemma lazyUntilClose_sound (s p : string) :
  lazyUntilClose s = Some p ->
  exists post, s = (p ++ "]]" ++ post)%string /\ noLineTerminator p.
Proof.
  revert p. induction s as [|c r IH]; intros p H.
  - cbn in H. discriminate H.
  - cbn [lazyUntilClose] in H.
    destruct (startsWith (String c r) "]]") eqn:Es.
    + injection H as <-. apply startsWith_split in Es.
      eexists. split; [exact Es | constructor].
    + destruct (isLineTerminator c) eqn:Ec; [discriminate H|].
      destruct (lazyUntilClose r) as [p'|]; [|discriminate H].
      injection H as <-. destruct (IH p' eq_refl) as (post & -> & Hp').
      exists post. split; [reflexivity | now constructor].
Qed.

Lemma lazyUntilClose_complete (p post : string) :
  noLineTerminator p -> is_Some (lazyUntilClose (p ++ "]]" ++ post)%string).
Proof.
  induction p as [|c r IH]; intros Hp.
  - change ((EmptyString ++ "]]" ++ post)%string)
      with (String "]" (String "]" post)).
    cbn [lazyUntilClose startsWith]. rewrite !Ascii.eqb_refl.
    destruct post; cbn; eauto.
  - apply Forall_cons in Hp as [Hc Hr].
    change ((String c r ++ "]]" ++ post)%string)
      with (String c (r ++ "]]" ++ post)%string).
    cbn [lazyUntilClose]. destruct (startsWith _ "]]"); [eauto|].
    rewrite Hc. destruct (IH Hr) as [q ->]. cbn. eauto.
Qed.

(** X11.  The embed test of the line loop matches exactly the lines that
    hold [![[], some units without a line terminator, and []]]; the path it
    captures is such a run of the line. *)
Theorem wikiMatch_characterised (s : string) :
  (forall p, wikiMatch s = Some p ->
     exists pre post,
       s = (pre ++ "![[" ++ p ++ "]]" ++ post)%string /\ noLineTerminator p) /\
  (is_Some (wikiMatch s) <->
   exists pre p post,
     s = (pre ++ "![[" ++ p ++ "]]" ++ post)%string /\ noLineTerminator p).
Proof.
  assert (Hsound : forall s p, wikiMatch s = Some p ->
     exists pre post,
       s = (pre ++ "![[" ++ p ++ "]]" ++ post)%string /\ noLineTerminator p).
  { clear s. induction s as [|c r IH]; intros p H; [discriminate H|].
    rewrite wikiMatch_cons in H.
    destruct (startsWith (String c r) "![[") eqn:Es.
    - destruct (lazyUntilClose (sliceFrom 3 (String c r))) as [q|] eqn:El.
      + injection H as <-. apply lazyUntilClose_sound in El as (post & El & Hq).
        apply startsWith_split in Es. cbn [String.length] in Es. rewrite El in Es.
        exists EmptyString, post. split; [exact Es | exact Hq].
      + destruct (IH p H) as (pre & post & -> & Hp).
        exists (String c pre), post. split; [reflexivity | exact Hp].
    - destruct (IH p H) as (pre & post & -> & Hp).
      exists (String c pre), post. split; [reflexivity | exact Hp]. }
  split; [apply Hsound|]. split.
  - intros [p Hp]. destruct (Hsound s p Hp) as (pre & post & ? & ?). eauto.
  - intros (pre & p & post & -> & Hp).
    induction pre as [|c pre IH].
    + change ((EmptyString ++ "![[" ++ p ++ "]]" ++ post)%string)
        with (String "!" (String "[" (String "[" (p ++ "]]" ++ post)%string))).
      rewrite wikiMatch_cons.
      change (String "!" (String "[" (String "[" (p ++ "]]" ++ post)%string)))
        with ("![[" ++ (p ++ "]]" ++ post))%string at 1.
      rewrite startsWith_append. cbn [sliceFrom].
      destruct (lazyUntilClose_complete p post Hp) as [q ->]. eauto.
    + change ((String c pre ++ "![[" ++ p ++ "]]" ++ post)%string)
        with (String c (pre ++ "![[" ++ p ++ "]]" ++ post)%string).
      rewrite wikiMatch_cons.
      destruct (if startsWith _ "![[" then _ else None); [eauto | exact IH].
Qed.

Lemma wikiMatch_characterised_witness :
  exists pre post,
    "see ![[photo.png]] here" = (pre ++ "![[" ++ "photo.png" ++ "]]" ++ post)%string /\
    noLineTerminator "photo.png".
Proof.
  apply (proj1 (wikiMatch_characterised "see ![[photo.png]] here") "photo.png").
  reflexivity.
Defined.

(* ===================================================================== *)
(** * Further properties: the image references of a document *)
(* ===================================================================== *)

Lemma append_assoc (a b c : string) :
  ((a ++ b) ++ c)%string = (a ++ b ++ c)%string.
Proof.
  induction a as [|x a IH]; [reflexivity|].
  rewrite !append_cons. now rewrite IH.
Qed.

Lemma append_nil_r (a : string) : (a ++ EmptyString)%string = a.
Proof. induction a as [|x a IH]; [reflexivity|]. rewrite append_cons. now rewrite IH. Qed.

Lemma append_length (a b : string) :
  String.length (a ++ b)%string = (String.length a + String.length b)%nat.
Proof.
  induction a as [|x a IH]; [reflexivity|].
  rewrite append_cons. cbn [String.length]. now rewrite IH.
Qed.

Lemma occursIn_refl (s : string) : occursIn s s.
Proof. exists EmptyString, EmptyString. now rewrite append_nil_r. Qed.

Lemma occursIn_trans (a b c : string) : occursIn a b -> occursIn b c -> occursIn a c.
Proof.
  intros (p1 & q1 & ->) (p2 & q2 & ->).
  exists (p2 ++ p1)%string, (q1 ++ q2)%string.
  now rewrite !append_assoc.
Qed.

Lemma occursIn_cons (c : ascii) (r s : string) : occursIn r s -> occursIn r (String c s).
Proof. intros (pre & post & ->). now exists (String c pre), post. Qed.

(** ** [trim] *)

Lemma trimStart_occurs (s : string) : occursIn (trimStart s) s.
Proof.
  induction s as [|c r IH]; [apply occursIn_refl|].
  cbn [trimStart]. destruct (isWhiteSpace c).
  - now apply occursIn_cons.
  - apply occursIn_refl.
Qed.

Lemma trimEnd_prefix (s : string) : exists ws, s = (trimEnd s ++ ws)%string.
Proof.
  induction s as [|c r [ws IH]]; [now exists EmptyString|].
  cbn [trimEnd]. destruct (trimEnd r) as [|a b] eqn:E.
  - destruct (isWhiteSpace c).
    + now exists (String c r).
    + exists r. reflexivity.
  - exists ws. rewrite append_cons. now rewrite <- IH.
Qed.

Lemma trim_occurs (s : string) : occursIn (trim s) s.
Proof.
  apply occursIn_trans with (trimStart s); [|apply trimStart_occurs].
  unfold trim. destruct (trimEnd_prefix (trimStart s)) as [ws Hws].
  exists EmptyString, ws. exact Hws.
Qed.

Lemma trimEnd_idempotent (s : string) : trimEnd (trimEnd s) = trimEnd s.
Proof.
  induction s as [|c r IH]; [reflexivity|].
  cbn [trimEnd]. destruct (trimEnd r) as [|a b] eqn:E.
  - destruct (isWhiteSpace c) eqn:Ec; [reflexivity|].
    cbn [trimEnd]. now rewrite Ec.
  - cbn [trimEnd] in IH |- *. now rewrite IH.
Qed.

Lemma trimStart_head (s : string) :
  trimStart s = EmptyString \/
  exists c r, trimStart s = String c r /\ isWhiteSpace c = false.
Proof.
  induction s as [|c r IH]; [now left|].
  cbn [trimStart]. destruct (isWhiteSpace c) eqn:Ec; [exact IH|].
  right. now exists c, r.
Qed.

Lemma trimEnd_head (c : ascii) (r : string) :
  isWhiteSpace c = false -> exists r', trimEnd (String c r) = String c r'.
Proof.
  intros Ec. cbn [trimEnd]. rewrite Ec. destruct (trimEnd r); eauto.
Qed.

Lemma trim_idempotent (s : string) : trim (trim s) = trim s.
Proof.
  unfold trim.
  assert (Hs : trimStart (trimEnd (trimStart s)) = trimEnd (trimStart s)).
  { destruct (trimStart_head s) as [-> | (c & r & -> & Ec)]; [reflexivity|].
    destruct (trimEnd_head c r Ec) as [r' ->]. cbn [trimStart]. now rewrite Ec. }
  rewrite Hs. apply trimEnd_idempotent.
Qed.

(** ** The two patterns *)

Lemma lazyUntilParen_sound (s src : string) :
  lazyUntilParen s = Some src -> exists post, s = (src ++ ")" ++ post)%string.
Proof.
  revert src. induction s as [|c r IH]; intros src H; [discriminate H|].
  cbn [lazyUntilParen] in H. destruct (Ascii.eqb c ")") eqn:Ec.
  - injection H as <-. apply Ascii.eqb_eq in Ec as ->. now exists r.
  - destruct (isLineTerminator c); [discriminate H|].
    destruct (lazyUntilParen r) as [q|]; [|discriminate H].
    injection H as <-. destruct (IH q eq_refl) as [post ->]. now exists post.
Qed.

Lemma skipAltText_sound (s rest : string) (n : nat) :
  skipAltText s = Some (rest, n) -> exists alt, s = (alt ++ "]" ++ rest)%string.
Proof.
  revert rest n. induction s as [|c r IH]; intros rest n H; [discriminate H|].
  cbn [skipAltText] in H. destruct (Ascii.eqb c "]") eqn:Ec.
  - injection H as <- <-. apply Ascii.eqb_eq in Ec as ->. now exists EmptyString.
  - destruct (skipAltText r) as [[rest' n']|]; [|discriminate H].
    injection H as <- <-. destruct (IH rest' n' eq_refl) as [alt ->].
    now exists (String c alt).
Qed.

Lemma mdImageAt_occurs (s src : string) (len : nat) :
  mdImageAt s = Some (src, len) -> occursIn src s.
Proof.
  unfold mdImageAt. destruct (startsWith s "![") eqn:Es; [|discriminate].
  apply startsWith_split in Es. cbn [String.length] in Es.
  destruct (skipAltText (sliceFrom 2 s)) as [[rest n]|] eqn:Ea; [|discriminate].
  apply skipAltText_sound in Ea as [alt Ea].
  destruct rest as [|c rest]; [discriminate|].
  destruct (Ascii.eqb c "(") eqn:Ec.
  - apply Ascii.eqb_eq in Ec as ->.
    destruct (lazyUntilParen rest) as [q|] eqn:El; [|discriminate].
    intros H. injection H as <- _.
    apply lazyUntilParen_sound in El as [post ->].
    exists ("![" ++ alt ++ "](")%string, (")" ++ post)%string.
    rewrite Es, Ea. now rewrite !append_assoc.
  - intros H. exfalso. revert H Ec.
    destruct c as [[] [] [] [] [] [] [] []]; cbn; congruence.
Qed.

Lemma wikiImageAt_occurs (s p : string) (len : nat) :
  wikiImageAt s = Some (p, len) -> occursIn p s.
Proof.
  unfold wikiImageAt. destruct (startsWith s "![[") eqn:Es; [|discriminate].
  apply startsWith_split in Es. cbn [String.length] in Es.
  destruct (lazyUntilClose (sliceFrom 3 s)) as [q|] eqn:El; [|discriminate].
  intros H. injection H as <- _.
  apply lazyUntilClose_sound in El as (post & El & _).
  exists "![["%string, ("]]" ++ post)%string. now rewrite Es, El.
Qed.

Lemma execAll_cons (matchAt : string -> option (string * nat)) (skip : nat)
    (c : ascii) (r : string) :
  execAll matchAt skip (String c r) =
  match skip with
  | S k => execAll matchAt k r
  | O =>
      match matchAt (String c r) with
      | Some (capture, len) => capture :: execAll matchAt (len - 1) r
      | None => execAll matchAt 0 r
      end
  end.
Proof. reflexivity. Qed.

Lemma execAll_occurs (matchAt : string -> option (string * nat)) :
  (forall s capture len, matchAt s = Some (capture, len) -> occursIn capture s) ->
  forall s skip capture, In capture (execAll matchAt skip s) -> occursIn capture s.
Proof.
  intros Hm. induction s as [|c r IH]; intros skip capture H; [destruct H|].
  rewrite execAll_cons in H. destruct skip as [|k].
  - destruct (matchAt (String c r)) as [[cap len]|] eqn:E.
    + destruct H as [<- | H]; [now apply Hm with len|].
      apply occursIn_cons. now apply IH with (len - 1)%nat.
    + apply occursIn_cons. now apply IH with O.
  - apply occursIn_cons. now apply IH with k.
Qed.

(** X12.  Every path [parseContentForImages] returns is not empty, ends in
    one of the image extensions, carries no white space at either end, and
    occurs in the content. *)
Theorem parseContentForImages_results (content src : string) :
  In src (parseContentForImages content) ->
  src <> EmptyString /\ isImagePath src = true /\ trim src = src /\
  occursIn src content.
Proof.
  assert (Hone : forall matchAt,
    (forall s capture len, matchAt s = Some (capture, len) -> occursIn capture s) ->
    In src (List.filter keepImage (List.map trim (execAll matchAt 0 content))) ->
    src <> EmptyString /\ isImagePath src = true /\ trim src = src /\
    occursIn src content).
  { intros matchAt Hm H. apply List.filter_In in H as [H Hk].
    apply List.in_map_iff in H as (capture & <- & H).
    unfold keepImage in Hk. apply andb_true_iff in Hk as [Hne Himg].
    apply negb_true_iff, String.eqb_neq in Hne.
    repeat split; [exact Hne | exact Himg | apply trim_idempotent |].
    apply occursIn_trans with capture; [apply trim_occurs|].
    now apply execAll_occurs with matchAt O. }
  unfold parseContentForImages. intros H. apply List.in_app_iff in H as [H | H].
  - apply (Hone mdImageAt); [apply mdImageAt_occurs | exact H].
  - apply (Hone wikiImageAt); [apply wikiImageAt_occurs | exact H].
Qed.

Lemma parseContentForImages_results_witness :
  "pic.png"%string <> EmptyString /\ isImagePath "pic.png" = true /\
  trim "pic.png" = "pic.png"%string /\
  occursIn "pic.png" "text ![alt]( pic.png ) end".
Proof.
  apply (parseContentForImages_results "text ![alt]( pic.png ) end" "pic.png").
  left. reflexivity.
Defined.

(** ** The renderer's picture test and the preloader *)

Lemma isWhiteSpace_lowerChar (c : ascii) : isWhiteSpace (lowerChar c) = isWhiteSpace c.
Proof. destruct c as [[] [] [] [] [] [] [] []]; reflexivity. Qed.

Lemma toLowerCase_trimStart (s : string) :
  toLowerCase (trimStart s) = trimStart (toLowerCase s).
Proof.
  induction s as [|c r IH]; [reflexivity|].
  cbn [trimStart toLowerCase]. rewrite isWhiteSpace_lowerChar.
  destruct (isWhiteSpace c); [exact IH | reflexivity].
Qed.

Lemma toLowerCase_trimEnd (s : string) :
  toLowerCase (trimEnd s) = trimEnd (toLowerCase s).
Proof.
  induction s as [|c r IH]; [reflexivity|].
  cbn [trimEnd toLowerCase]. rewrite <- IH, isWhiteSpace_lowerChar.
  destruct (trimEnd r) as [|a b]; cbn [toLowerCase]; [|reflexivity].
  now destruct (isWhiteSpace c).
Qed.

Lemma toLowerCase_trim (s : string) : toLowerCase (trim s) = trim (toLowerCase s).
Proof. unfold trim. now rewrite toLowerCase_trimEnd, toLowerCase_trimStart. Qed.

Lemma sliceFrom_split (n : nat) (s : string) :
  (n <= String.length s)%nat ->
  exists pre, s = (pre ++ sliceFrom n s)%string /\ String.length pre = n.
Proof.
  revert s. induction n as [|n IH]; intros s Hn.
  - exists EmptyString. split; [now destruct s | reflexivity].
  - destruct s as [|c r]; [cbn in Hn; lia|]. cbn [String.length] in Hn.
    destruct (IH r ltac:(lia)) as (pre & Hr & Hl).
    exists (String c pre). cbn [sliceFrom String.length].
    rewrite append_cons. split; [now rewrite <- Hr | now rewrite Hl].
Qed.

Lemma sliceFrom_append (pre e : string) : sliceFrom (String.length pre) (pre ++ e)%string = e.
Proof.
  induction pre as [|c r IH]; [now destruct e|].
  rewrite append_cons. exact IH.
Qed.

Lemma endsWith_split (s e : string) :
  endsWith s e = true -> exists pre, s = (pre ++ e)%string.
Proof.
  unfold endsWith. intros H. apply andb_true_iff in H as [Hl He].
  apply Nat.leb_le in Hl. apply String.eqb_eq in He.
  destruct (sliceFrom_split (String.length s - String.length e) s ltac:(lia))
    as (pre & Hs & _).
  exists pre. rewrite He in Hs. exact Hs.
Qed.

Lemma endsWith_append (pre e : string) : endsWith (pre ++ e)%string e = true.
Proof.
  unfold endsWith. rewrite append_length. apply andb_true_iff. split.
  - apply Nat.leb_le. lia.
  - replace (String.length pre + String.length e - String.length e)%nat
      with (String.length pre) by lia.
    rewrite sliceFrom_append. apply String.eqb_refl.
Qed.

Lemma trimEnd_solid (e : string) : noWhiteSpace e = true -> trimEnd e = e.
Proof.
  induction e as [|c r IH]; [reflexivity|].
  unfold noWhiteSpace. cbn [list_ascii_of_string forallb].
  intros H. apply andb_true_iff in H as [Hc Hr]. apply negb_true_iff in Hc.
  cbn [trimEnd]. rewrite (IH Hr), Hc. now destruct r.
Qed.

Lemma trimEnd_append_solid (x e : string) :
  noWhiteSpace e = true -> e <> EmptyString -> trimEnd (x ++ e)%string = (x ++ e)%string.
Proof.
  intros He Hne. induction x as [|a x IH]; [now apply trimEnd_solid|].
  rewrite append_cons. cbn [trimEnd]. rewrite IH.
  destruct (x ++ e)%string eqn:E; [|reflexivity].
  exfalso. destruct x; [now apply Hne | discriminate E].
Qed.

Lemma trimStart_append_solid (x e : string) :
  noWhiteSpace e = true -> e <> EmptyString ->
  trimStart (x ++ e)%string = (trimStart x ++ e)%string.
Proof.
  intros He Hne. induction x as [|a x IH].
  - destruct e as [|c r]; [contradiction|].
    unfold noWhiteSpace in He. cbn [list_ascii_of_string forallb] in He.
    apply andb_true_iff in He as [Hc _]. apply negb_true_iff in Hc.
    change (EmptyString ++ String c r)%string with (String c r).
    cbn [trimStart]. now rewrite Hc.
  - rewrite append_cons. cbn [trimStart].
    destruct (isWhiteSpace a); [exact IH | now rewrite append_cons].
Qed.

Lemma trim_append_solid (x e : string) :
  noWhiteSpace e = true -> e <> EmptyString ->
  trim (x ++ e)%string = (trimStart x ++ e)%string.
Proof.
  intros He Hne. unfold trim.
  now rewrite trimStart_append_solid, trimEnd_append_solid.
Qed.

Lemma extensions_solid :
  List.Forall (fun ext => noWhiteSpace ext = true /\ ext <> EmptyString) IMAGE_EXTENSIONS.
Proof. repeat constructor; discriminate. Qed.

(** White space around a path does not undo the picture test. *)
Lemma isImagePath_trim (path : string) :
  isImagePath path = true ->
  isImagePath (trim path) = true /\ trim path <> EmptyString.
Proof.
  unfold isImagePath. cbn zeta. intros H.
  apply List.existsb_exists in H as (ext & Hin & He).
  destruct (proj1 (List.Forall_forall _ _) extensions_solid ext Hin) as [Hs Hne].
  apply endsWith_split in He as [pre He].
  assert (Ht : toLowerCase (trim path) = (trimStart pre ++ ext)%string).
  { now rewrite toLowerCase_trim, He, trim_append_solid. }
  split.
  - apply List.existsb_exists. exists ext. split; [exact Hin|].
    rewrite Ht. apply endsWith_append.
  - intros E. rewrite E in Ht. cbn [toLowerCase] in Ht.
    destruct (trimStart pre); [now apply Hne | discriminate Ht].
Qed.

Lemma execAll_wiki_first (s p : string) :
  wikiMatch s = Some p -> exists rest, execAll wikiImageAt 0 s = p :: rest.
Proof.
  induction s as [|c r IH]; intros H; [discriminate H|].
  rewrite wikiMatch_cons in H. rewrite execAll_cons. unfold wikiImageAt.
  destruct (startsWith (String c r) "![[").
  - destruct (lazyUntilClose (sliceFrom 3 (String c r))) as [q|].
    + injection H as <-. cbn [option_map]. eauto.
    + exact (IH H).
  - exact (IH H).
Qed.

(** X13.  A line the renderer paints as a picture is a line whose picture
    the preloader finds: the path of the embed, without the white space
    around it, is among the image references of the line. *)
Theorem painted_pictures_are_collected (st : MinimapSettings) (line : string) :
  classifyLine st line = ImageEmbed ->
  exists embedPath,
    wikiMatch line = Some embedPath /\
    In (trim embedPath) (parseContentForImages line).
Proof.
  unfold classifyLine. destruct (wikiMatch line) as [p|] eqn:Hm.
  - destruct (isImagePath p) eqn:Hi; [|discriminate]. intros _.
    exists p. split; [reflexivity|].
    destruct (execAll_wiki_first line p Hm) as [rest Hr].
    destruct (isImagePath_trim p Hi) as [Hti Htn].
    unfold parseContentForImages. apply List.in_app_iff. right.
    apply List.filter_In. split.
    + apply List.in_map. rewrite Hr. now left.
    + unfold keepImage. rewrite Hti. apply andb_true_iff. split; [|reflexivity].
      now apply negb_true_iff, String.eqb_neq.
  - repeat match goal with |- context [if ?b then _ else _] => destruct b end;
      discriminate.
Qed.

Lemma painted_pictures_are_collected_witness :
  exists embedPath,
    wikiMatch "see ![[photo.png]] here" = Some embedPath /\
    In (trim embedPath) (parseContentForImages "see ![[photo.png]] here").
Proof.
  apply (painted_pictures_are_collected DEFAULT_SETTINGS "see ![[photo.png]] here").
  reflexivity.
Defined.

(* ===================================================================== *)
(** * Further properties: attaching and detaching *)
(* ===================================================================== *)

Lemma remove_added_listener (type : string) (cb : Callback) (ls : list Listener) :
  List.filter (Listener_eqb {| eventType := type; callback := cb |}) ls = [] ->
  removeEventListener type cb (addEventListener type cb ls) = ls.
Proof.
  intros Hn. unfold addEventListener, removeEventListener. cbv zeta.
  set (l := {| eventType := type; callback := cb |}) in *.
  assert (Hall : List.Forall (fun x => Listener_eqb l x = false) ls).
  { apply List.Forall_forall. intros x Hx.
    destruct (Listener_eqb l x) eqn:E; [|reflexivity].
    assert (Hin : In x (List.filter (Listener_eqb l) ls))
      by (apply List.filter_In; split; assumption).
    rewrite Hn in Hin. destruct Hin. }
  assert (He : existsb (Listener_eqb l) ls = false).
  { destruct (existsb (Listener_eqb l) ls) eqn:E; [|reflexivity].
    apply List.existsb_exists in E as (x & Hx & E).
    rewrite (proj1 (List.Forall_forall _ _) Hall x Hx) in E. discriminate E. }
  rewrite He. rewrite List.filter_app. cbn [List.filter].
  rewrite (proj2 (Listener_eqb_eq l l) eq_refl). cbn [negb].
  rewrite List.app_nil_r. clear Hn He.
  induction Hall as [|x r Hx _ IH]; [reflexivity|].
  cbn [List.filter]. rewrite Hx. cbn [negb]. now rewrite IH.
Qed.

(** X14.  [detach] undoes [attach] everywhere but on [document]: for a
    view without a canvas whose scroller does not hold [onEditorScroll]
    yet, attaching and then detaching gives back the settings, the
    dragging flag, the view with its scroller and listeners, and no
    canvas. *)
Theorem detach_undoes_attach_off_document (w : World) (v : MarkdownView) :
  view w = Some v -> canvas w = None -> scrollRegistrations w = 0%nat ->
  settings (detach (attach w)) = settings w /\
  isDragging (detach (attach w)) = isDragging w /\
  view (detach (attach w)) = view w /\
  canvas (detach (attach w)) = None /\
  browser (detach (attach w)) = browser w.
Proof.
  intros Hv Hc Hs. rewrite detach_unfold. cbn [settings isDragging view canvas browser].
  unfold attach. rewrite Hv, Hc.
  match goal with
  | |- context [update ?x] =>
      destruct (update_frame x) as (-> & -> & -> & -> & _)
  end.
  cbn [settings isDragging view browser]. repeat split.
  unfold scrollRegistrations in Hs. rewrite Hv in Hs.
  destruct v as [f [e|] m]; cbn [scroller withScroller] in *; [|reflexivity].
  do 2 f_equal. cbn [scrollListeners withScrollListeners].
  apply List.length_zero_iff_nil in Hs.
  rewrite (remove_added_listener "scroll" OnEditorScroll _ Hs).
  now destruct e.
Qed.

Lemma detach_undoes_attach_off_document_witness :
  settings (detach attachedWorld) = DEFAULT_SETTINGS /\
  isDragging (detach attachedWorld) = false /\
  view (detach attachedWorld) = Some exampleView /\
  canvas (detach attachedWorld) = None /\
  browser (detach attachedWorld) = exampleBrowser.
Proof.
  apply (detach_undoes_attach_off_document
           (worldOf DEFAULT_SETTINGS (Some exampleView)) exampleView);
    reflexivity.
Defined.

(* ===================================================================== *)
(** * Further properties: the plugin and its renderers *)
(* ===================================================================== *)

Import MinimapPlugin.

(** ** The map *)

Lemma mapHas_mapSet (leaf k : nat) (r : option Canvas) (m : list (nat * option Canvas)) :
  mapHas leaf (mapSet k r m) = mapHas leaf m || (k =? leaf)%nat.
Proof.
  induction m as [|[k0 r0] m IH]; [cbn; now rewrite orb_false_r|].
  cbn [mapSet]. destruct (k0 =? k)%nat eqn:E.
  - apply Nat.eqb_eq in E as ->. cbn. destruct (k =? leaf)%nat; [reflexivity|].
    now rewrite orb_false_r.
  - unfold mapHas in *. cbn [existsb fst]. rewrite IH. now rewrite orb_assoc.
Qed.

Lemma mapHas_mapDelete (leaf k : nat) (m : list (nat * option Canvas)) :
  mapHas leaf (mapDelete k m) = mapHas leaf m && negb (k =? leaf)%nat.
Proof.
  induction m as [|[k0 r0] m IH]; [reflexivity|].
  unfold mapHas, mapDelete in *. cbn [List.filter fst existsb].
  destruct (Nat.eqb_spec k0 k) as [->|Hk]; cbn [negb existsb fst]; rewrite IH.
  - destruct (Nat.eqb_spec k leaf); cbn; [now rewrite andb_false_r | reflexivity].
  - destruct (Nat.eqb_spec k0 leaf) as [->|Hl]; cbn; [|reflexivity].
    destruct (Nat.eqb_spec k leaf); [congruence | reflexivity].
Qed.

Lemma mapHas_keys (leaf : nat) (m : list (nat * option Canvas)) :
  mapHas leaf m = true <-> In leaf (List.map fst m).
Proof.
  unfold mapHas. rewrite List.existsb_exists, List.in_map_iff. split.
  - intros (e & He & Hk). apply Nat.eqb_eq in Hk. eauto.
  - intros (e & Hk & He). exists e. split; [exact He | now apply Nat.eqb_eq].
Qed.

Lemma mapGet_None (leaf : nat) (m : list (nat * option Canvas)) :
  mapGet leaf m = None <-> mapHas leaf m = false.
Proof.
  induction m as [|[k r] m IH]; [easy|].
  cbn [mapGet]. unfold mapHas in *. cbn [existsb fst].
  destruct (k =? leaf)%nat; cbn; [easy | exact IH].
Qed.

Lemma mapSet_keys (k : nat) (r : option Canvas) (m : list (nat * option Canvas)) :
  mapHas k m = true -> List.map fst (mapSet k r m) = List.map fst m.
Proof.
  induction m as [|[k0 r0] m IH]; [discriminate|].
  unfold mapHas. cbn [existsb fst mapSet]. destruct (k0 =? k)%nat; [reflexivity|].
  cbn [orb]. intros H. cbn [List.map fst]. now rewrite IH.
Qed.

Lemma mapSet_new (k : nat) (r : option Canvas) (m : list (nat * option Canvas)) :
  mapHas k m = false -> mapSet k r m = m ++ [(k, r)].
Proof.
  induction m as [|[k0 r0] m IH]; [reflexivity|].
  unfold mapHas. cbn [existsb fst mapSet]. destruct (k0 =? k)%nat; [discriminate|].
  cbn [orb]. intros H. cbn. now rewrite IH.
Qed.

(** ** A method called through the map *)

Lemma onMinimap_unfold (method : World -> World) (leaf : nat) (p : Plugin) :
  onMinimap method leaf p =
  match mapGet leaf (minimaps p) with
  | None => p
  | Some c =>
      let w := method (rendererWorld p leaf c) in
      withMinimaps (fst (runRenderer method leaf c p))
                   (mapSet leaf (canvas w) (minimaps p))
  end.
Proof. unfold onMinimap. destruct (mapGet leaf (minimaps p)); reflexivity. Qed.

Lemma onMinimap_keys (method : World -> World) (leaf : nat) (p : Plugin) :
  List.map fst (minimaps (onMinimap method leaf p)) = List.map fst (minimaps p).
Proof.
  rewrite onMinimap_unfold. destruct (mapGet leaf (minimaps p)) eqn:E; [|reflexivity].
  cbn. apply mapSet_keys. destruct (mapHas leaf (minimaps p)) eqn:Eh; [reflexivity|].
  apply mapGet_None in Eh. congruence.
Qed.

Lemma onMinimap_has (method : World -> World) (leaf l : nat) (p : Plugin) :
  mapHas l (minimaps (onMinimap method leaf p)) = mapHas l (minimaps p).
Proof.
  apply eq_true_iff_eq. rewrite !mapHas_keys. now rewrite onMinimap_keys.
Qed.

Lemma runRenderer_views (method : World -> World) (leaf l : nat)
    (c : option Canvas) (p : Plugin) :
  keepsView method ->
  is_Some (leafViews (fst (runRenderer method leaf c p)) !! l) <->
  is_Some (leafViews p !! l).
Proof.
  intros Hk. unfold runRenderer. cbn [fst leafViews].
  specialize (Hk (rendererWorld p leaf c)). cbn [rendererWorld view] in Hk.
  destruct (view (method (rendererWorld p leaf c))) as [v|]; [|reflexivity].
  destruct (decide (leaf = l)) as [->|Hne].
  - rewrite lookup_insert_eq. split; [intros _; apply Hk; eauto | eauto].
  - now rewrite lookup_insert_ne.
Qed.

Lemma onMinimap_views (method : World -> World) (leaf l : nat) (p : Plugin) :
  keepsView method ->
  is_Some (leafViews (onMinimap method leaf p) !! l) <-> is_Some (leafViews p !! l).
Proof.
  intros Hk. rewrite onMinimap_unfold.
  destruct (mapGet leaf (minimaps p)) as [c|]; [|reflexivity].
  cbn [withMinimaps leafViews]. now apply runRenderer_views.
Qed.

Lemma keepsView_update : keepsView update.
Proof. intros w. now rewrite (proj1 (proj2 (update_frame w))). Qed.

Lemma keepsView_syncVisibility : keepsView syncVisibility.
Proof. intros w. now rewrite syncVisibility_view. Qed.

Lemma keepsView_detach : keepsView detach.
Proof.
  intros w. rewrite detach_unfold. cbn [view].
  destruct (view w); split; eauto.
Qed.

Lemma keepsView_attach : keepsView attach.
Proof.
  intros w. unfold attach. destruct (view w) as [v|] eqn:Hv; [|now rewrite Hv].
  destruct (canvas w); [now rewrite Hv|].
  rewrite (proj1 (proj2 (update_frame _))). cbn [view]. split; eauto.
Qed.

(** ** The registry after a layout change *)

Lemma createMinimap_unfold (l : nat) (p : Plugin) :
  createMinimap (Some l) p =
  match leafViews p !! l with
  | None => p
  | Some _ =>
      if mapHas l (minimaps p) then p
      else
        let w := attach (rendererWorld p l None) in
        let p1 := fst (runRenderer attach l None p) in
        let p2 := match match leafViews p1 !! l with
                        | Some v => scroller v
                        | None => None
                        end with
                  | Some _ => withDomEvents p1 (domEvents p1 ++ [l])
                  | None => p1
                  end in
        onMinimap syncVisibility l
          (withMinimaps p2 (mapSet l (canvas w) (minimaps p)))
  end.
Proof.
  unfold createMinimap. destruct (leafViews p !! l); [|reflexivity].
  destruct (mapHas l (minimaps p)); [reflexivity|].
  unfold runRenderer. cbn [fst leafViews].
  destruct (match _ !! l with Some v => scroller v | None => None end); reflexivity.
Qed.

Lemma createMinimap_has (k l : nat) (p : Plugin) :
  mapHas l (minimaps (createMinimap (Some k) p)) =
  mapHas l (minimaps p) || ((k =? l)%nat && bool_decide (is_Some (leafViews p !! k))).
Proof.
  rewrite createMinimap_unfold. destruct (leafViews p !! k) as [v|] eqn:Hv.
  - rewrite (bool_decide_eq_true_2 _ (mk_is_Some _ _ eq_refl)), andb_true_r.
    destruct (mapHas k (minimaps p)) eqn:Hk.
    + destruct (Nat.eqb_spec k l) as [<-|]; [now rewrite Hk | now rewrite orb_false_r].
    + cbv zeta. rewrite onMinimap_has. cbn [withMinimaps minimaps].
      apply mapHas_mapSet.
  - rewrite bool_decide_eq_false_2 by (intros [? ?]; discriminate).
    now rewrite andb_false_r, orb_false_r.
Qed.

Lemma createMinimap_views (leaf : option nat) (l : nat) (p : Plugin) :
  is_Some (leafViews (createMinimap leaf p) !! l) <-> is_Some (leafViews p !! l).
Proof.
  destruct leaf as [k|]; [|reflexivity]. rewrite createMinimap_unfold.
  destruct (leafViews p !! k) as [v|]; [|reflexivity].
  destruct (mapHas k (minimaps p)); [reflexivity|]. cbv zeta.
  rewrite (onMinimap_views _ _ _ _ keepsView_syncVisibility).
  cbn [withMinimaps leafViews].
  rewrite <- (runRenderer_views attach k l None p keepsView_attach).
  destruct (match _ !! k with Some v => scroller v | None => None end); reflexivity.
Qed.

Lemma existsb_eqb_In (l : nat) (ls : list nat) :
  existsb (Nat.eqb l) ls = true <-> In l ls.
Proof.
  rewrite List.existsb_exists. split.
  - intros (x & Hx & E). apply Nat.eqb_eq in E. now subst.
  - intros H. exists l. split; [exact H | apply Nat.eqb_refl].
Qed.

Lemma layout_create (leaves : list nat) (l : nat) (p : Plugin) :
  let p' :=
    fold_left
      (fun p leaf =>
         if mapHas leaf (minimaps p) then p else createMinimap (Some leaf) p)
      leaves p in
  mapHas l (minimaps p') =
    mapHas l (minimaps p) ||
    (existsb (Nat.eqb l) leaves && bool_decide (is_Some (leafViews p !! l))) /\
  (is_Some (leafViews p' !! l) <-> is_Some (leafViews p !! l)).
Proof.
  cbv zeta. revert p. induction leaves as [|a leaves IH]; intros p.
  - cbn. now rewrite orb_false_r.
  - cbn [fold_left existsb].
    set (q := if mapHas a (minimaps p) then p else createMinimap (Some a) p).
    assert (Hq : mapHas l (minimaps q) =
                 mapHas l (minimaps p) ||
                 ((a =? l)%nat && bool_decide (is_Some (leafViews p !! a)))).
    { subst q. destruct (mapHas a (minimaps p)) eqn:Ha; [|apply createMinimap_has].
      destruct (Nat.eqb_spec a l) as [<-|]; [now rewrite Ha | now rewrite orb_false_r]. }
    assert (Hv : is_Some (leafViews q !! l) <-> is_Some (leafViews p !! l)).
    { subst q. destruct (mapHas a (minimaps p)); [reflexivity|].
      apply createMinimap_views. }
    destruct (IH q) as [IH1 IH2]. split; [|now rewrite IH2].
    rewrite IH1, Hq. rewrite (bool_decide_ext _ _ Hv).
    rewrite (Nat.eqb_sym l a).
    destruct (Nat.eqb_spec a l) as [->|]; cbn [orb andb];
      destruct (mapHas l (minimaps p)), (existsb (Nat.eqb l) leaves),
               (bool_decide (is_Some (leafViews p !! l))); reflexivity.
Qed.

Lemma layout_remove (leaves keys : list nat) (l : nat) (p : Plugin) :
  let p' :=
    fold_left
      (fun p leaf =>
         if existsb (Nat.eqb leaf) leaves then p
         else
           let p := onMinimap detach leaf p in
           withMinimaps p (mapDelete leaf (minimaps p)))
      keys p in
  mapHas l (minimaps p') =
    mapHas l (minimaps p) &&
    (negb (existsb (Nat.eqb l) keys) || existsb (Nat.eqb l) leaves) /\
  (is_Some (leafViews p' !! l) <-> is_Some (leafViews p !! l)).
Proof.
  cbv zeta. revert p. induction keys as [|k keys IH]; intros p.
  - cbn. now rewrite andb_true_r.
  - cbn [fold_left existsb].
    set (q := if existsb (Nat.eqb k) leaves then p
              else withMinimaps (onMinimap detach k p)
                     (mapDelete k (minimaps (onMinimap detach k p)))).
    assert (Hq : mapHas l (minimaps q) =
                 mapHas l (minimaps p) &&
                 (negb (k =? l)%nat || existsb (Nat.eqb k) leaves)).
    { subst q. destruct (existsb (Nat.eqb k) leaves).
      - now rewrite orb_true_r, andb_true_r.
      - cbn [withMinimaps minimaps]. rewrite mapHas_mapDelete, onMinimap_has.
        now rewrite orb_false_r. }
    assert (Hv : is_Some (leafViews q !! l) <-> is_Some (leafViews p !! l)).
    { subst q. destruct (existsb (Nat.eqb k) leaves); [reflexivity|].
      cbn [withMinimaps leafViews]. apply onMinimap_views, keepsView_detach. }
    destruct (IH q) as [IH1 IH2]. split; [|now rewrite IH2].
    rewrite IH1, Hq. rewrite (Nat.eqb_sym l k).
    destruct (Nat.eqb_spec k l) as [->|]; cbn [orb andb negb];
      destruct (mapHas l (minimaps p)), (existsb (Nat.eqb l) keys),
               (existsb (Nat.eqb l) leaves); reflexivity.
Qed.

(** X15.  After a layout change a leaf has a renderer exactly when it is
    among the markdown leaves of the layout and either had a renderer or
    has a markdown view: renderers of leaves that left the layout are
    dropped, and the others are kept. *)
Theorem handleLayoutChange_registry (leaves : list nat) (p : Plugin) (leaf : nat) :
  mapHas leaf (minimaps (handleLayoutChange leaves p)) = true <->
  In leaf leaves /\
  (mapHas leaf (minimaps p) = true \/ is_Some (leafViews p !! leaf)).
Proof.
  unfold handleLayoutChange.
  destruct (layout_remove leaves (List.map fst (minimaps p)) leaf p) as [H1 Hv1].
  match goal with
  | |- context [fold_left ?f leaves ?p1] =>
      destruct (layout_create leaves leaf p1) as [H2 _]
  end.
  cbv zeta in *. rewrite H2, H1. rewrite (bool_decide_ext _ _ Hv1).
  rewrite <- existsb_eqb_In.
  destruct (mapHas leaf (minimaps p)) eqn:Hh.
  - assert (Hk : existsb (Nat.eqb leaf) (List.map fst (minimaps p)) = true).
    { apply existsb_eqb_In, mapHas_keys, Hh. }
    rewrite Hk. cbn [negb orb andb].
    destruct (existsb (Nat.eqb leaf) leaves); cbn; [tauto|].
    split; [discriminate | now intros [? _]].
  - cbn [andb orb]. rewrite andb_true_iff, bool_decide_eq_true. split.
    + intros [? ?]. tauto.
    + intros [? [?|?]]; [discriminate | tauto].
Qed.

Lemma handleLayoutChange_registry_witness :
  mapHas 1 (minimaps (handleLayoutChange [1%nat]
                        (loaded DEFAULT_SETTINGS exampleBrowser
                                {[1%nat := exampleView]}))) = true.
Proof.
  apply (proj2 (handleLayoutChange_registry [1%nat]
                  (loaded DEFAULT_SETTINGS exampleBrowser {[1%nat := exampleView]})
                  1%nat)).
  split; [now left|]. right. exists exampleView. reflexivity.
Defined.

(** ** What holds of the registry after any events *)

Lemma mapGet_In (k : nat) (c : option Canvas) (m : list (nat * option Canvas)) :
  mapGet k m = Some c -> In (k, c) m.
Proof.
  induction m as [|[k0 r0] m IH]; [discriminate|].
  cbn [mapGet]. destruct (Nat.eqb_spec k0 k) as [->|].
  - intros [= ->]. now left.
  - intros H. right. now apply IH.
Qed.

Lemma Forall_mapSet (P : nat * option Canvas -> Prop) (k : nat) (r : option Canvas)
    (m : list (nat * option Canvas)) :
  List.Forall P m -> P (k, r) -> List.Forall P (mapSet k r m).
Proof.
  intros Hm Hr. induction Hm as [|[k0 r0] m H0 Hm IH]; [now repeat constructor|].
  cbn [mapSet]. destruct (Nat.eqb_spec k0 k) as [->|]; now constructor.
Qed.

Lemma registryOk_onMinimap (method : World -> World) (leaf : nat) (p : Plugin) :
  keepsCanvas method ->
  registryOk (minimaps p) -> registryOk (minimaps (onMinimap method leaf p)).
Proof.
  intros Hk [Hn Hf]. split; [now rewrite onMinimap_keys|].
  rewrite onMinimap_unfold. destruct (mapGet leaf (minimaps p)) as [c|] eqn:E;
    [|exact Hf].
  cbn [withMinimaps minimaps]. apply Forall_mapSet; [exact Hf|].
  cbn [snd]. apply Hk. cbn [rendererWorld canvas].
  apply mapGet_In in E.
  exact (proj1 (List.Forall_forall _ _) Hf _ E).
Qed.

Lemma registryOk_forEach (method : World -> World) (p : Plugin) :
  keepsCanvas method ->
  registryOk (minimaps p) -> registryOk (minimaps (forEachMinimap method p)).
Proof.
  intros Hk. unfold forEachMinimap. generalize (List.map fst (minimaps p)) as keys.
  intros keys. revert p. induction keys as [|k keys IH]; intros p Hp; [exact Hp|].
  cbn [fold_left]. apply IH. now apply registryOk_onMinimap.
Qed.

Lemma is_Some_surface (w w' : World) :
  surfaceListeners w' = surfaceListeners w -> is_Some (canvas w) -> is_Some (canvas w').
Proof.
  unfold surfaceListeners. intros H [c Hc]. rewrite Hc in H.
  destruct (canvas w'); [eauto | discriminate H].
Qed.

Lemma keepsCanvas_update : keepsCanvas update.
Proof. intros w. apply is_Some_surface, update_surfaceListeners. Qed.

Lemma keepsCanvas_syncVisibility : keepsCanvas syncVisibility.
Proof. intros w. apply is_Some_surface, syncVisibility_surfaceListeners. Qed.

Lemma keepsCanvas_onEditorScroll : keepsCanvas onEditorScroll.
Proof.
  intros w. unfold onEditorScroll. destruct (negb (isDragging w)); [|easy].
  apply keepsCanvas_update.
Qed.

Lemma keepsCanvas_scrollToMinimapPosition (e : MouseEvent) (rect : DOMRect) :
  keepsCanvas (scrollToMinimapPosition e rect).
Proof.
  intros w. apply is_Some_surface, scrollToMinimapPosition_listeners.
Qed.

Lemma keepsCanvas_canvasMouseDown (e : MouseEvent) (rect : DOMRect) :
  keepsCanvas (canvasMouseDown e rect).
Proof.
  intros w H. unfold canvasMouseDown.
  now apply keepsCanvas_scrollToMinimapPosition.
Qed.

Lemma keepsCanvas_canvasMouseMove (e : MouseEvent) (rect : DOMRect) :
  keepsCanvas (canvasMouseMove e rect).
Proof.
  intros w H. unfold canvasMouseMove. destruct (isDragging w); [|exact H].
  now apply keepsCanvas_scrollToMinimapPosition.
Qed.

Lemma attach_creates_canvas (w : World) :
  is_Some (view w) -> is_Some (canvas (attach w)).
Proof.
  intros [v Hv]. unfold attach. rewrite Hv.
  destruct (canvas w) as [c|] eqn:Hc; [rewrite Hc; eauto|].
  apply keepsCanvas_update. cbn [canvas]. eauto.
Qed.

Lemma registryOk_createMinimap (leaf : option nat) (p : Plugin) :
  registryOk (minimaps p) -> registryOk (minimaps (createMinimap leaf p)).
Proof.
  intros Hp. destruct leaf as [l|]; [|exact Hp]. rewrite createMinimap_unfold.
  destruct (leafViews p !! l) as [v|] eqn:Hv; [|exact Hp].
  destruct (mapHas l (minimaps p)) eqn:Hl; [exact Hp|]. cbv zeta.
  apply registryOk_onMinimap; [apply keepsCanvas_syncVisibility|].
  cbn [withMinimaps minimaps]. rewrite (mapSet_new _ _ _ Hl).
  destruct Hp as [Hn Hf]. split.
  - rewrite List.map_app. cbn [List.map fst].
    apply NoDup_ListNoDup, NoDup_app. repeat split.
    + now apply NoDup_ListNoDup.
    + intros x Hx Hx'. apply list_elem_of_In in Hx.
      apply list_elem_of_In in Hx'. destruct Hx' as [<-|[]].
      apply mapHas_keys in Hx. congruence.
    + apply NoDup_singleton.
  - apply List.Forall_app. split; [exact Hf|]. constructor; [|constructor].
    cbn [snd]. apply attach_creates_canvas. cbn [rendererWorld view]. eauto.
Qed.

Lemma mapDelete_mapSet (k : nat) (r : option Canvas) (m : list (nat * option Canvas)) :
  mapDelete k (mapSet k r m) = mapDelete k m.
Proof.
  unfold mapDelete. induction m as [|[k0 r0] m IH].
  - cbn. now rewrite Nat.eqb_refl.
  - cbn [mapSet]. destruct (Nat.eqb_spec k0 k) as [->|Hne].
    + cbn [List.filter fst]. now rewrite Nat.eqb_refl.
    + cbn [List.filter fst]. now rewrite IH.
Qed.

Lemma registryOk_mapDelete (k : nat) (m : list (nat * option Canvas)) :
  registryOk m -> registryOk (mapDelete k m).
Proof.
  intros [Hn Hf]. split.
  - clear Hf. induction m as [|[a b] m IH]; [constructor|].
    cbn [List.map fst] in Hn. apply List.NoDup_cons_iff in Hn as [Ha Hn].
    unfold mapDelete in *. cbn [List.filter fst].
    destruct (negb (a =? k)%nat); [|now apply IH].
    cbn [List.map fst]. constructor; [|now apply IH].
    intros Hin. apply Ha. apply List.in_map_iff in Hin as (e & <- & He).
    apply List.filter_In in He as [He _]. now apply List.in_map.
  - apply List.Forall_forall. intros e He. apply List.filter_In in He as [He _].
    exact (proj1 (List.Forall_forall _ _) Hf e He).
Qed.

Lemma registryOk_layout_create (leaves : list nat) (p : Plugin) :
  registryOk (minimaps p) ->
  registryOk
    (minimaps
       (fold_left
          (fun p leaf =>
             if mapHas leaf (minimaps p) then p else createMinimap (Some leaf) p)
          leaves p)).
Proof.
  revert p. induction leaves as [|a leaves IH]; intros p Hp; [exact Hp|].
  cbn [fold_left]. apply IH.
  destruct (mapHas a (minimaps p)); [exact Hp|].
  now apply registryOk_createMinimap.
Qed.

Lemma registryOk_handleLayoutChange (leaves : list nat) (p : Plugin) :
  registryOk (minimaps p) -> registryOk (minimaps (handleLayoutChange leaves p)).
Proof.
  intros Hp. unfold handleLayoutChange. cbv zeta.
  apply registryOk_layout_create.
  generalize (List.map fst (minimaps p)) as keys. intros keys. revert p Hp.
  induction keys as [|k keys IH]; intros p Hp; [exact Hp|].
  cbn [fold_left]. apply IH.
  destruct (existsb (Nat.eqb k) leaves); [exact Hp|].
  cbn [withMinimaps minimaps]. rewrite onMinimap_unfold.
  destruct (mapGet k (minimaps p)) as [c|] eqn:E.
  - cbn [withMinimaps minimaps]. rewrite mapDelete_mapSet.
    now apply registryOk_mapDelete.
  - now apply registryOk_mapDelete.
Qed.

Lemma registryOk_handleEvent (ev : PluginEvent) (p : Plugin) :
  registryOk (minimaps p) -> registryOk (minimaps (handleEvent ev p)).
Proof.
  intros Hp. destruct ev; cbn [handleEvent].
  - destruct (markdownLeaf activeLeaf p); [|exact Hp].
    destruct (negb (hostDragging p)); [|exact Hp].
    now apply registryOk_onMinimap; [apply keepsCanvas_update|].
  - now apply registryOk_handleLayoutChange.
  - destruct (markdownLeaf leaf p); [|exact Hp].
    apply registryOk_onMinimap; [apply keepsCanvas_update|].
    now apply registryOk_createMinimap.
  - destruct (markdownLeaf activeLeaf p); [|exact Hp].
    now apply registryOk_onMinimap; [apply keepsCanvas_update|].
  - destruct (_ && _); [|exact Hp].
    now apply registryOk_onMinimap; [apply keepsCanvas_update|].
  - unfold toggleCommand. destruct activeFile; [|exact Hp].
    now apply registryOk_forEach; [apply keepsCanvas_syncVisibility|].
  - exact Hp.
  - exact Hp.
  - now apply registryOk_forEach; [apply keepsCanvas_syncVisibility|].
  - now apply registryOk_onMinimap; [apply keepsCanvas_onEditorScroll|].
  - now apply registryOk_onMinimap; [apply keepsCanvas_canvasMouseDown|].
  - now apply registryOk_onMinimap; [apply keepsCanvas_canvasMouseMove|].
  - generalize (List.filter (fun l => String.eqb (eventType l) type)
                            (hostDocumentListeners p)) as ls.
    intros ls. revert p Hp. induction ls as [|l ls IH]; intros p Hp; [exact Hp|].
    cbn [fold_left]. apply IH. unfold runDocumentListener.
    destruct (callback l) as [|? []]; exact Hp.
  - split; constructor.
  - exact Hp.
Qed.

Lemma registryOk_handleEvents (evs : list PluginEvent) (p : Plugin) :
  registryOk (minimaps p) -> registryOk (minimaps (handleEvents evs p)).
Proof.
  unfold handleEvents. revert p. induction evs as [|ev evs IH]; intros p Hp;
    [exact Hp|].
  cbn [fold_left]. apply IH. now apply registryOk_handleEvent.
Qed.

(** X16.  Whatever happens after the plugin is loaded, the registry holds
    one renderer per leaf and every renderer in it has its canvas: a
    renderer that was detached is not left registered. *)
Theorem registered_renderers_are_attached (evs : list PluginEvent)
    (st : MinimapSettings) (b : Browser) (views : gmap nat MarkdownView) :
  registryOk (minimaps (handleEvents evs (loaded st b views))).
Proof. apply registryOk_handleEvents. split; constructor. Qed.

(** ** Refreshing the minimaps *)

Lemma runRenderer_syncVisibility (leaf : nat) (c : option Canvas) (p : Plugin) :
  fst (runRenderer syncVisibility leaf c p) = p.
Proof.
  unfold runRenderer. cbn [fst].
  destruct (syncVisibility_frame (rendererWorld p leaf c))
    as (-> & -> & -> & -> & -> & ->).
  destruct p as [st d b dl n views m de sd]. cbn. f_equal.
  destruct (views !! leaf) as [v|] eqn:Hv; [|reflexivity].
  now apply insert_id.
Qed.

Lemma mapGet_app (k : nat) (c : option Canvas) (done todo : list (nat * option Canvas)) :
  ~ In k (List.map fst done) -> mapGet k (done ++ (k, c) :: todo) = Some c.
Proof.
  induction done as [|[a b] done IH]; intros Hn.
  - cbn. now rewrite Nat.eqb_refl.
  - cbn in Hn |- *. destruct (Nat.eqb_spec a k) as [->|]; [tauto|].
    apply IH. tauto.
Qed.

Lemma mapSet_app (k : nat) (c r : option Canvas) (done todo : list (nat * option Canvas)) :
  ~ In k (List.map fst done) ->
  mapSet k r (done ++ (k, c) :: todo) = done ++ (k, r) :: todo.
Proof.
  induction done as [|[a b] done IH]; intros Hn.
  - cbn. now rewrite Nat.eqb_refl.
  - cbn in Hn |- *. destruct (Nat.eqb_spec a k) as [->|]; [tauto|].
    rewrite IH; tauto.
Qed.

Lemma refresh_fold (p : Plugin) (done todo : list (nat * option Canvas)) :
  List.NoDup (List.map fst (done ++ todo)) ->
  fold_left (fun p leaf => onMinimap syncVisibility leaf p) (List.map fst todo)
            (withMinimaps p (done ++ todo)) =
  withMinimaps p
    (done ++
     List.map (fun e => (fst e, canvas (syncVisibility (rendererWorld p (fst e) (snd e)))))
              todo).
Proof.
  revert done. induction todo as [|[k c] todo IH]; intros done Hn; [reflexivity|].
  cbn [List.map fst snd fold_left].
  assert (Hk : ~ In k (List.map fst done)).
  { rewrite List.map_app in Hn. cbn [List.map fst] in Hn.
    apply List.NoDup_remove_2 in Hn. intros Hin. apply Hn.
    apply List.in_app_iff. now left. }
  rewrite onMinimap_unfold. cbn [withMinimaps minimaps].
  rewrite (mapGet_app _ _ _ _ Hk). cbv zeta.
  rewrite runRenderer_syncVisibility, (mapSet_app _ _ _ _ _ Hk).
  change (rendererWorld (withMinimaps p (done ++ (k, c) :: todo)) k c)
    with (rendererWorld p k c).
  set (c' := canvas (syncVisibility (rendererWorld p k c))).
  change (withMinimaps (withMinimaps p (done ++ (k, c) :: todo))
                       (done ++ (k, c') :: todo))
    with (withMinimaps p (done ++ (k, c') :: todo)).
  replace (done ++ (k, c') :: todo) with ((done ++ [(k, c')]) ++ todo)
    by now rewrite <- List.app_assoc.
  rewrite IH.
  - now rewrite <- List.app_assoc.
  - rewrite <- List.app_assoc. cbn [List.app].
    rewrite List.map_app in Hn |- *. exact Hn.
Qed.

Lemma refreshMinimaps_unfold (p : Plugin) :
  List.NoDup (List.map fst (minimaps p)) ->
  refreshMinimaps p =
  withMinimaps p
    (List.map (fun e => (fst e, canvas (syncVisibility (rendererWorld p (fst e) (snd e)))))
              (minimaps p)).
Proof.
  intros Hn. unfold refreshMinimaps, forEachMinimap.
  pose proof (refresh_fold p [] (minimaps p) Hn) as H. cbn [List.app] in H.
  rewrite <- H. f_equal. now destruct p.
Qed.

Lemma refreshMinimaps_displays (p : Plugin) :
  registryOk (minimaps p) ->
  displays (refreshMinimaps p) =
  List.map
    (fun e => (fst e, Some (if leafEnabled p (fst e) then DisplayBlock else DisplayNone)))
    (minimaps p).
Proof.
  intros [Hn Hf]. rewrite (refreshMinimaps_unfold p Hn).
  unfold displays. cbn [withMinimaps minimaps]. rewrite List.map_map.
  apply List.map_ext_in. intros [k c] Hin. cbn [fst snd].
  destruct (proj1 (List.Forall_forall _ _) Hf _ Hin) as [c0 Hc]. cbn [snd] in Hc.
  subst c. rewrite (syncVisibility_shows (rendererWorld p k (Some c0)) c0 eq_refl).
  unfold leafEnabled, boundFile, isMinimapEnabledForFile. cbn [rendererWorld view settings].
  destruct (leafViews p !! k) as [v|]; [|reflexivity].
  destruct (file v); reflexivity.
Qed.

(** X17.  Whatever happened since the plugin was loaded, refreshing the
    minimaps leaves every registered canvas shown when the view of its
    leaf has a file for which the minimap is enabled, and hidden
    otherwise. *)
Theorem refresh_shows_enabled_panes (evs : list PluginEvent)
    (st : MinimapSettings) (b : Browser) (views : gmap nat MarkdownView) :
  let p := handleEvents evs (loaded st b views) in
  displays (refreshMinimaps p) =
  List.map
    (fun e => (fst e, Some (if leafEnabled p (fst e) then DisplayBlock else DisplayNone)))
    (minimaps p).
Proof.
  cbv zeta. apply refreshMinimaps_displays, registryOk_handleEvents.
  split; constructor.
Qed.

(** X18.  The command that toggles the minimap of the current note writes
    the new list of disabled files to the settings, saves them, and leaves
    every registered canvas shown or hidden as the new settings say: on
    every leaf that shows the note, not only the active one. *)
Theorem toggle_command_reaches_every_pane (evs : list PluginEvent)
    (st : MinimapSettings) (b : Browser) (views : gmap nat MarkdownView)
    (path : string) :
  let p := handleEvents evs (loaded st b views) in
  let p' := toggleCommand (Some path) p in
  hostSettings p' =
    withDisabledFiles (hostSettings p) (toggleDisabled path (disabledFiles (hostSettings p))) /\
  savedData p' = savedData (saveSettings p') /\
  displays p' =
  List.map
    (fun e => (fst e, Some (if leafEnabled p' (fst e) then DisplayBlock else DisplayNone)))
    (minimaps p).
Proof.
  cbv zeta. set (p := handleEvents evs (loaded st b views)).
  assert (Hp : registryOk (minimaps p)).
  { apply registryOk_handleEvents. split; constructor. }
  unfold toggleCommand.
  set (q := saveSettings (withHostSettings p _)).
  assert (Hq : registryOk (minimaps q)) by exact Hp.
  pose proof (refreshMinimaps_unfold q (proj1 Hq)) as Hr.
  split; [now rewrite Hr|]. split; [now rewrite Hr|].
  rewrite (refreshMinimaps_displays q Hq).
  apply List.map_ext. intros e. now rewrite Hr.
Qed.
